(** * Adaptive radix tree: node operations

    A shallow embedding of the node layer of the adaptive radix tree
    (package [adaptive]): prefix comparison, child lookup, node growth and
    shrink, minimum / maximum descent and the key codec.

    Conventions.
    - Go's [int], [byte], [uint32] values are integers in [Z]; every
      conversion that can wrap is written out with [mod].
    - A fixed-size Go array is a list; reads whose index is bounded by the
      array type itself use the total lookup [!!!], every other read, write
      and slice expression goes through a bounds check that yields [Panic].
    - A pointer [*Node[T]] is [None] (nil) or [Some a] with [a] the address
      of the node object it leads to in the store; the interface cell in
      between is immutable once created and is not represented.
    - [*ref], the slot held by the caller, is a component of the state. *)

From Stdlib Require Import ZArith Lia.
From stdpp Require Import base option list sorting.

Local Open Scope Z_scope.

(** ** Results of partial operations *)

(** [Panic] is a Go run-time panic (index or slice bounds out of range, nil
    dereference, failed type assertion, explicit [panic]); [Fuel] is only
    produced by the recursive descents when their recursion budget ends. *)
Inductive res (A : Type) : Type :=
| Ok (a : A)
| Panic
| Fuel.
Arguments Ok {A} a.
Arguments Panic {A}.
Arguments Fuel {A}.

#[global] Instance res_ret : MRet res := fun A a => Ok a.
#[global] Instance res_bind : MBind res := fun A B f m =>
  match m with
  | Ok a => f a
  | Panic => Panic
  | Fuel => Fuel
  end.

(** ** Go slices and arrays *)

(** [min] of the package. *)
Definition go_min (a b : Z) : Z := if a <? b then a else b.

(** [copy(dst, src)]: the new contents of [dst]. *)
Definition go_copy {A} (dst src : list A) : list A :=
  take (length dst) src ++ drop (length src) dst.

(** [s[lo:hi]] on a slice or array whose capacity is its length. *)
Definition slice {A} (s : list A) (lo hi : Z) : res (list A) :=
  if (0 <=? lo) && (lo <=? hi) && (hi <=? Z.of_nat (length s))
  then Ok (drop (Z.to_nat lo) (take (Z.to_nat hi) s))
  else Panic.

(** [s[lo:]] *)
Definition slice_from {A} (s : list A) (lo : Z) : res (list A) :=
  slice s lo (Z.of_nat (length s)).

(** The array [s] after its window [s[lo:lo+len(w)]] was overwritten by [w]. *)
Definition splice {A} (s : list A) (lo : Z) (w : list A) : list A :=
  take (Z.to_nat lo) s ++ w ++ drop (Z.to_nat lo + length w) s.

(** [s[i]] with Go's bounds check. *)
Definition zget {A} (s : list A) (i : Z) : res A :=
  if i <? 0 then Panic
  else match s !! Z.to_nat i with
       | Some x => Ok x
       | None => Panic
       end.

(** [s[i] = x] with Go's bounds check. *)
Definition zset {A} (s : list A) (i : Z) (x : A) : res (list A) :=
  if (0 <=? i) && (i <? Z.of_nat (length s))
  then Ok (<[Z.to_nat i := x]> s)
  else Panic.

(** [copy(s[lo:], src)]: the array [s] afterwards. *)
Definition copy_into {A} (s : list A) (lo : Z) (src : list A) : res (list A) :=
  dst ← slice_from s lo;
  Ok (take (Z.to_nat lo) s ++ go_copy dst src).

(** [for i := i0; i < i0+n; i++ { s = body(i, s) }] *)
Fixpoint for_range {St} (body : nat -> St -> res St) (i n : nat) (s : St)
    : res St :=
  match n with
  | O => Ok s
  | S n' => s' ← body i s; for_range body (S i) n' s'
  end.

(** [for idx := lo; idx < lo+n && !stop(idx); idx++ {}]: the final [idx]. *)
Fixpoint scan_up (stop : nat -> bool) (idx n : nat) : nat :=
  match n with
  | O => idx
  | S n' => if stop idx then idx else scan_up stop (S idx) n'
  end.

(** [bits.TrailingZeros32] ([w = 32]) and [bits.TrailingZeros16] ([w = 16]):
    the index of the lowest set bit, [w] when there is none. *)
Definition trailingZeros (w : nat) (x : Z) : nat :=
  scan_up (fun i => Z.testbit x (Z.of_nat i)) 0 w.

(** [byte(x)] *)
Definition to_byte (x : Z) : Z := x mod 256.

(** ** The key codec *)

(** ['$'] *)
Definition terminator : Z := 36.

Definition getTreeKey (key : list Z) : list Z :=
  let keyLen := (length key + 1)%nat in
  let newKey := replicate keyLen 0 in
  let newKey := go_copy newKey key in
  <[(keyLen - 1)%nat := terminator]> newKey.

Definition getKey (key : list Z) : list Z :=
  let keyLen := length key in
  match keyLen with
  | O => []
  | S n => go_copy (replicate n 0) key
  end.

(** [a] is a prefix of [b] and shorter than it. *)
Definition strict_prefix (a b : list Z) : Prop :=
  a `prefix_of` b /\ a <> b.

(** [bytes.Compare(a, b)] of Go's standard library, from its documentation:
    the lexicographic comparison of two byte strings, [0] when [a == b],
    [-1] when [a < b] and [+1] when [a > b]. *)
Fixpoint bytes_Compare (a b : list Z) : Z :=
  match a, b with
  | [], [] => 0
  | [], _ :: _ => -1
  | _ :: _, [] => 1
  | x :: a', y :: b' =>
      if x <? y then -1 else if y <? x then 1 else bytes_Compare a' b'
  end.

(** ** Nodes *)

(** A [*Node[T]]: nil, or the address of a node in the store. *)
Abbreviation ptr := (option nat).

Definition ptr_eqb (p q : ptr) : bool :=
  match p, q with
  | None, None => true
  | Some a, Some b => Nat.eqb a b
  | _, _ => false
  end.

Definition is_nil (p : ptr) : bool :=
  match p with
  | None => true
  | Some _ => false
  end.

Inductive nodeType : Set := leafType | node4 | node16 | node48 | node256.

(** Modelled from the spec: the node structs, their accessor methods and the
    constant [maxPrefixLen] are declared outside the files at hand.  The
    data model gives every variant the common header ([partial],
    [partialLen], [numChildren]; the kind is the constructor), [Node4] and
    [Node16] parallel [keys] / [children] arrays of capacity 4 and 16,
    [Node48] a 256-entry index and a 48-capacity children array, [Node256]
    a direct 256-entry child array, and a leaf its key and value. *)
Record Header : Type := mkHeader {
  partialLen : Z;
  numChildren : Z;
  partial : list Z
}.

Section ART.

(** The value type of the tree and its zero value. *)
Context {T : Type}.
Variable zeroT : T.

(** The capacity of the explicit prefix buffer, and the number of values of
    the unsigned integer types of [partialLen] and [numChildren]: the
    declarations are not part of the files at hand, so the arithmetic on
    these fields is reduced modulo a parameter. *)
Variable maxPrefixLen : Z.
Variable partialLenMod : Z.
Variable numChildrenMod : Z.

Inductive Node : Type :=
| NodeLeaf (hd : Header) (value : T) (keyLen : Z) (key : list Z)
| Node4 (hd : Header) (keys : list Z) (children : list ptr)
| Node16 (hd : Header) (keys : list Z) (children : list ptr)
| Node48 (hd : Header) (keys : list Z) (children : list ptr)
| Node256 (hd : Header) (children : list ptr).

Definition getHeader (n : Node) : Header :=
  match n with
  | NodeLeaf hd _ _ _ | Node4 hd _ _ | Node16 hd _ _ | Node48 hd _ _
  | Node256 hd _ => hd
  end.

Definition setHeader (n : Node) (hd : Header) : Node :=
  match n with
  | NodeLeaf _ v kl k => NodeLeaf hd v kl k
  | Node4 _ ks cs => Node4 hd ks cs
  | Node16 _ ks cs => Node16 hd ks cs
  | Node48 _ ks cs => Node48 hd ks cs
  | Node256 _ cs => Node256 hd cs
  end.

Definition getPartialLen (n : Node) : Z := partialLen (getHeader n).
Definition getNumChildren (n : Node) : Z := numChildren (getHeader n).
Definition getPartial (n : Node) : list Z := partial (getHeader n).

Definition setPartialLen (n : Node) (l : Z) : Node :=
  setHeader n (mkHeader l (getNumChildren n) (getPartial n)).
Definition setNumChildren (n : Node) (k : Z) : Node :=
  setHeader n (mkHeader (getPartialLen n) k (getPartial n)).
Definition setPartial (n : Node) (p : list Z) : Node :=
  setHeader n (mkHeader (getPartialLen n) (getNumChildren n) p).

Definition getArtNodeType (n : Node) : nodeType :=
  match n with
  | NodeLeaf _ _ _ _ => leafType
  | Node4 _ _ _ => node4
  | Node16 _ _ _ => node16
  | Node48 _ _ _ => node48
  | Node256 _ _ => node256
  end.

Definition isLeaf (n : Node) : bool :=
  match n with
  | NodeLeaf _ _ _ _ => true
  | _ => false
  end.

(** The variant-specific arrays ([[]] where the variant has none). *)
Definition getKeys (n : Node) : list Z :=
  match n with
  | Node4 _ ks _ | Node16 _ ks _ | Node48 _ ks _ => ks
  | _ => []
  end.

Definition getChildren (n : Node) : list ptr :=
  match n with
  | Node4 _ _ cs | Node16 _ _ cs | Node48 _ _ cs | Node256 _ cs => cs
  | NodeLeaf _ _ _ _ => []
  end.

Definition setKeys (n : Node) (ks : list Z) : Node :=
  match n with
  | Node4 hd _ cs => Node4 hd ks cs
  | Node16 hd _ cs => Node16 hd ks cs
  | Node48 hd _ cs => Node48 hd ks cs
  | _ => n
  end.

Definition setChildren (n : Node) (cs : list ptr) : Node :=
  match n with
  | Node4 hd ks _ => Node4 hd ks cs
  | Node16 hd ks _ => Node16 hd ks cs
  | Node48 hd ks _ => Node48 hd ks cs
  | Node256 hd _ => Node256 hd cs
  | NodeLeaf _ _ _ _ => n
  end.

(** The store of node objects, addressed by position, and the machine
    state: the store and the caller-held slot [*ref]. *)
Abbreviation heap := (list Node).

Record state : Type := mkState {
  st_heap : heap;
  st_slot : ptr
}.

(** The zero value of each variant's struct. *)
Definition zeroNode (ntype : nodeType) : Node :=
  let hd := mkHeader 0 0 [] in
  match ntype with
  | leafType => NodeLeaf hd zeroT 0 []
  | node4 => Node4 hd (replicate 4 0) (replicate 4 None)
  | node16 => Node16 hd (replicate 16 0) (replicate 16 None)
  | node48 => Node48 hd (replicate 256 0) (replicate 48 None)
  | node256 => Node256 hd (replicate 256 None)
  end.

(** [allocNode]: the contents of the fresh node.  Its address is the next
    free position of the store, where the caller's construction puts it. *)
Definition allocNode (ntype : nodeType) : Node :=
  let n := zeroNode ntype in
  let n := setPartial n (replicate (Z.to_nat maxPrefixLen) 0) in
  setPartialLen n maxPrefixLen.

(** ** Prefix comparison *)

(** [for ; idx < idx+n; idx++ { if x[xoff+idx] != key[koff+idx] { return idx } }]:
    [(true, idx)] when the loop returned from the function, [(false, idx)]
    when it ran to its bound. *)
Fixpoint cmp_loop (x : list Z) (xoff : Z) (key : list Z) (koff : Z)
    (idx : Z) (n : nat) : res (bool * Z) :=
  match n with
  | O => Ok (false, idx)
  | S n' =>
      a ← zget x (xoff + idx);
      b ← zget key (koff + idx);
      if negb (a =? b) then Ok (true, idx)
      else cmp_loop x xoff key koff (idx + 1) n'
  end.

Definition checkPrefix (n : Node) (key : list Z) (keyLen depth : Z) : res Z :=
  let maxCmp := go_min (go_min (getPartialLen n) maxPrefixLen) (keyLen - depth) in
  '(_, idx) ← cmp_loop (getPartial n) 0 key depth 0 (Z.to_nat maxCmp);
  Ok idx.

(** [copyHeader(dest, src)]: the new contents of [dest]. *)
Definition copyHeader (dest src : Node) : res Node :=
  let dest := setNumChildren dest (getNumChildren src) in
  let dest := setPartialLen dest (getPartialLen src) in
  let length := go_min maxPrefixLen (getPartialLen src) in
  partialToCopy ← slice (getPartial src) 0 length;
  window ← slice (getPartial dest) 0 length;
  Ok (setPartial dest (splice (getPartial dest) 0 (go_copy window partialToCopy))).

(** ** Leaves *)

(** [leafMatches(n, key, keyLen)]; the parameter has type [*NodeLeaf[T]]. *)
Definition leafMatches (n : Node) (key : list Z) (keyLen : Z) : res Z :=
  match n with
  | NodeLeaf _ _ nkeyLen nkey =>
      if negb (nkeyLen =? keyLen) then Ok 1
      else Ok (bytes_Compare nkey key)
  | _ => Panic
  end.

(** [makeLeaf(key, value)]: the leaf object built.  [l.keyLen] is
    [uint32(len(key))], and [l.key] a new array of that length onto which
    [key] is copied. *)
Definition makeLeaf (key : list Z) (value : T) : Node :=
  match allocNode leafType with
  | NodeLeaf hd _ _ _ =>
      let keyLen := Z.of_nat (length key) mod 2 ^ 32 in
      let lkey := replicate (Z.to_nat keyLen) 0 in
      NodeLeaf hd value keyLen (go_copy lkey key)
  | n => n
  end.

(** [longestCommonPrefix(l1, l2, depth)]; both parameters have type
    [*NodeLeaf[T]]. *)
Definition longestCommonPrefix (l1 l2 : Node) (depth : Z) : res Z :=
  match l1, l2 with
  | NodeLeaf _ _ keyLen1 key1, NodeLeaf _ _ keyLen2 key2 =>
      let maxCmp :=
        if keyLen1 <? keyLen2 then keyLen1 - depth else keyLen2 - depth in
      '(_, idx) ← cmp_loop key1 depth key2 depth 0 (Z.to_nat maxCmp);
      Ok idx
  | _, _ => Panic
  end.

(** ** Growth *)

(** [n.numChildren++] and [n.numChildren--] in the counter's type. *)
Definition incr (k : Z) : Z := (k + 1) mod numChildrenMod.
Definition decr (k : Z) : Z := (k - 1) mod numChildrenMod.

(** Write the node [n] back at its address. *)
Definition store (st : state) (a : nat) (n : Node) : state :=
  mkState (<[a := n]> (st_heap st)) (st_slot st).

(** The construction [newNode := allocNode(..); *ref = &newNode; ...] ends
    with the new object [n] at the next free address and that address in
    the slot. *)
Definition install (st : state) (n : Node) : state * nat :=
  (mkState (st_heap st ++ [n]) (Some (length (st_heap st))),
   length (st_heap st)).

Definition addChild256 (st : state) (a : nat) (c : Z) (child : nat)
    : res state :=
  match st_heap st !! a with
  | Some (Node256 hd children) =>
      let hd := mkHeader (partialLen hd) (incr (numChildren hd)) (partial hd) in
      children ← zset children c (Some child);
      Ok (store st a (Node256 hd children))
  | _ => Panic
  end.

Definition addChild48 (st : state) (a : nat) (c : Z) (child : nat)
    : res state :=
  match st_heap st !! a with
  | Some (Node48 hd keys children as n) =>
      if numChildren hd <? 48 then
        (* for n.children[pos] != nil { pos++ } *)
        let pos := scan_up (fun i => bool_decide (children !! i = Some None))
                     0 (length children) in
        _ ← zget children (Z.of_nat pos);
        children ← zset children (Z.of_nat pos) (Some child);
        keys ← zset keys c (to_byte (Z.of_nat pos + 1));
        let hd := mkHeader (partialLen hd) (incr (numChildren hd)) (partial hd) in
        Ok (store st a (Node48 hd keys children))
      else
        let newNode := allocNode node256 in
        cs ← for_range (fun i cs =>
                 if negb (keys !!! i =? 0) then
                   p ← zget children (keys !!! i - 1);
                   zset cs (Z.of_nat i) p
                 else Ok cs) 0 256 (getChildren newNode);
        let newNode := setChildren newNode cs in
        newNode ← copyHeader newNode n;
        let '(st, a') := install st newNode in
        addChild256 st a' c child
  | _ => Panic
  end.

(** [for i := 0; i < 16; i++ { if test(i) { bitfield |= 1 << i } }] *)
Definition bitfield16 (test : nat -> bool) : Z :=
  fold_left (fun bitfield i =>
               if test i then Z.lor bitfield (Z.shiftl 1 (Z.of_nat i))
               else bitfield) (seq 0 16) 0.

(** Shift one place to the right from [idx] to make room:
    [copy(s[idx+1:], s[idx:idx+length])]. *)
Definition shift_right {A} (s : list A) (idx length : Z) : res (list A) :=
  dst ← slice_from s (idx + 1);
  src ← slice s idx (idx + length);
  Ok (take (Z.to_nat (idx + 1)) s ++ go_copy dst src).

(** Shift one place to the left onto [pos]: [copy(s[pos:], s[pos+1:])]. *)
Definition shift_left {A} (s : list A) (pos : Z) : res (list A) :=
  dst ← slice_from s pos;
  src ← slice_from s (pos + 1);
  Ok (take (Z.to_nat pos) s ++ go_copy dst src).

Definition addChild16 (st : state) (a : nat) (c : Z) (child : nat)
    : res state :=
  match st_heap st !! a with
  | Some (Node16 hd keys children as n) =>
      let nc := numChildren hd in
      if nc <? 16 then
        let mask := (Z.shiftl 1 nc mod 2 ^ 32 - 1) mod 2 ^ 32 in
        let bitfield := bitfield16 (fun i => c <? keys !!! i) in
        let bitfield := Z.land bitfield mask in
        '(idx, keys, children) ←
          (if negb (bitfield =? 0) then
             let idx := Z.of_nat (trailingZeros 32 bitfield) in
             let length := nc - idx in
             keys ← shift_right keys idx length;
             children ← shift_right children idx length;
             Ok (idx, keys, children)
           else Ok (nc, keys, children));
        keys ← zset keys idx c;
        children ← zset children idx (Some child);
        let hd := mkHeader (partialLen hd) (incr nc) (partial hd) in
        Ok (store st a (Node16 hd keys children))
      else
        let newNode := allocNode node48 in
        src ← slice children 0 nc;
        let newNode := setChildren newNode (go_copy (getChildren newNode) src) in
        ks ← for_range (fun i ks =>
                 k ← zget keys (Z.of_nat i);
                 zset ks k (to_byte (Z.of_nat i + 1)))
               0 (Z.to_nat nc) (getKeys newNode);
        let newNode := setKeys newNode ks in
        newNode ← copyHeader newNode n;
        let '(st, a') := install st newNode in
        addChild48 st a' c child
  | _ => Panic
  end.

Definition addChild4 (st : state) (a : nat) (c : Z) (child : nat)
    : res state :=
  match st_heap st !! a with
  | Some (Node4 hd keys children as n) =>
      let nc := numChildren hd in
      if nc <? 4 then
        let idx := Z.of_nat (scan_up (fun i => c <? keys !!! i) 0 (Z.to_nat nc)) in
        let length := nc - idx in
        keys ← shift_right keys idx length;
        children ← shift_right children idx length;
        keys ← zset keys idx c;
        children ← zset children idx (Some child);
        let hd := mkHeader (partialLen hd) (incr nc) (partial hd) in
        Ok (store st a (Node4 hd keys children))
      else
        let newNode := allocNode node16 in
        src ← slice children 0 nc;
        let newNode := setChildren newNode (go_copy (getChildren newNode) src) in
        src ← slice keys 0 nc;
        let newNode := setKeys newNode (go_copy (getKeys newNode) src) in
        newNode ← copyHeader newNode n;
        let '(st, a') := install st newNode in
        addChild16 st a' c child
  | _ => Panic
  end.

(** [addChild(n, ref, c, child)] with [n] the object at address [a] and
    [&child] the address [child]. *)
Definition addChild (st : state) (a : nat) (c : Z) (child : nat) : res state :=
  match st_heap st !! a with
  | Some n =>
      match getArtNodeType n with
      | node4 => addChild4 st a c child
      | node16 => addChild16 st a c child
      | node48 => addChild48 st a c child
      | node256 => addChild256 st a c child
      | leafType => Panic
      end
  | None => Panic
  end.

(** ** Child lookup *)

(** [for i := i; i < i+n; i++ { if keys[i] == c { return &children[i] } }] *)
Fixpoint findChild4_loop (keys : list Z) (c : Z) (i n : nat)
    : res (option nat) :=
  match n with
  | O => Ok None
  | S n' =>
      k ← zget keys (Z.of_nat i);
      if k =? c then Ok (Some i) else findChild4_loop keys c (S i) n'
  end.

(** [findChild(n, c)]: the index of the child slot whose address is
    returned, [None] for nil. *)
Definition findChild (n : Node) (c : Z) : res (option nat) :=
  match n with
  | Node4 hd keys children =>
      findChild4_loop keys c 0 (Z.to_nat (numChildren hd))
  | Node16 hd keys children =>
      let bitfield := bitfield16 (fun i => keys !!! i =? c) in
      let mask := Z.shiftl 1 (numChildren hd) - 1 in
      let bitfield := Z.land bitfield (mask mod 2 ^ 16) in
      if negb (bitfield =? 0) then Ok (Some (trailingZeros 16 bitfield))
      else Ok None
  | Node48 hd keys children =>
      i ← zget keys c;
      if negb (i =? 0) then
        _ ← zget children (i - 1);
        Ok (Some (Z.to_nat (i - 1)))
      else Ok None
  | Node256 hd children =>
      p ← zget children c;
      if negb (is_nil p) then Ok (Some (Z.to_nat c)) else Ok None
  | NodeLeaf _ _ _ _ => Ok None
  end.

(** The child a key byte leads to: [*findChild(n, c)], nil when
    [findChild] returns nil. *)
Definition childOf (n : Node) (c : Z) : res ptr :=
  r ← findChild n c;
  match r with
  | Some i => zget (getChildren n) (Z.of_nat i)
  | None => Ok None
  end.

(** ** Minimum and maximum *)

Fixpoint minimum (fuel : nat) (h : heap) (n : ptr) : res (option nat) :=
  match fuel with
  | O => Fuel
  | S fuel =>
      match n with
      | None => Ok None
      | Some a =>
          match h !! a with
          | None => Panic
          | Some (NodeLeaf _ _ _ _) => Ok (Some a)
          | Some (Node4 _ _ children) =>
              p ← zget children 0; minimum fuel h p
          | Some (Node16 _ _ children) =>
              p ← zget children 0; minimum fuel h p
          | Some (Node48 _ keys children) =>
              let idx := scan_up (fun i => negb (keys !!! i =? 0)) 0 256 in
              k ← zget keys (Z.of_nat idx);
              let idx := to_byte (k - 1) in
              if idx <? 48 then
                p ← zget children idx; minimum fuel h p
              else Ok None
          | Some (Node256 _ children) =>
              let idx :=
                scan_up (fun i => negb (is_nil (children !!! i))) 0 256 in
              if Z.of_nat idx <? 256 then
                p ← zget children (Z.of_nat idx); minimum fuel h p
              else Ok None
          end
      end
  end.

(** [for idx >= 0 && children[idx] == nil { idx-- }] entered with
    [idx = n - 1]: the final [idx]. *)
Fixpoint scan_down (children : list ptr) (n : nat) : res Z :=
  match n with
  | O => Ok (-1)
  | S m =>
      p ← zget children (Z.of_nat m);
      if is_nil p then scan_down children m else Ok (Z.of_nat m)
  end.

Fixpoint maximum (fuel : nat) (h : heap) (n : ptr) : res (option nat) :=
  match fuel with
  | O => Fuel
  | S fuel =>
      match n with
      | None => Ok None
      | Some a =>
          match h !! a with
          | None => Panic
          | Some (NodeLeaf _ _ _ _) => Ok (Some a)
          | Some (Node4 hd _ children) =>
              p ← zget children (decr (numChildren hd)); maximum fuel h p
          | Some (Node16 hd _ children) =>
              p ← zget children (decr (numChildren hd)); maximum fuel h p
          | Some (Node48 _ _ children) =>
              idx ← scan_down children 256;
              if 0 <=? idx then
                p ← zget children idx; maximum fuel h p
              else Ok None
          | Some (Node256 _ children) =>
              idx ← scan_down children 256;
              if 0 <=? idx then
                p ← zget children idx; maximum fuel h p
              else Ok None
          end
      end
  end.

(** [prefixMismatch(n, key, keyLen, depth)] with [n] the object at [a]. *)
Definition prefixMismatch (fuel : nat) (h : heap) (a : nat)
    (key : list Z) (keyLen depth : Z) : res Z :=
  match h !! a with
  | None => Panic
  | Some n =>
      let maxCmp :=
        go_min (go_min maxPrefixLen (getPartialLen n)) (keyLen - depth) in
      '(returned, idx) ← cmp_loop (getPartial n) 0 key depth 0 (Z.to_nat maxCmp);
      if (returned : bool) then Ok idx
      else if maxPrefixLen <? getPartialLen n then
        l ← minimum fuel h (Some a);
        match l with
        | None => Ok idx
        | Some la =>
            match h !! la with
            | Some (NodeLeaf _ _ lkeyLen lkey) =>
                let maxCmp := go_min lkeyLen keyLen - depth in
                '(_, idx) ← cmp_loop lkey depth key depth idx
                              (Z.to_nat (maxCmp - idx));
                Ok idx
            | _ => Panic
            end
        end
      else Ok idx
  end.

(** ** Shrink *)

(** [pos := -1; for i, node := range children { if node == *l { pos = i; break } }] *)
Definition find_pos (children : list ptr) (l : ptr) : Z :=
  let i := scan_up (fun i => ptr_eqb (children !!! i) l) 0 (length children) in
  if (i <? length children)%nat then Z.of_nat i else -1.

(** The body of [if n.numChildren == 1 { ... }] in [removeChild4], with [n]
    the object at [a], of header [hd], keys [keys] and children [children].
    The surviving child is an object of its own (single ownership); it is
    read from the store as it was when the call began. *)
Definition collapse (st : state) (a : nat) (hd : Header) (keys : list Z)
    (children : list ptr) : res state :=
  let n := Node4 hd keys children in
  match children !!! 0%nat with
  | None => Ok (store st a n)
  | Some ca =>
      match st_heap st !! ca with
      | None => Panic
      | Some child =>
          if negb (isLeaf child) then
            let prefix := partialLen hd in
            '(npartial, prefix) ←
              (if prefix <? maxPrefixLen then
                 p ← zset (partial hd) prefix (keys !!! 0%nat);
                 Ok (p, prefix + 1)
               else Ok (partial hd, prefix));
            '(npartial, prefix) ←
              (if prefix <? maxPrefixLen then
                 let subPrefix :=
                   go_min (getPartialLen child) (maxPrefixLen - prefix) in
                 src ← slice (getPartial child) 0 subPrefix;
                 p ← copy_into npartial prefix src;
                 Ok (p, prefix + subPrefix)
               else Ok (npartial, prefix));
            src ← slice npartial 0 (go_min prefix maxPrefixLen);
            let n := Node4 (mkHeader (partialLen hd) (numChildren hd) npartial)
                       keys children in
            let child' :=
              setPartial child (go_copy (getPartial child) src) in
            let child' :=
              setPartialLen child'
                ((getPartialLen child + partialLen hd + 1)
                   mod partialLenMod) in
            Ok (mkState (<[ca := child']> (<[a := n]> (st_heap st)))
                  (Some ca))
          else Ok (mkState (<[a := n]> (st_heap st)) (Some ca))
      end
  end.

(** [removeChild4(n, ref, l)] with [n] the object at [a] and [l] the value
    [*l]. *)
Definition removeChild4 (st : state) (a : nat) (l : ptr) : res state :=
  match st_heap st !! a with
  | Some (Node4 hd keys children) =>
      let pos := find_pos children l in
      keys ← shift_left keys pos;
      children ← shift_left children pos;
      let hd := mkHeader (partialLen hd) (decr (numChildren hd)) (partial hd) in
      if numChildren hd =? 1 then collapse st a hd keys children
      else Ok (store st a (Node4 hd keys children))
  | _ => Panic
  end.

Definition removeChild16 (st : state) (a : nat) (l : ptr) : res state :=
  match st_heap st !! a with
  | Some (Node16 hd keys children) =>
      let pos := find_pos children l in
      keys ← shift_left keys pos;
      children ← shift_left children pos;
      let nc := decr (numChildren hd) in
      let n := Node16 (mkHeader (partialLen hd) nc (partial hd)) keys children in
      if nc =? 3 then
        let newNode := allocNode node4 in
        newNode ← copyHeader newNode n;
        src ← slice keys 0 4;
        let newNode := setKeys newNode (go_copy (getKeys newNode) src) in
        src ← slice children 0 4;
        let newNode := setChildren newNode (go_copy (getChildren newNode) src) in
        Ok (install (store st a n) newNode).1
      else Ok (store st a n)
  | _ => Panic
  end.

Definition removeChild48 (st : state) (a : nat) (c : Z) : res state :=
  match st_heap st !! a with
  | Some (Node48 hd keys children) =>
      pos ← zget keys c;
      keys ← zset keys c 0;
      children ← zset children (to_byte (pos - 1)) None;
      let nc := decr (numChildren hd) in
      let n := Node48 (mkHeader (partialLen hd) nc (partial hd)) keys children in
      if nc =? 12 then
        let newNode := allocNode node16 in
        newNode ← copyHeader newNode n;
        '(_, ks, cs) ← for_range (fun i '(child, ks, cs) =>
                 let pos := keys !!! i in
                 if negb (pos =? 0) then
                   ks ← zset ks child (to_byte (Z.of_nat i));
                   p ← zget children (to_byte (pos - 1));
                   cs ← zset cs child p;
                   Ok (child + 1, ks, cs)
                 else Ok (child, ks, cs))
               0 256 (0, getKeys newNode, getChildren newNode);
        let newNode := setChildren (setKeys newNode ks) cs in
        Ok (install (store st a n) newNode).1
      else Ok (store st a n)
  | _ => Panic
  end.

Definition removeChild256 (st : state) (a : nat) (c : Z) : res state :=
  match st_heap st !! a with
  | Some (Node256 hd children) =>
      children ← zset children c None;
      let nc := decr (numChildren hd) in
      let n := Node256 (mkHeader (partialLen hd) nc (partial hd)) children in
      if nc =? 37 then
        let newNode := allocNode node48 in
        newNode ← copyHeader newNode n;
        '(_, ks, cs) ← for_range (fun i '(pos, ks, cs) =>
                 if negb (is_nil (children !!! i)) then
                   cs ← zset cs pos (children !!! i);
                   ks ← zset ks (Z.of_nat i) (to_byte (pos + 1));
                   Ok (pos + 1, ks, cs)
                 else Ok (pos, ks, cs))
               0 256 (0, getKeys newNode, getChildren newNode);
        let newNode := setChildren (setKeys newNode ks) cs in
        Ok (install (store st a n) newNode).1
      else Ok (store st a n)
  | _ => Panic
  end.

(** [removeChild(n, ref, c, l)] *)
Definition removeChild (st : state) (a : nat) (c : Z) (l : ptr) : res state :=
  match st_heap st !! a with
  | Some n =>
      match getArtNodeType n with
      | node4 => removeChild4 st a l
      | node16 => removeChild16 st a l
      | node48 => removeChild48 st a c
      | node256 => removeChild256 st a c
      | leafType => Panic
      end
  | None => Panic
  end.

(** ** Representation invariants *)

Definition is_byte (z : Z) : bool := (0 <=? z) && (z <? 256).

(** Strictly ascending. *)
Fixpoint ascending (l : list Z) : bool :=
  match l with
  | x :: (y :: _) as t => (x <? y) && ascending t
  | _ => true
  end.

Fixpoint countb {A} (p : A -> bool) (l : list A) : nat :=
  match l with
  | [] => 0%nat
  | x :: t => ((if p x then 1 else 0) + countb p t)%nat
  end.

Definition nonzero (k : Z) : bool := negb (k =? 0).
Definition occupied (p : ptr) : bool := negb (is_nil p).

(** The pointers of a list that are not nil. *)
Definition live (l : list ptr) : list nat := omap id l.

(** The header of a node built by [allocNode] and maintained by the
    operations: a prefix buffer of capacity [maxPrefixLen]. *)
Definition header_ok (hd : Header) : bool :=
  Nat.eqb (length (partial hd)) (Z.to_nat maxPrefixLen) && (0 <=? partialLen hd).

(** [Node4] and [Node16], of capacity [cap]: the first [numChildren]
    entries hold strictly ascending key bytes and distinct non-nil
    children that are objects of the store of size [sz]. *)
Definition sorted_ok (cap : nat) (sz : nat) (hd : Header) (keys : list Z)
    (children : list ptr) : bool :=
  let nc := Z.to_nat (numChildren hd) in
  Nat.eqb (length keys) cap && Nat.eqb (length children) cap
  && (0 <=? numChildren hd) && (numChildren hd <=? Z.of_nat cap)
  && forallb is_byte keys
  && ascending (take nc keys)
  && forallb occupied (take nc children)
  && bool_decide (NoDup (take nc children))
  && forallb (fun a => (a <? sz)%nat) (live (take nc children)).

(** [Node48]: index entries are [0] or a slot number plus one, the slot an
    entry names is occupied, no two bytes share a slot, and [numChildren]
    counts the index entries in use and the occupied slots. *)
Definition index_ok (sz : nat) (hd : Header) (keys : list Z)
    (children : list ptr) : bool :=
  Nat.eqb (length keys) 256 && Nat.eqb (length children) 48
  && forallb (fun k => (0 <=? k) && (k <=? 48)) keys
  && forallb (fun k => (k =? 0) || occupied (children !!! Z.to_nat (k - 1)))
       keys
  && (numChildren hd =? Z.of_nat (countb nonzero keys))
  && (numChildren hd =? Z.of_nat (countb occupied children))
  && bool_decide (NoDup (List.filter nonzero keys))
  && bool_decide (NoDup (live children))
  && forallb (fun a => (a <? sz)%nat) (live children).

(** [Node256]: [numChildren] is the number of occupied slots, in the
    counter's type. *)
Definition direct_ok (sz : nat) (hd : Header) (children : list ptr) : bool :=
  Nat.eqb (length children) 256
  && (numChildren hd =? Z.of_nat (countb occupied children) mod numChildrenMod)
  && bool_decide (NoDup (live children))
  && forallb (fun a => (a <? sz)%nat) (live children).

Definition node_ok (sz : nat) (n : Node) : bool :=
  match n with
  | NodeLeaf _ _ _ _ => true
  | Node4 hd keys children => header_ok hd && sorted_ok 4 sz hd keys children
  | Node16 hd keys children => header_ok hd && sorted_ok 16 sz hd keys children
  | Node48 hd keys children => header_ok hd && index_ok sz hd keys children
  | Node256 hd children => header_ok hd && direct_ok sz hd children
  end.

Definition heap_ok (h : heap) : bool := forallb (node_ok (length h)) h.

(** The assumptions on the parameters: the prefix buffer has a capacity,
    [partialLen] has an unsigned integer type that holds it, and the type
    of [numChildren] has at least the 256 values of a byte. *)
Definition params_ok : bool :=
  (0 <=? maxPrefixLen) && (maxPrefixLen <? partialLenMod)
  && (256 <=? numChildrenMod).

(** ** The association a node stores *)

(** The entry of the parallel lists [lk] / [lc] under the first key equal
    to [b]; nil when no key is. *)
Definition find_entry (lk : list Z) (lc : list ptr) (b : Z) : ptr :=
  let r := scan_up (fun i => lk !!! i =? b) 0 (length lk) in
  if (r <? length lk)%nat then lc !!! r else None.

(** The position at which the insertion loops put the key [c] among the
    keys [lk] in use: that of the first key above [c]. *)
Definition insert_pos (lk : list Z) (c : Z) : nat :=
  scan_up (fun j => c <? lk !!! j) 0 (length lk).

(** The child stored under the key byte [b], read off the representation:
    the entry of the first of the [numChildren] keys equal to [b]; the slot
    the index names; the direct slot. *)
Definition assoc (n : Node) (b : Z) : ptr :=
  match n with
  | NodeLeaf _ _ _ _ => None
  | Node4 hd keys children | Node16 hd keys children =>
      let nc := Z.to_nat (numChildren hd) in
      find_entry (take nc keys) (take nc children) b
  | Node48 hd keys children =>
      let k := keys !!! Z.to_nat b in
      if k =? 0 then None else children !!! Z.to_nat (k - 1)
  | Node256 hd children => children !!! Z.to_nat b
  end.

(** The entries of a node in use: the first [numChildren] children of a
    [Node4] or [Node16], the slots of a [Node48] or [Node256]. *)
Definition entries (n : Node) : list ptr :=
  match n with
  | NodeLeaf _ _ _ _ => []
  | Node4 hd _ children | Node16 hd _ children =>
      take (Z.to_nat (numChildren hd)) children
  | Node48 _ _ children | Node256 _ children => children
  end.

(** The explicit prefix bytes of a node: the first
    [min(maxPrefixLen, partialLen)] bytes of its buffer. *)
Definition explicit (n : Node) : list Z :=
  take (Z.to_nat (Z.min maxPrefixLen (getPartialLen n))) (getPartial n).

(** Capacity exhausted: a [Node4] with 4 children, a [Node16] with 16, a
    [Node48] with 48. *)
Definition exhausted (n : Node) : bool :=
  match n with
  | Node4 hd _ _ => numChildren hd =? 4
  | Node16 hd _ _ => numChildren hd =? 16
  | Node48 hd _ _ => numChildren hd =? 48
  | _ => false
  end.

Definition grow (t : nodeType) : nodeType :=
  match t with
  | node4 => node16
  | node16 => node48
  | _ => node256
  end.

(** Underflow: a [Node16] with 3 children, a [Node48] with 12, a [Node256]
    with 37. *)
Definition underflown (n : Node) : bool :=
  match n with
  | Node16 hd _ _ => numChildren hd =? 3
  | Node48 hd _ _ => numChildren hd =? 12
  | Node256 hd _ => numChildren hd =? 37
  | _ => false
  end.

Definition shrink (t : nodeType) : nodeType :=
  match t with
  | node256 => node48
  | node48 => node16
  | _ => node4
  end.

(** [n'] carries the header of [n] with one child more, and the
    associations of [n] plus that of the byte [c] to [child]. *)
Definition added (n n' : Node) (c : Z) (child : nat) : Prop :=
  getPartialLen n' = getPartialLen n
  /\ explicit n' = explicit n
  /\ getNumChildren n' = incr (getNumChildren n)
  /\ forall b, is_byte b = true ->
       assoc n' b = if b =? c then Some child else assoc n b.

(** [n'] carries the header of [n] with one child less, and the
    associations of [n] minus that of the byte [c]. *)
Definition removed (n n' : Node) (c : Z) : Prop :=
  getPartialLen n' = getPartialLen n
  /\ explicit n' = explicit n
  /\ getNumChildren n' = decr (getNumChildren n)
  /\ forall b, is_byte b = true ->
       assoc n' b = if b =? c then None else assoc n b.

(** ** Sequences of operations *)

(** The tree engine adds a child under a key byte that [findChild] does
    not find, and removes the child that [findChild] finds. *)
Inductive op : Type :=
| OpAdd (a : nat) (c : Z) (child : nat)
| OpRemove (a : nat) (c : Z).

Definition exec (st : state) (o : op) : res state :=
  match o with
  | OpAdd a c child => addChild st a c child
  | OpRemove a c =>
      match st_heap st !! a with
      | Some n => l ← childOf n c; removeChild st a c l
      | None => Panic
      end
  end.

(** The calls the engine makes: the key byte is absent and the new child is
    an object of the store that is not yet a child of the node; or the key
    byte is present, in a node that is not a child of itself. *)
Definition op_ok (st : state) (o : op) : bool :=
  match o with
  | OpAdd a c child =>
      match st_heap st !! a with
      | Some n =>
          negb (isLeaf n) && is_byte c
          && match childOf n c with Ok None => true | _ => false end
          && (child <? length (st_heap st))%nat
          && negb (bool_decide (child ∈ live (entries n)))
      | None => false
      end
  | OpRemove a c =>
      match st_heap st !! a with
      | Some n =>
          negb (isLeaf n) && is_byte c
          && match childOf n c with Ok (Some _) => true | _ => false end
          && negb (bool_decide (a ∈ live (entries n)))
      | None => false
      end
  end.

Fixpoint run (st : state) (ops : list op) : res state :=
  match ops with
  | [] => Ok st
  | o :: ops => st ← exec st o; run st ops
  end.

Fixpoint ops_ok (st : state) (ops : list op) : bool :=
  match ops with
  | [] => true
  | o :: ops =>
      op_ok st o
      && match exec st o with
         | Ok st => ops_ok st ops
         | _ => false
         end
  end.

(** [numChildren] against the storage, as the data model words it: the
    non-nil entries of the children array, the non-zero index entries, the
    non-nil direct slots. *)
Definition count_slots (n : Node) : bool :=
  match n with
  | NodeLeaf _ _ _ _ => true
  | Node4 hd _ children | Node16 hd _ children =>
      numChildren hd =? Z.of_nat (countb occupied children)
  | Node48 hd keys _ => numChildren hd =? Z.of_nat (countb nonzero keys)
  | Node256 hd children => numChildren hd =? Z.of_nat (countb occupied children)
  end.

(** [numChildren] against the storage, as the operations keep it: the first
    [numChildren] entries of a [Node4] or [Node16] are the occupied region,
    and the counter of a [Node256] is taken in its integer type. *)
Definition count_region (n : Node) : bool :=
  match n with
  | NodeLeaf _ _ _ _ => true
  | Node4 hd _ children | Node16 hd _ children =>
      (0 <=? numChildren hd) && (numChildren hd <=? Z.of_nat (length children))
      && forallb occupied (take (Z.to_nat (numChildren hd)) children)
  | Node48 hd keys _ => numChildren hd =? Z.of_nat (countb nonzero keys)
  | Node256 hd children =>
      numChildren hd =? Z.of_nat (countb occupied children) mod numChildrenMod
  end.

(** The first [numChildren] keys of a [Node4] or [Node16] ascend strictly. *)
Definition keys_sorted (n : Node) : bool :=
  match n with
  | Node4 hd keys _ | Node16 hd keys _ =>
      ascending (take (Z.to_nat (numChildren hd)) keys)
  | _ => true
  end.

(** ** The logical prefix *)

(** The number of leading positions at which two byte strings agree, that
    is the index of the first byte at which they disagree. *)
Fixpoint first_mismatch (a b : list Z) : nat :=
  match a, b with
  | x :: a', y :: b' => if x =? y then S (first_mismatch a' b') else O
  | _, _ => O
  end.

(** * Properties *)

(** ** Results *)

Lemma bind_Ok {A B} (f : A -> res B) (a : A) : (Ok a ≫= f) = f a.
Proof. reflexivity. Qed.

Lemma bind_Ok_inv {A B} (f : A -> res B) (m : res A) (b : B) :
  (m ≫= f) = Ok b -> exists a, m = Ok a /\ f a = Ok b.
Proof. destruct m as [a| |]; [by exists a | done | done]. Qed.

(** ** Slices *)

Lemma go_min_spec (a b : Z) : go_min a b = Z.min a b.
Proof. unfold go_min. destruct (Z.ltb_spec a b); lia. Qed.

Lemma go_copy_length {A} (dst src : list A) :
  length (go_copy dst src) = length dst.
Proof.
  unfold go_copy. rewrite length_app, length_take, length_drop. lia.
Qed.

Lemma go_copy_short {A} (dst src : list A) :
  (length src <= length dst)%nat ->
  go_copy dst src = src ++ drop (length src) dst.
Proof.
  intros H. unfold go_copy. by rewrite take_ge.
Qed.

Lemma go_copy_long {A} (dst src : list A) :
  (length dst <= length src)%nat ->
  go_copy dst src = take (length dst) src.
Proof.
  intros H. unfold go_copy. rewrite drop_ge by done. by rewrite app_nil_r.
Qed.

Lemma zget_Some {A} (s : list A) (i : nat) (x : A) :
  s !! i = Some x -> zget s (Z.of_nat i) = Ok x.
Proof.
  intros H. unfold zget. destruct (Z.ltb_spec (Z.of_nat i) 0); [lia|].
  by rewrite Nat2Z.id, H.
Qed.

Lemma zget_Z {A} (s : list A) (i : Z) (x : A) :
  0 <= i -> s !! Z.to_nat i = Some x -> zget s i = Ok x.
Proof.
  intros Hi H. rewrite <- (Z2Nat.id i) by done. by apply zget_Some.
Qed.

Lemma zget_Ok_inv {A} (s : list A) (i : Z) (x : A) :
  zget s i = Ok x -> 0 <= i /\ s !! Z.to_nat i = Some x.
Proof.
  unfold zget. destruct (Z.ltb_spec i 0); [done|].
  destruct (s !! Z.to_nat i) eqn:E; [|done]. intros [= ->]. by split.
Qed.

Lemma zget_out {A} (s : list A) (i : Z) :
  Z.of_nat (length s) <= i -> zget s i = Panic.
Proof.
  intros H. unfold zget. destruct (Z.ltb_spec i 0); [done|].
  rewrite lookup_ge_None_2; [done | lia].
Qed.

Lemma zset_Ok {A} (s : list A) (i : nat) (x : A) :
  (i < length s)%nat -> zset s (Z.of_nat i) x = Ok (<[i := x]> s).
Proof.
  intros H. unfold zset.
  destruct (Z.leb_spec 0 (Z.of_nat i)); [|lia].
  destruct (Z.ltb_spec (Z.of_nat i) (Z.of_nat (length s))); [|lia].
  by rewrite Nat2Z.id.
Qed.

Lemma zset_Z {A} (s : list A) (i : Z) (x : A) :
  0 <= i < Z.of_nat (length s) -> zset s i x = Ok (<[Z.to_nat i := x]> s).
Proof.
  intros H. rewrite <- (Z2Nat.id i) at 1 by lia. apply zset_Ok. lia.
Qed.

Lemma slice_Ok {A} (s : list A) (lo hi : nat) :
  (lo <= hi <= length s)%nat ->
  slice s (Z.of_nat lo) (Z.of_nat hi) = Ok (drop lo (take hi s)).
Proof.
  intros H. unfold slice.
  destruct (Z.leb_spec 0 (Z.of_nat lo)); [|lia].
  destruct (Z.leb_spec (Z.of_nat lo) (Z.of_nat hi)); [|lia].
  destruct (Z.leb_spec (Z.of_nat hi) (Z.of_nat (length s))); [|lia].
  by rewrite !Nat2Z.id.
Qed.

Lemma slice_Z {A} (s : list A) (lo hi : Z) :
  0 <= lo <= hi -> hi <= Z.of_nat (length s) ->
  slice s lo hi = Ok (drop (Z.to_nat lo) (take (Z.to_nat hi) s)).
Proof.
  intros H1 H2. rewrite <- (Z2Nat.id lo) at 1 by lia.
  rewrite <- (Z2Nat.id hi) at 1 by lia. apply slice_Ok. lia.
Qed.

Lemma slice_from_Ok {A} (s : list A) (lo : nat) :
  (lo <= length s)%nat -> slice_from s (Z.of_nat lo) = Ok (drop lo s).
Proof.
  intros H. unfold slice_from. rewrite slice_Ok by lia. by rewrite take_ge.
Qed.

Lemma slice_from_neg {A} (s : list A) (lo : Z) :
  lo < 0 -> slice_from s lo = Panic.
Proof.
  intros H. unfold slice_from, slice. by destruct (Z.leb_spec 0 lo); [lia|].
Qed.

(** Making room at [i] in an array whose first [n] entries are in use
    moves the [n - i] entries from [i] on one place up. *)
Lemma shift_right_Ok {A} (s : list A) (i n : nat) :
  (i <= n)%nat -> (n < length s)%nat ->
  shift_right s (Z.of_nat i) (Z.of_nat n - Z.of_nat i)
  = Ok (take (S i) s ++ take (n - i) (drop i s) ++ drop (S n) s).
Proof.
  intros Hi Hn. unfold shift_right.
  replace (Z.of_nat i + 1) with (Z.of_nat (S i)) by lia.
  rewrite slice_from_Ok by lia. rewrite bind_Ok.
  replace (Z.of_nat i + (Z.of_nat n - Z.of_nat i)) with (Z.of_nat n) by lia.
  rewrite slice_Ok by lia. rewrite bind_Ok.
  rewrite Nat2Z.id.
  rewrite go_copy_short
    by (rewrite length_drop, length_drop, length_take; lia).
  rewrite length_drop, length_take, drop_drop.
  replace (S i + (n `min` length s - i))%nat with (S n) by lia.
  do 3 f_equal. by rewrite take_drop_commute, Nat.add_comm, Nat.sub_add.
Qed.

(** Writing [x] into the room made puts it between the first [i] and the
    other [n - i] entries in use. *)
Lemma shift_right_set {A} (s : list A) (i n : nat) (x : A) :
  (i <= n)%nat -> (n < length s)%nat ->
  zset (take (S i) s ++ take (n - i) (drop i s) ++ drop (S n) s) (Z.of_nat i) x
  = Ok (take i s ++ x :: take (n - i) (drop i s) ++ drop (S n) s).
Proof.
  intros Hi Hn.
  rewrite zset_Ok
    by (rewrite !length_app, !length_take, !length_drop; lia).
  f_equal.
  destruct (lookup_lt_is_Some_2 s i) as [y Hy]; [lia|].
  rewrite (take_S_r s i y Hy).
  rewrite <- app_assoc. rewrite insert_app_r_alt by (rewrite length_take; lia).
  rewrite length_take. by replace (i - i `min` length s)%nat with 0%nat by lia.
Qed.

Lemma shift_right_set_length {A} (s : list A) (i n : nat) (x : A) :
  (i <= n)%nat -> (n < length s)%nat ->
  length (take i s ++ x :: take (n - i) (drop i s) ++ drop (S n) s) = length s.
Proof.
  intros. rewrite length_app; simpl.
  rewrite length_app, !length_take, !length_drop. lia.
Qed.

Lemma shift_right_set_take {A} (s : list A) (i n : nat) (x : A) :
  (i <= n)%nat -> (n < length s)%nat ->
  take (S n) (take i s ++ x :: take (n - i) (drop i s) ++ drop (S n) s)
  = take i (take n s) ++ x :: drop i (take n s).
Proof.
  intros Hi Hn.
  rewrite take_app_ge by (rewrite length_take; lia).
  rewrite length_take.
  replace (S n - i `min` length s)%nat with (S (n - i)) by lia.
  rewrite firstn_cons.
  rewrite take_app_le by (rewrite length_take, length_drop; lia).
  rewrite take_take, Nat.min_id.
  rewrite take_take. replace (i `min` n)%nat with i by lia.
  by rewrite take_drop_commute, Nat.add_comm, Nat.sub_add.
Qed.

(** Closing the gap at [pos] moves the later entries one place down; the
    last entry of the array stays where it is. *)
Lemma shift_left_Ok {A} (s : list A) (pos : nat) :
  (pos < length s)%nat ->
  shift_left s (Z.of_nat pos)
  = Ok (take pos s ++ drop (S pos) s ++ drop (length s - 1) s).
Proof.
  intros H. unfold shift_left.
  rewrite slice_from_Ok by lia. rewrite bind_Ok.
  replace (Z.of_nat pos + 1) with (Z.of_nat (S pos)) by lia.
  rewrite slice_from_Ok by lia. rewrite bind_Ok, Nat2Z.id.
  rewrite go_copy_short by (rewrite !length_drop; lia).
  rewrite length_drop, drop_drop.
  by replace (pos + (length s - S pos))%nat with (length s - 1)%nat by lia.
Qed.

Lemma shift_left_length {A} (s : list A) (pos : nat) :
  (pos < length s)%nat ->
  length (take pos s ++ drop (S pos) s ++ drop (length s - 1) s) = length s.
Proof.
  intros. rewrite !length_app, length_take, !length_drop. lia.
Qed.

Lemma shift_left_take {A} (s : list A) (pos n : nat) :
  (pos < n)%nat -> (n <= length s)%nat ->
  take (n - 1) (take pos s ++ drop (S pos) s ++ drop (length s - 1) s)
  = delete pos (take n s).
Proof.
  intros Hp Hn. rewrite delete_take_drop.
  rewrite take_app_ge by (rewrite length_take; lia).
  rewrite length_take. replace (pos `min` length s)%nat with pos by lia.
  rewrite take_take. replace (pos `min` n)%nat with pos by lia. f_equal.
  rewrite take_app_le by (rewrite length_drop; lia).
  rewrite take_drop_commute.
  by replace (S pos + (n - 1 - pos))%nat with n by lia.
Qed.

(** ** Scans *)

Lemma scan_up_spec (stop : nat -> bool) (idx n : nat) :
  let r := scan_up stop idx n in
  (idx <= r <= idx + n)%nat
  /\ (forall j, (idx <= j < r)%nat -> stop j = false)
  /\ ((r < idx + n)%nat -> stop r = true).
Proof.
  revert idx. induction n as [|n IH]; intros idx; simpl.
  - repeat split; intros; lia.
  - destruct (stop idx) eqn:E.
    + repeat split; intros; (lia || done).
    + destruct (IH (S idx)) as (H1 & H2 & H3). repeat split; try lia.
      * intros j Hj. destruct (decide (j = idx)) as [->|]; [done|].
        apply H2. lia.
      * intros. apply H3. lia.
Qed.

Lemma scan_up_unique (stop : nat -> bool) (n r : nat) :
  (r <= n)%nat ->
  (forall j, (j < r)%nat -> stop j = false) ->
  ((r < n)%nat -> stop r = true) ->
  scan_up stop 0 n = r.
Proof.
  intros Hr Hlt Hat.
  destruct (scan_up_spec stop 0 n) as (H1 & H2 & H3).
  set (q := scan_up stop 0 n) in *.
  destruct (Nat.lt_trichotomy q r) as [Hq|[Hq|Hq]]; [|done|].
  - rewrite Hlt in H3 by done. discriminate H3. lia.
  - rewrite H2 in Hat by lia. discriminate Hat. lia.
Qed.

Lemma scan_up_ext (f g : nat -> bool) (idx n : nat) :
  (forall j, (idx <= j < idx + n)%nat -> f j = g j) ->
  scan_up f idx n = scan_up g idx n.
Proof.
  revert idx. induction n as [|n IH]; intros idx H; simpl; [done|].
  rewrite <- (H idx) by lia. destruct (f idx); [done|].
  apply IH. intros. apply H. lia.
Qed.

(** ** Bit fields *)

Lemma testbit_shiftl_1 (a i : nat) :
  Z.testbit (Z.shiftl 1 (Z.of_nat a)) (Z.of_nat i) = bool_decide (i = a).
Proof.
  rewrite Z.shiftl_1_l, Z.pow2_bits_eqb by lia.
  destruct (Z.eqb_spec (Z.of_nat a) (Z.of_nat i)); case_bool_decide; (done || lia).
Qed.

Lemma bitfield_fold_testbit (test : nat -> bool) (l : list nat) (acc : Z) (i : nat) :
  Z.testbit
    (fold_left (fun bitfield j =>
                  if test j then Z.lor bitfield (Z.shiftl 1 (Z.of_nat j))
                  else bitfield) l acc) (Z.of_nat i)
  = Z.testbit acc (Z.of_nat i) || (bool_decide (i ∈ l) && test i).
Proof.
  revert acc. induction l as [|j l IH]; intros acc; cbn [fold_left].
  - rewrite bool_decide_eq_false_2 by apply not_elem_of_nil.
    by rewrite orb_false_r.
  - rewrite IH.
    assert (Hc : bool_decide (i ∈ j :: l)
                 = bool_decide (i = j) || bool_decide (i ∈ l)).
    { rewrite <- bool_decide_or. apply bool_decide_ext, elem_of_cons. }
    rewrite Hc. destruct (test j) eqn:Ej.
    + rewrite Z.lor_spec, testbit_shiftl_1.
      destruct (decide (i = j)) as [->|Hij].
      * rewrite bool_decide_eq_true_2 by done. rewrite Ej.
        by rewrite !orb_true_r.
      * rewrite bool_decide_eq_false_2 by done. by rewrite orb_false_r.
    + destruct (decide (i = j)) as [->|Hij].
      * rewrite Ej. by rewrite !andb_false_r.
      * by rewrite (bool_decide_eq_false_2 (i = j)) by done.
Qed.

Lemma bitfield16_testbit (test : nat -> bool) (i : nat) :
  Z.testbit (bitfield16 test) (Z.of_nat i) = (i <? 16)%nat && test i.
Proof.
  unfold bitfield16. rewrite bitfield_fold_testbit. rewrite Z.bits_0, orb_false_l.
  f_equal. destruct (Nat.ltb_spec i 16).
  - apply bool_decide_eq_true_2. apply elem_of_seq. lia.
  - apply bool_decide_eq_false_2. rewrite elem_of_seq. lia.
Qed.

Lemma masked_testbit (test : nat -> bool) (nc : Z) (i : nat) :
  0 <= nc <= 16 ->
  Z.testbit (Z.land (bitfield16 test) (Z.ones nc)) (Z.of_nat i)
  = test i && (i <? Z.to_nat nc)%nat.
Proof.
  intros Hnc. rewrite Z.land_spec, bitfield16_testbit.
  rewrite Z.testbit_ones by lia.
  destruct (Z.leb_spec 0 (Z.of_nat i)); [|lia].
  destruct (Z.ltb_spec (Z.of_nat i) nc), (Nat.ltb_spec i (Z.to_nat nc));
    try lia; rewrite ?andb_true_r, ?andb_false_r; try done.
  destruct (Nat.ltb_spec i 16); [done|lia].
Qed.

(** The lowest set bit of the masked comparison bit field is the first of
    the [nc] positions that passes the test. *)
Lemma masked_trailingZeros (test : nat -> bool) (nc : Z) (w : nat) :
  0 <= nc <= 16 -> (16 <= w)%nat ->
  let bitfield := Z.land (bitfield16 test) (Z.ones nc) in
  let r := scan_up test 0 (Z.to_nat nc) in
  if (r <? Z.to_nat nc)%nat
  then bitfield <> 0 /\ trailingZeros w bitfield = r
  else bitfield = 0.
Proof.
  intros Hnc Hw bitfield r.
  destruct (scan_up_spec test 0 (Z.to_nat nc)) as (H1 & H2 & H3).
  fold r in H1, H2, H3.
  destruct (Nat.ltb_spec r (Z.to_nat nc)) as [Hr|Hr].
  - assert (Hbit : Z.testbit bitfield (Z.of_nat r) = true).
    { unfold bitfield. rewrite masked_testbit by done.
      rewrite H3 by lia. simpl. apply Nat.ltb_lt. lia. }
    split.
    + intros E. rewrite E, Z.bits_0 in Hbit. done.
    + unfold trailingZeros. apply scan_up_unique; [lia| |done].
      intros j Hj. unfold bitfield. rewrite masked_testbit by done.
      rewrite H2 by lia. done.
  - apply Z.bits_inj_0. intros k. destruct (Z.neg_nonneg_cases k) as [Hk|Hk].
    { by apply Z.testbit_neg_r. }
    rewrite <- (Z2Nat.id k) by done. unfold bitfield.
    rewrite masked_testbit by done.
    destruct (Nat.ltb_spec (Z.to_nat k) (Z.to_nat nc)).
    + rewrite H2 by lia. done.
    + by rewrite andb_false_r.
Qed.

Lemma mask32_ones (nc : Z) :
  0 <= nc < 32 -> (Z.shiftl 1 nc mod 2 ^ 32 - 1) mod 2 ^ 32 = Z.ones nc.
Proof.
  intros H. rewrite Z.ones_equiv, Z.shiftl_1_l.
  assert (0 < 2 ^ nc) by (apply Z.pow_pos_nonneg; lia).
  assert (2 ^ nc < 2 ^ 32) by (apply Z.pow_lt_mono_r; lia).
  rewrite (Z.mod_small (2 ^ nc)) by lia. rewrite Z.mod_small; lia.
Qed.

Lemma mask16_ones (nc : Z) :
  0 <= nc <= 16 -> (Z.shiftl 1 nc - 1) mod 2 ^ 16 = Z.ones nc.
Proof.
  intros H. rewrite Z.ones_equiv, Z.shiftl_1_l.
  assert (0 < 2 ^ nc) by (apply Z.pow_pos_nonneg; lia).
  assert (2 ^ nc <= 2 ^ 16) by (apply Z.pow_le_mono_r; lia).
  rewrite Z.mod_small; lia.
Qed.

(** ** Sorted parallel lists *)

Lemma ascending_Sorted (l : list Z) : ascending l = true <-> Sorted Z.lt l.
Proof.
  induction l as [|x l IH]; [by split; [constructor|]|].
  destruct l as [|y l].
  - split; [by repeat constructor | done].
  - change (ascending (x :: y :: l)) with ((x <? y) && ascending (y :: l)).
    rewrite andb_true_iff, IH, Z.ltb_lt. split.
    + intros [Hxy Hs]. constructor; [done|]. by constructor.
    + intros Hs. apply Sorted_inv in Hs as [Hs Hhd].
      apply HdRel_inv in Hhd. done.
Qed.

Lemma ascending_spec (l : list Z) :
  ascending l = true <-> StronglySorted Z.lt l.
Proof.
  rewrite ascending_Sorted. split.
  - apply Sorted_StronglySorted. intros x y z. apply Z.lt_trans.
  - apply StronglySorted_Sorted.
Qed.

Lemma StronglySorted_lt_NoDup (l : list Z) : StronglySorted Z.lt l -> NoDup l.
Proof.
  induction 1 as [|x l Hs IH Hall]; constructor; [|done].
  intros Hin. rewrite Forall_forall in Hall. specialize (Hall x Hin). lia.
Qed.

Lemma StronglySorted_delete (l : list Z) (i : nat) :
  StronglySorted Z.lt l -> StronglySorted Z.lt (delete i l).
Proof.
  intros Hs. revert i.
  induction Hs as [|x l Hs IH Hall]; intros [|i]; simpl;
    [constructor | constructor | done |].
  constructor; [apply IH | by apply Forall_delete].
Qed.

Lemma insert_pos_le (lk : list Z) (c : Z) : (insert_pos lk c <= length lk)%nat.
Proof.
  destruct (scan_up_spec (fun j => c <? lk !!! j) 0 (length lk)) as (H & _).
  unfold insert_pos. lia.
Qed.

Lemma insert_sorted (lk : list Z) (c : Z) :
  StronglySorted Z.lt lk -> c ∉ lk ->
  let i := insert_pos lk c in
  StronglySorted Z.lt (take i lk ++ c :: drop i lk).
Proof.
  intros Hs Hc i.
  destruct (scan_up_spec (fun j => c <? lk !!! j) 0 (length lk))
    as (H1 & H2 & H3). fold (insert_pos lk c) in H1, H2, H3. fold i in H1, H2, H3.
  pose proof Hs as Hs'. rewrite <- (take_drop i lk) in Hs'.
  apply StronglySorted_app in Hs' as (Hx & Hl & Hr).
  assert (Hlow : forall x, x ∈ take i lk -> x < c).
  { intros x Hin. apply elem_of_take in Hin as (j & Hj & Hji).
    specialize (H2 j ltac:(lia)). simpl in H2.
    rewrite (list_lookup_total_correct _ _ _ Hj) in H2.
    apply Z.ltb_ge in H2.
    assert (x <> c).
    { intros ->. apply Hc. by eapply list_elem_of_lookup_2. }
    lia. }
  assert (Hhigh : forall y, y ∈ drop i lk -> c < y).
  { intros y Hin. destruct (drop i lk) as [|z t] eqn:E; [by inv Hin|].
    assert (Hz : lk !! i = Some z).
    { by rewrite <- (Nat.add_0_r i), <- lookup_drop, E. }
    assert (Hi : (i < length lk)%nat) by (by eapply lookup_lt_Some).
    specialize (H3 ltac:(lia)). simpl in H3.
    rewrite (list_lookup_total_correct _ _ _ Hz) in H3.
    apply Z.ltb_lt in H3.
    apply StronglySorted_inv in Hr as [_ Hall].
    rewrite Forall_forall in Hall.
    apply elem_of_cons in Hin as [->|Hin]; [done|].
    specialize (Hall y Hin). lia. }
  apply StronglySorted_app_2; [|done|].
  - intros x y Hin Hy. apply elem_of_cons in Hy as [->|Hy]; [by apply Hlow|].
    specialize (Hlow x Hin). specialize (Hhigh y Hy). lia.
  - apply StronglySorted_cons. split; [|done].
    apply Forall_forall. intros y Hy. by apply Hhigh.
Qed.

(** Positions before and after an insertion and a removal. *)
Lemma lookup_insert_at {A} (l : list A) (i j : nat) (x : A) :
  (i <= length l)%nat ->
  (take i l ++ x :: drop i l) !! (if (j <? i)%nat then j else S j) = l !! j.
Proof.
  intros Hi. destruct (Nat.ltb_spec j i).
  - rewrite lookup_app_l by (rewrite length_take; lia).
    by rewrite lookup_take_lt.
  - rewrite lookup_app_r by (rewrite length_take; lia).
    rewrite length_take. replace (S j - i `min` length l)%nat with (S (j - i)) by lia.
    simpl. rewrite lookup_drop. f_equal. lia.
Qed.

Lemma lookup_insert_at_eq {A} (l : list A) (i : nat) (x : A) :
  (i <= length l)%nat -> (take i l ++ x :: drop i l) !! i = Some x.
Proof.
  intros Hi. rewrite lookup_app_r by (rewrite length_take; lia).
  rewrite length_take. by replace (i - i `min` length l)%nat with 0%nat by lia.
Qed.

Lemma elem_of_insert_at {A} (l : list A) (i : nat) (x y : A) :
  y ∈ take i l ++ x :: drop i l <-> y = x \/ y ∈ l.
Proof.
  rewrite elem_of_app, elem_of_cons.
  assert (y ∈ l <-> y ∈ take i l \/ y ∈ drop i l) as ->; [|tauto].
  by rewrite <- elem_of_app, take_drop.
Qed.

Lemma length_insert_at {A} (l : list A) (i : nat) (x : A) :
  (i <= length l)%nat -> length (take i l ++ x :: drop i l) = S (length l).
Proof.
  intros. rewrite length_app, length_take. simpl. rewrite length_drop. lia.
Qed.

(** The first key equal to [b]. *)
Lemma find_entry_at (lk : list Z) (lc : list ptr) (b : Z) (i : nat) :
  NoDup lk -> lk !! i = Some b -> find_entry lk lc b = lc !!! i.
Proof.
  intros Hnd Hi. unfold find_entry.
  assert (Hlt : (i < length lk)%nat) by (by eapply lookup_lt_Some).
  rewrite (scan_up_unique _ (length lk) i); [|lia| |].
  - destruct (Nat.ltb_spec i (length lk)); [done|lia].
  - intros j Hj. apply Z.eqb_neq. intros E.
    assert (lk !! j = Some b).
    { rewrite <- E. apply list_lookup_lookup_total_lt. lia. }
    assert (j = i) by (by apply (NoDup_lookup lk j i b)). lia.
  - intros _. apply Z.eqb_eq. by apply list_lookup_total_correct.
Qed.

Lemma find_entry_absent (lk : list Z) (lc : list ptr) (b : Z) :
  b ∉ lk -> find_entry lk lc b = None.
Proof.
  intros Hb. unfold find_entry.
  rewrite (scan_up_unique _ (length lk) (length lk)); [|lia| |lia].
  - by rewrite Nat.ltb_irrefl.
  - intros j Hj. apply Z.eqb_neq. intros E. apply Hb. rewrite <- E.
    apply list_elem_of_lookup_total_2. done.
Qed.

Lemma find_entry_insert (lk : list Z) (lc : list ptr) (i : nat) (c b : Z)
    (p : ptr) :
  length lk = length lc -> (i <= length lk)%nat ->
  NoDup lk -> c ∉ lk ->
  find_entry (take i lk ++ c :: drop i lk) (take i lc ++ p :: drop i lc) b
  = if b =? c then p else find_entry lk lc b.
Proof.
  intros Hlen Hi Hnd Hc.
  assert (Hnd' : NoDup (take i lk ++ c :: drop i lk)).
  { apply NoDup_app. rewrite <- (take_drop i lk) in Hnd, Hc.
    apply NoDup_app in Hnd as (N1 & N2 & N3).
    rewrite elem_of_app in Hc. split; [done|]. split.
    - intros x Hx Hx'. apply elem_of_cons in Hx' as [->|Hx']; [tauto|].
      by eapply N2.
    - constructor; [tauto | done]. }
  destruct (Z.eqb_spec b c) as [->|Hne].
  - rewrite (find_entry_at _ _ c i Hnd') by (by apply lookup_insert_at_eq).
    apply list_lookup_total_correct. apply lookup_insert_at_eq. lia.
  - destruct (decide (b ∈ lk)) as [Hin|Hout].
    + apply list_elem_of_lookup_1 in Hin as (j & Hj).
      rewrite (find_entry_at lk lc b j Hnd Hj).
      rewrite (find_entry_at _ _ b (if (j <? i)%nat then j else S j) Hnd')
        by (by rewrite lookup_insert_at).
      rewrite !list_lookup_total_alt. by rewrite lookup_insert_at by lia.
    + rewrite (find_entry_absent lk) by done.
      apply find_entry_absent. rewrite elem_of_insert_at. tauto.
Qed.

Lemma find_entry_delete (lk : list Z) (lc : list ptr) (pos : nat) (c b : Z) :
  NoDup lk -> lk !! pos = Some c ->
  find_entry (delete pos lk) (delete pos lc) b
  = if b =? c then None else find_entry lk lc b.
Proof.
  intros Hnd Hpos.
  assert (Hnd' : NoDup (delete pos lk)).
  { eapply sublist_NoDup; [done | apply sublist_delete]. }
  assert (Hlook : forall j x, j <> pos -> lk !! j = Some x ->
            delete pos lk !! (if (j <? pos)%nat then j else pred j) = Some x).
  { intros j x Hj Hx. destruct (Nat.ltb_spec j pos).
    - by rewrite list_lookup_delete_lt.
    - rewrite list_lookup_delete_ge by lia.
      by replace (S (pred j)) with j by lia. }
  destruct (Z.eqb_spec b c) as [->|Hne].
  - apply find_entry_absent. intros Hin.
    apply list_elem_of_lookup_1 in Hin as (j & Hj).
    destruct (Nat.ltb_spec j pos).
    + rewrite list_lookup_delete_lt in Hj by done.
      assert (j = pos) by (by apply (NoDup_lookup lk j pos c)). lia.
    + rewrite list_lookup_delete_ge in Hj by done.
      assert (S j = pos) by (by apply (NoDup_lookup lk (S j) pos c)). lia.
  - destruct (decide (b ∈ lk)) as [Hin|Hout].
    + apply list_elem_of_lookup_1 in Hin as (j & Hj).
      assert (j <> pos) by (intros ->; congruence).
      rewrite (find_entry_at lk lc b j Hnd Hj).
      rewrite (find_entry_at _ _ b _ Hnd' (Hlook j b H Hj)).
      rewrite !list_lookup_total_alt. f_equal.
      destruct (Nat.ltb_spec j pos).
      * by rewrite list_lookup_delete_lt.
      * rewrite list_lookup_delete_ge by lia.
        by replace (S (pred j)) with j by lia.
    + rewrite (find_entry_absent lk) by done.
      apply find_entry_absent. intros Hin. apply Hout.
      by eapply list_elem_of_delete_inv.
Qed.

(** ** The parameters *)

Hypothesis Hparams : params_ok = true.

Lemma params_inv :
  0 <= maxPrefixLen /\ maxPrefixLen < partialLenMod /\ 256 <= numChildrenMod.
Proof.
  unfold params_ok in Hparams.
  apply andb_true_iff in Hparams as [H12 H3].
  apply andb_true_iff in H12 as [H1 H2]. lia.
Qed.

Lemma incr_small (k : Z) : 0 <= k < 255 -> incr k = k + 1.
Proof.
  intros H. unfold incr. destruct params_inv as (_ & _ & ?).
  apply Z.mod_small. lia.
Qed.

Lemma decr_small (k : Z) : 1 <= k <= 256 -> decr k = k - 1.
Proof.
  intros H. unfold decr. destruct params_inv as (_ & _ & ?).
  apply Z.mod_small. lia.
Qed.

(** ** Reading the invariants *)

Lemma forallb_elem_of {A} (f : A -> bool) (l : list A) :
  forallb f l = true <-> forall x, x ∈ l -> f x = true.
Proof.
  rewrite forallb_forall. split; intros H x Hx; apply H; by apply list_elem_of_In.
Qed.

Lemma elem_of_live (l : list ptr) (a : nat) : a ∈ live l <-> Some a ∈ l.
Proof.
  unfold live. rewrite list_elem_of_omap. split.
  - intros (x & Hx & E). simpl in E. by subst.
  - intros H. by exists (Some a).
Qed.

Lemma occupied_spec (p : ptr) : occupied p = true <-> p <> None.
Proof. by destruct p. Qed.

Lemma sorted_ok_spec (cap sz : nat) (hd : Header) (keys : list Z)
    (children : list ptr) :
  let nc := Z.to_nat (numChildren hd) in
  sorted_ok cap sz hd keys children = true <->
  length keys = cap /\ length children = cap
  /\ 0 <= numChildren hd <= Z.of_nat cap
  /\ (forall k, k ∈ keys -> is_byte k = true)
  /\ StronglySorted Z.lt (take nc keys)
  /\ (forall p, p ∈ take nc children -> p <> None)
  /\ NoDup (take nc children)
  /\ (forall a, Some a ∈ take nc children -> (a < sz)%nat).
Proof.
  intros nc. unfold sorted_ok. fold nc.
  rewrite !andb_true_iff, !Nat.eqb_eq, !Z.leb_le, ascending_spec,
    bool_decide_eq_true, !forallb_elem_of.
  setoid_rewrite occupied_spec. setoid_rewrite elem_of_live.
  setoid_rewrite Nat.ltb_lt. tauto.
Qed.

(** ** Insertion into a sorted node *)

Lemma NoDup_insert_at {A} (l : list A) (i : nat) (x : A) :
  NoDup l -> x ∉ l -> NoDup (take i l ++ x :: drop i l).
Proof.
  intros Hnd Hx. apply NoDup_app. rewrite <- (take_drop i l) in Hnd, Hx.
  apply NoDup_app in Hnd as (N1 & N2 & N3).
  rewrite elem_of_app in Hx. split; [done|]. split.
  - intros y Hy Hy'. apply elem_of_cons in Hy' as [->|Hy']; [tauto|].
    by eapply N2.
  - constructor; [tauto | done].
Qed.

Lemma insert_pos_take (keys : list Z) (c : Z) (nc : nat) :
  (nc <= length keys)%nat ->
  scan_up (fun i => c <? keys !!! i) 0 nc = insert_pos (take nc keys) c.
Proof.
  intros H. unfold insert_pos. rewrite length_take.
  replace (nc `min` length keys)%nat with nc by lia.
  apply scan_up_ext. intros j Hj. by rewrite lookup_total_take_lt by lia.
Qed.

Lemma elem_of_shifted {A} (s : list A) (i n : nat) (x y : A) :
  y ∈ take i s ++ x :: take (n - i) (drop i s) ++ drop (S n) s ->
  y = x \/ y ∈ s.
Proof.
  rewrite elem_of_app, elem_of_cons, elem_of_app.
  intros [H|[H|[H|H]]]; [right|by left|right|right].
  - by eapply subseteq_take.
  - eapply subseteq_drop, subseteq_take, H.
  - eapply subseteq_drop, H.
Qed.

Lemma sorted_insert_ok (cap sz : nat) (hd : Header) (keys : list Z)
    (children : list ptr) (c : Z) (child : nat) :
  let nc := Z.to_nat (numChildren hd) in
  let i := insert_pos (take nc keys) c in
  let keys' :=
    take i keys ++ c :: take (nc - i) (drop i keys) ++ drop (S nc) keys in
  let children' :=
    take i children ++ Some child :: take (nc - i) (drop i children)
      ++ drop (S nc) children in
  let hd' := mkHeader (partialLen hd) (incr (numChildren hd)) (partial hd) in
  sorted_ok cap sz hd keys children = true ->
  numChildren hd < Z.of_nat cap -> (cap <= 16)%nat ->
  is_byte c = true ->
  c ∉ take nc keys -> Some child ∉ take nc children -> (child < sz)%nat ->
  sorted_ok cap sz hd' keys' children' = true
  /\ numChildren hd' = numChildren hd + 1
  /\ forall b,
       find_entry (take (S nc) keys') (take (S nc) children') b
       = if b =? c then Some child
         else find_entry (take nc keys) (take nc children) b.
Proof.
  intros nc i keys' children' hd' Hok Hlt Hcap Hc Hfresh Hnew Hsz.
  apply sorted_ok_spec in Hok as (Lk & Lc & Hnc & Hb & Hs & Ho & Hnd & Hv).
  fold nc in Hs, Ho, Hnd, Hv.
  assert (Hi : (i <= nc)%nat).
  { pose proof (insert_pos_le (take nc keys) c) as H.
    rewrite length_take in H. unfold i. lia. }
  assert (Hnc' : numChildren hd' = numChildren hd + 1).
  { unfold hd'. simpl. apply incr_small. lia. }
  assert (Etk : take (S nc) keys' = take i (take nc keys) ++ c :: drop i (take nc keys)).
  { unfold keys'. apply shift_right_set_take; lia. }
  assert (Etc : take (S nc) children'
                = take i (take nc children) ++ Some child :: drop i (take nc children)).
  { unfold children'. apply shift_right_set_take; lia. }
  assert (Lnk : length (take nc keys) = nc) by (rewrite length_take; lia).
  assert (Lnc : length (take nc children) = nc) by (rewrite length_take; lia).
  split; [|split; [done|]].
  - apply sorted_ok_spec. rewrite Hnc'.
    replace (Z.to_nat (numChildren hd + 1)) with (S nc) by lia.
    rewrite Etk, Etc.
    split; [unfold keys'; rewrite shift_right_set_length; lia|].
    split; [unfold children'; rewrite shift_right_set_length; lia|].
    split; [lia|]. split; [|split; [|split; [|split]]].
    + intros k Hk. apply elem_of_shifted in Hk as [->|Hk]; [done|by apply Hb].
    + by apply insert_sorted.
    + intros p Hp. apply elem_of_insert_at in Hp as [->|Hp]; [done|by apply Ho].
    + by apply NoDup_insert_at.
    + intros x Hx. apply elem_of_insert_at in Hx as [[= ->]|Hx]; [done|by apply Hv].
  - intros b. rewrite Etk, Etc. apply find_entry_insert; try lia.
    + by apply StronglySorted_lt_NoDup.
    + done.
Qed.

(** The arrays of a sorted node after the insertion of [c] and [child]. *)
Lemma insert_arrays_Ok {A} (s : list A) (i n : nat) (x : A) :
  (i <= n)%nat -> (n < length s)%nat ->
  (s' ← shift_right s (Z.of_nat i) (Z.of_nat n - Z.of_nat i);
   zset s' (Z.of_nat i) x)
  = Ok (take i s ++ x :: take (n - i) (drop i s) ++ drop (S n) s).
Proof.
  intros Hi Hn. rewrite shift_right_Ok by done. rewrite bind_Ok.
  by apply shift_right_set.
Qed.

Lemma addChild4_small (st : state) (a : nat) (hd : Header) (keys : list Z)
    (children : list ptr) (c : Z) (child : nat) :
  let nc := Z.to_nat (numChildren hd) in
  let i := insert_pos (take nc keys) c in
  st_heap st !! a = Some (Node4 hd keys children) ->
  length keys = 4%nat -> length children = 4%nat ->
  0 <= numChildren hd < 4 ->
  addChild4 st a c child
  = Ok (store st a
          (Node4 (mkHeader (partialLen hd) (incr (numChildren hd)) (partial hd))
             (take i keys ++ c :: take (nc - i) (drop i keys)
                ++ drop (S nc) keys)
             (take i children ++ Some child :: take (nc - i) (drop i children)
                ++ drop (S nc) children))).
Proof.
  intros nc i Ha Lk Lc Hnc. unfold addChild4. rewrite Ha.
  destruct (Z.ltb_spec (numChildren hd) 4); [|lia].
  fold nc. rewrite insert_pos_take by lia. fold i.
  assert (Hi : (i <= nc)%nat).
  { pose proof (insert_pos_le (take nc keys) c) as H'.
    rewrite length_take in H'. unfold i. lia. }
  assert (E : numChildren hd = Z.of_nat nc) by lia. rewrite E.
  rewrite (shift_right_Ok keys) by lia. rewrite bind_Ok.
  rewrite (shift_right_Ok children) by lia. rewrite bind_Ok.
  rewrite (shift_right_set keys) by lia. rewrite bind_Ok.
  rewrite (shift_right_set children) by lia. rewrite bind_Ok.
  done.
Qed.

Lemma addChild16_small (st : state) (a : nat) (hd : Header) (keys : list Z)
    (children : list ptr) (c : Z) (child : nat) :
  let nc := Z.to_nat (numChildren hd) in
  let i := insert_pos (take nc keys) c in
  st_heap st !! a = Some (Node16 hd keys children) ->
  length keys = 16%nat -> length children = 16%nat ->
  0 <= numChildren hd < 16 ->
  addChild16 st a c child
  = Ok (store st a
          (Node16 (mkHeader (partialLen hd) (incr (numChildren hd)) (partial hd))
             (take i keys ++ c :: take (nc - i) (drop i keys)
                ++ drop (S nc) keys)
             (take i children ++ Some child :: take (nc - i) (drop i children)
                ++ drop (S nc) children))).
Proof.
  intros nc i Ha Lk Lc Hnc. unfold addChild16. rewrite Ha.
  destruct (Z.ltb_spec (numChildren hd) 16); [|lia].
  rewrite mask32_ones by lia.
  pose proof (masked_trailingZeros (fun i => c <? keys !!! i)
                (numChildren hd) 32 ltac:(lia) ltac:(lia)) as Hm.
  simpl in Hm. fold nc in Hm. rewrite insert_pos_take in Hm by lia.
  fold i in Hm.
  assert (Hi : (i <= nc)%nat).
  { pose proof (insert_pos_le (take nc keys) c) as H'.
    rewrite length_take in H'. unfold i. lia. }
  assert (E : numChildren hd = Z.of_nat nc) by lia.
  destruct (Nat.ltb_spec i nc) as [Hlt|Hge].
  - destruct Hm as [Hne Htz]. rewrite Htz.
    destruct (Z.eqb_spec (Z.land (bitfield16 (fun i => c <? keys !!! i))
                            (Z.ones (numChildren hd))) 0); [done|].
    cbn [negb]. rewrite E.
    rewrite (shift_right_Ok keys) by lia. rewrite bind_Ok.
    rewrite (shift_right_Ok children) by lia. rewrite !bind_Ok.
    rewrite (shift_right_set keys) by lia. rewrite bind_Ok.
    rewrite (shift_right_set children) by lia. rewrite bind_Ok.
    done.
  - rewrite Hm. cbn [Z.eqb negb]. rewrite bind_Ok.
    assert (i = nc) as Ei by lia.
    rewrite E. rewrite (zset_Ok keys) by lia. rewrite bind_Ok.
    rewrite (zset_Ok children) by lia. rewrite bind_Ok.
    rewrite Ei, Nat.sub_diag. cbn [take]. rewrite !app_nil_l.
    rewrite <- (insert_take_drop keys) by lia.
    by rewrite <- (insert_take_drop children) by lia.
Qed.

(** ** Child lookup in a sorted node *)

Lemma findChild4_loop_spec (keys : list Z) (c : Z) (i n : nat) :
  (i + n <= length keys)%nat ->
  findChild4_loop keys c i n
  = Ok (let r := scan_up (fun j => keys !!! j =? c) i n in
        if (r <? i + n)%nat then Some r else None).
Proof.
  revert i. induction n as [|n IH]; intros i Hn; simpl.
  - by rewrite Nat.add_0_r, Nat.ltb_irrefl.
  - rewrite (zget_Some keys i (keys !!! i))
      by (apply list_lookup_lookup_total_lt; lia).
    rewrite bind_Ok. destruct (keys !!! i =? c).
    + by destruct (Nat.ltb_spec i (i + S n)); [|lia].
    + rewrite IH by lia. by replace (S i + n)%nat with (i + S n)%nat by lia.
Qed.

Lemma find_entry_take (keys : list Z) (children : list ptr) (b : Z) (nc : nat) :
  (nc <= length keys)%nat -> (nc <= length children)%nat ->
  find_entry (take nc keys) (take nc children) b
  = let r := scan_up (fun j => keys !!! j =? b) 0 nc in
    if (r <? nc)%nat then children !!! r else None.
Proof.
  intros Hk Hc. unfold find_entry. rewrite length_take.
  replace (nc `min` length keys)%nat with nc by lia.
  rewrite (scan_up_ext _ (fun j => keys !!! j =? b)).
  2:{ intros j Hj. by rewrite lookup_total_take_lt by lia. }
  cbn zeta. destruct (Nat.ltb_spec (scan_up (fun j => keys !!! j =? b) 0 nc) nc);
    [|done].
  by rewrite lookup_total_take_lt.
Qed.

Lemma childOf_Node4 (hd : Header) (keys : list Z) (children : list ptr) (b : Z) :
  let nc := Z.to_nat (numChildren hd) in
  length keys = 4%nat -> length children = 4%nat -> 0 <= numChildren hd <= 4 ->
  childOf (Node4 hd keys children) b
  = Ok (find_entry (take nc keys) (take nc children) b).
Proof.
  intros nc Lk Lc Hnc. unfold childOf, findChild. fold nc.
  rewrite findChild4_loop_spec by (simpl; lia). rewrite bind_Ok.
  rewrite find_entry_take by lia. cbn zeta. rewrite Nat.add_0_l.
  destruct (Nat.ltb_spec (scan_up (fun j => keys !!! j =? b) 0 nc) nc); [|done].
  apply zget_Some. simpl. apply list_lookup_lookup_total_lt. lia.
Qed.

Lemma childOf_Node16 (hd : Header) (keys : list Z) (children : list ptr) (b : Z) :
  let nc := Z.to_nat (numChildren hd) in
  length keys = 16%nat -> length children = 16%nat -> 0 <= numChildren hd <= 16 ->
  childOf (Node16 hd keys children) b
  = Ok (find_entry (take nc keys) (take nc children) b).
Proof.
  intros nc Lk Lc Hnc. unfold childOf, findChild.
  rewrite mask16_ones by done.
  pose proof (masked_trailingZeros (fun i => keys !!! i =? b)
                (numChildren hd) 16 ltac:(lia) ltac:(lia)) as Hm.
  simpl in Hm. fold nc in Hm.
  rewrite find_entry_take by lia. cbn zeta.
  destruct (Nat.ltb_spec (scan_up (fun j => keys !!! j =? b) 0 nc) nc) as [Hr|Hr].
  - destruct Hm as [Hne Htz]. rewrite Htz.
    destruct (Z.eqb_spec (Z.land (bitfield16 (fun i => keys !!! i =? b))
                            (Z.ones (numChildren hd))) 0); [done|].
    cbn [negb]. rewrite bind_Ok.
    apply zget_Some. simpl. apply list_lookup_lookup_total_lt. lia.
  - rewrite Hm. done.
Qed.

(** ** Removal from a sorted node *)

Lemma ptr_eqb_spec (p q : ptr) : ptr_eqb p q = true <-> p = q.
Proof.
  destruct p as [x|], q as [y|]; simpl; try (split; congruence).
  rewrite Nat.eqb_eq. split; congruence.
Qed.

Lemma find_pos_spec (children : list ptr) (l : ptr) (i nc : nat) :
  (nc <= length children)%nat -> NoDup (take nc children) ->
  (i < nc)%nat -> children !! i = Some l ->
  find_pos children l = Z.of_nat i.
Proof.
  intros Hnc Hnd Hi Hl. unfold find_pos.
  rewrite (scan_up_unique _ (length children) i); [|lia| |].
  - by destruct (Nat.ltb_spec i (length children)); [|lia].
  - intros j Hj. destruct (ptr_eqb (children !!! j) l) eqn:E; [|done].
    apply ptr_eqb_spec in E.
    assert (j = i); [|lia].
    apply (NoDup_lookup (take nc children) j i l); [done| |].
    + rewrite lookup_take_lt by lia. rewrite <- E.
      apply list_lookup_lookup_total_lt. lia.
    + by rewrite lookup_take_lt.
  - intros _. apply ptr_eqb_spec. by apply list_lookup_total_correct.
Qed.

Lemma elem_of_shift_left {A} (s : list A) (pos : nat) (y : A) :
  y ∈ take pos s ++ drop (S pos) s ++ drop (length s - 1) s -> y ∈ s.
Proof.
  rewrite !elem_of_app. intros [H|[H|H]].
  - by eapply subseteq_take.
  - by eapply subseteq_drop.
  - by eapply subseteq_drop.
Qed.

Lemma sorted_delete_ok (cap sz : nat) (hd : Header) (keys : list Z)
    (children : list ptr) (pos : nat) :
  let nc := Z.to_nat (numChildren hd) in
  let keys' := take pos keys ++ drop (S pos) keys ++ drop (length keys - 1) keys in
  let children' :=
    take pos children ++ drop (S pos) children
      ++ drop (length children - 1) children in
  let hd' := mkHeader (partialLen hd) (decr (numChildren hd)) (partial hd) in
  sorted_ok cap sz hd keys children = true ->
  (cap <= 16)%nat -> (pos < nc)%nat ->
  sorted_ok cap sz hd' keys' children' = true
  /\ numChildren hd' = numChildren hd - 1
  /\ forall b,
       find_entry (take (nc - 1) keys') (take (nc - 1) children') b
       = if b =? keys !!! pos then None
         else find_entry (take nc keys) (take nc children) b.
Proof.
  intros nc keys' children' hd' Hok Hcap Hpos.
  apply sorted_ok_spec in Hok as (Lk & Lc & Hnc & Hb & Hs & Ho & Hnd & Hv).
  fold nc in Hs, Ho, Hnd, Hv.
  assert (Hnc' : numChildren hd' = numChildren hd - 1).
  { unfold hd'. simpl. apply decr_small. lia. }
  assert (Etk : take (nc - 1) keys' = delete pos (take nc keys)).
  { unfold keys'. apply shift_left_take; lia. }
  assert (Etc : take (nc - 1) children' = delete pos (take nc children)).
  { unfold children'. apply shift_left_take; lia. }
  split; [|split; [done|]].
  - apply sorted_ok_spec. rewrite Hnc'.
    replace (Z.to_nat (numChildren hd - 1)) with (nc - 1)%nat by lia.
    rewrite Etk, Etc.
    split; [unfold keys'; rewrite shift_left_length; lia|].
    split; [unfold children'; rewrite shift_left_length; lia|].
    split; [lia|]. split; [|split; [|split; [|split]]].
    + intros k Hk. apply elem_of_shift_left in Hk. by apply Hb.
    + by apply StronglySorted_delete.
    + intros p Hp. apply list_elem_of_delete_inv in Hp. by apply Ho.
    + eapply sublist_NoDup; [done | apply sublist_delete].
    + intros x Hx. apply list_elem_of_delete_inv in Hx. by apply Hv.
  - intros b. rewrite Etk, Etc. apply find_entry_delete.
    + by apply StronglySorted_lt_NoDup.
    + rewrite lookup_take_lt by done.
      apply list_lookup_lookup_total_lt. lia.
Qed.

(** ** Counting and distinctness, position by position *)

Lemma for_range_inv {St} (body : nat -> St -> res St) (P : nat -> St -> Prop)
    (i n : nat) (s : St) :
  P i s ->
  (forall j s, (i <= j < i + n)%nat -> P j s ->
     exists s', body j s = Ok s' /\ P (S j) s') ->
  exists s', for_range body i n s = Ok s' /\ P (i + n)%nat s'.
Proof.
  revert i s. induction n as [|n IH]; intros i s Hs Hstep; simpl.
  - exists s. by rewrite Nat.add_0_r.
  - destruct (Hstep i s ltac:(lia) Hs) as (s1 & E1 & H1). rewrite E1, bind_Ok.
    destruct (IH (S i) s1 H1) as (s' & E' & H').
    { intros j s2 Hj. apply Hstep. lia. }
    exists s'. split; [done|]. by replace (i + S n)%nat with (S i + n)%nat by lia.
Qed.

Lemma countb_app {A} (p : A -> bool) (l1 l2 : list A) :
  countb p (l1 ++ l2) = (countb p l1 + countb p l2)%nat.
Proof. induction l1 as [|x l1 IH]; simpl; [done|]. rewrite IH. lia. Qed.

Lemma countb_le {A} (p : A -> bool) (l : list A) :
  (countb p l <= length l)%nat.
Proof. induction l as [|x l IH]; simpl; [done|]. destruct (p x); lia. Qed.

Lemma countb_replicate_false {A} (p : A -> bool) (x : A) (n : nat) :
  p x = false -> countb p (replicate n x) = 0%nat.
Proof. intros H. induction n as [|n IH]; simpl; [done|]. by rewrite H, IH. Qed.

Lemma countb_all {A} (p : A -> bool) (l : list A) :
  (forall x, x ∈ l -> p x = true) -> countb p l = length l.
Proof.
  induction l as [|x l IH]; intros H; simpl; [done|].
  rewrite (H x) by left. rewrite IH; [done|]. intros y Hy. apply H. by right.
Qed.

Lemma countb_free {A} (p : A -> bool) (l : list A) :
  (countb p l < length l)%nat -> exists i x, l !! i = Some x /\ p x = false.
Proof.
  induction l as [|x l IH]; simpl; [lia|]. intros H.
  destruct (p x) eqn:E.
  - destruct IH as (i & y & Hi & Hy); [lia|]. by exists (S i), y.
  - by exists 0%nat, x.
Qed.

Lemma countb_insert {A} (p : A -> bool) (l : list A) (i : nat) (x y : A) :
  l !! i = Some x ->
  (countb p (<[i := y]> l) + (if p x then 1 else 0)
   = countb p l + (if p y then 1 else 0))%nat.
Proof.
  intros Hi. assert (i < length l)%nat by (by eapply lookup_lt_Some).
  rewrite insert_take_drop by done.
  rewrite <- (take_drop_middle l i x Hi) at 3.
  rewrite !countb_app. simpl. lia.
Qed.

Lemma countb_take_S {A} (p : A -> bool) (l : list A) (i : nat) (x : A) :
  l !! i = Some x ->
  countb p (take (S i) l) = (countb p (take i l) + (if p x then 1 else 0))%nat.
Proof.
  intros Hi. rewrite (take_S_r l i x Hi), countb_app. simpl. lia.
Qed.

Lemma NoDup_omap_lookup {A B} (f : A -> option B) (l : list A) :
  NoDup (omap f l) <->
  forall i j x y z, l !! i = Some x -> l !! j = Some y ->
    f x = Some z -> f y = Some z -> i = j.
Proof.
  induction l as [|x l IH]; simpl.
  - split; [intros _ i j x y z Hi; by destruct i | intros _; constructor].
  - destruct (f x) as [z|] eqn:E.
    + rewrite NoDup_cons, IH, list_elem_of_omap. split.
      * intros [Hz Hl] [|i] [|j] x1 y1 z1 Hi Hj H1 H2; simpl in *.
        -- done.
        -- exfalso. apply Hz. exists y1. split; [by eapply list_elem_of_lookup_2|].
           congruence.
        -- exfalso. apply Hz. exists x1. split; [by eapply list_elem_of_lookup_2|].
           congruence.
        -- f_equal. by eapply Hl.
      * intros H. split.
        -- intros (y & Hy & Ey). apply list_elem_of_lookup_1 in Hy as (j & Hj).
           specialize (H 0%nat (S j) x y z). simpl in H.
           by specialize (H eq_refl Hj E Ey).
        -- intros i j x1 y1 z1 Hi Hj H1 H2.
           specialize (H (S i) (S j) x1 y1 z1 Hi Hj H1 H2). lia.
    + rewrite IH. split.
      * intros Hl [|i] [|j] x1 y1 z1 Hi Hj H1 H2; simpl in *; try congruence.
        f_equal. by eapply Hl.
      * intros H i j x1 y1 z1 Hi Hj H1 H2.
        specialize (H (S i) (S j) x1 y1 z1 Hi Hj H1 H2). lia.
Qed.

Lemma NoDup_live (l : list ptr) :
  NoDup (live l) <->
  forall i j a, l !! i = Some (Some a) -> l !! j = Some (Some a) -> i = j.
Proof.
  unfold live. rewrite NoDup_omap_lookup. split.
  - intros H i j a Hi Hj. by apply (H i j (Some a) (Some a) a).
  - intros H i j x y z Hi Hj Hx Hy. simpl in Hx, Hy. subst. by eapply H.
Qed.

Lemma filter_omap {A} (p : A -> bool) (l : list A) :
  List.filter p l = omap (fun x => if p x then Some x else None) l.
Proof.
  induction l as [|x l IH]; simpl; [done|]. rewrite IH. by destruct (p x).
Qed.

Lemma NoDup_filter_lookup {A} (p : A -> bool) (l : list A) :
  NoDup (List.filter p l) <->
  forall i j x, l !! i = Some x -> l !! j = Some x -> p x = true -> i = j.
Proof.
  rewrite filter_omap, NoDup_omap_lookup. split.
  - intros H i j x Hi Hj Hp. apply (H i j x x x Hi Hj); by rewrite Hp.
  - intros H i j x y z Hi Hj Hx Hy.
    destruct (p x) eqn:Ex; [|done]. destruct (p y) eqn:Ey; [|done].
    simplify_eq. by eapply H.
Qed.

Lemma forallb_lookup {A} (f : A -> bool) (l : list A) :
  forallb f l = true <-> forall i x, l !! i = Some x -> f x = true.
Proof.
  rewrite forallb_elem_of. split.
  - intros H i x Hi. apply H. by eapply list_elem_of_lookup_2.
  - intros H x Hx. apply list_elem_of_lookup_1 in Hx as (i & Hi). by eapply H.
Qed.

Lemma nonzero_spec (k : Z) : nonzero k = true <-> k <> 0.
Proof. unfold nonzero. destruct (Z.eqb_spec k 0); simpl; split; congruence. Qed.

Lemma index_ok_spec (sz : nat) (hd : Header) (keys : list Z)
    (children : list ptr) :
  index_ok sz hd keys children = true <->
  length keys = 256%nat /\ length children = 48%nat
  /\ (forall b k, keys !! b = Some k -> 0 <= k <= 48)
  /\ (forall b k, keys !! b = Some k -> k <> 0 ->
        children !!! Z.to_nat (k - 1) <> None)
  /\ numChildren hd = Z.of_nat (countb nonzero keys)
  /\ numChildren hd = Z.of_nat (countb occupied children)
  /\ (forall b1 b2 k, keys !! b1 = Some k -> keys !! b2 = Some k -> k <> 0 ->
        b1 = b2)
  /\ (forall i j a, children !! i = Some (Some a) ->
        children !! j = Some (Some a) -> i = j)
  /\ (forall a, Some a ∈ children -> (a < sz)%nat).
Proof.
  unfold index_ok.
  rewrite !andb_true_iff, !Nat.eqb_eq, !Z.eqb_eq, !bool_decide_eq_true,
    NoDup_filter_lookup, NoDup_live,
    (forallb_elem_of (fun a => (a <? sz)%nat)), !forallb_lookup.
  setoid_rewrite elem_of_live. setoid_rewrite Nat.ltb_lt.
  setoid_rewrite nonzero_spec.
  assert (forall k : Z, (0 <=? k) && (k <=? 48) = true <-> 0 <= k <= 48) as E1
    by (intros; rewrite andb_true_iff; lia).
  assert (forall k : Z,
            (k =? 0) || occupied (children !!! Z.to_nat (k - 1)) = true
            <-> (k <> 0 -> children !!! Z.to_nat (k - 1) <> None)) as E2.
  { intros k. rewrite orb_true_iff, occupied_spec, Z.eqb_eq.
    destruct (decide (k = 0)); tauto. }
  setoid_rewrite E1. setoid_rewrite E2. tauto.
Qed.

Lemma direct_ok_spec (sz : nat) (hd : Header) (children : list ptr) :
  direct_ok sz hd children = true <->
  length children = 256%nat
  /\ numChildren hd = Z.of_nat (countb occupied children) mod numChildrenMod
  /\ (forall i j a, children !! i = Some (Some a) ->
        children !! j = Some (Some a) -> i = j)
  /\ (forall a, Some a ∈ children -> (a < sz)%nat).
Proof.
  unfold direct_ok.
  rewrite !andb_true_iff, !Nat.eqb_eq, !Z.eqb_eq, !bool_decide_eq_true,
    NoDup_live, forallb_elem_of.
  setoid_rewrite elem_of_live. setoid_rewrite Nat.ltb_lt. tauto.
Qed.

(** ** Node256 *)

Lemma is_byte_spec (z : Z) : is_byte z = true <-> 0 <= z < 256.
Proof. unfold is_byte. rewrite andb_true_iff. lia. Qed.

Lemma elem_of_insert_inv {A} (l : list A) (i : nat) (x y : A) :
  y ∈ <[i := x]> l -> y = x \/ y ∈ l.
Proof.
  intros H. apply list_elem_of_lookup_1 in H as (j & Hj).
  apply list_lookup_insert_Some in Hj as [(_ & -> & _)|(_ & Hj)]; [by left|].
  right. by eapply list_elem_of_lookup_2.
Qed.

Lemma lookup_of_total {A} `{!Inhabited A} (l : list A) (i : nat) (x : A) :
  (i < length l)%nat -> l !!! i = x -> l !! i = Some x.
Proof. intros H <-. by apply list_lookup_lookup_total_lt. Qed.

Lemma childOf_Node256 (hd : Header) (children : list ptr) (b : Z) :
  length children = 256%nat -> is_byte b = true ->
  childOf (Node256 hd children) b = Ok (children !!! Z.to_nat b).
Proof.
  intros Lc Hb. apply is_byte_spec in Hb. unfold childOf, findChild.
  assert (Hl : children !! Z.to_nat b = Some (children !!! Z.to_nat b))
    by (apply list_lookup_lookup_total_lt; lia).
  rewrite (zget_Z children b _ ltac:(lia) Hl), bind_Ok.
  destruct (children !!! Z.to_nat b) as [x|] eqn:E; simpl; [|done].
  by apply zget_Some.
Qed.

Lemma addChild256_ok (sz : nat) (st : state) (a : nat) (hd : Header)
    (children : list ptr) (c : Z) (child : nat) :
  let hd' := mkHeader (partialLen hd) (incr (numChildren hd)) (partial hd) in
  let children' := <[Z.to_nat c := Some child]> children in
  st_heap st !! a = Some (Node256 hd children) ->
  direct_ok sz hd children = true -> is_byte c = true ->
  children !!! Z.to_nat c = None -> Some child ∉ children ->
  (child < sz)%nat ->
  addChild256 st a c child = Ok (store st a (Node256 hd' children'))
  /\ direct_ok sz hd' children' = true
  /\ forall j, children' !!! j
              = if (j =? Z.to_nat c)%nat then Some child else children !!! j.
Proof.
  intros hd' children' Ha Hok Hc Habs Hfresh Hsz.
  apply is_byte_spec in Hc.
  apply direct_ok_spec in Hok as (Lc & Hnc & Hnd & Hv).
  destruct params_inv as (_ & _ & HM).
  assert (Hl : children !! Z.to_nat c = Some None)
    by (apply lookup_of_total; [lia | done]).
  split; [|split].
  - unfold addChild256. rewrite Ha. rewrite (zset_Z children) by lia.
    by rewrite bind_Ok.
  - apply direct_ok_spec. unfold children', hd'. simpl.
    split; [by rewrite length_insert|]. split; [|split].
    + pose proof (countb_insert occupied children (Z.to_nat c) None
                    (Some child) Hl) as Hcnt. simpl in Hcnt.
      unfold incr. rewrite Hnc, Z.add_mod_idemp_l by lia. f_equal. lia.
    + intros i j x Hi Hj.
      apply list_lookup_insert_Some in Hi as [(Ei & Ex & _)|(Ni & Hi)];
        apply list_lookup_insert_Some in Hj as [(Ej & Ey & _)|(Nj & Hj)].
      * congruence.
      * exfalso. apply Hfresh. injection Ex as ->.
        by eapply list_elem_of_lookup_2.
      * exfalso. apply Hfresh. injection Ey as ->.
        by eapply list_elem_of_lookup_2.
      * by eapply Hnd.
    + intros x Hx. apply elem_of_insert_inv in Hx as [[= ->]|Hx]; [done|].
      by apply Hv.
  - intros j. unfold children'.
    destruct (Nat.eqb_spec j (Z.to_nat c)) as [->|Hne].
    + apply list_lookup_total_insert_eq. lia.
    + by apply list_lookup_total_insert_ne.
Qed.

Lemma removeChild256_small (sz : nat) (st : state) (a : nat) (hd : Header)
    (children : list ptr) (c : Z) :
  let hd' := mkHeader (partialLen hd) (decr (numChildren hd)) (partial hd) in
  let children' := <[Z.to_nat c := None]> children in
  direct_ok sz hd children = true -> is_byte c = true ->
  children !!! Z.to_nat c <> None ->
  direct_ok sz hd' children' = true
  /\ Z.of_nat (countb occupied children')
     = Z.of_nat (countb occupied children) - 1
  /\ forall j, children' !!! j
              = if (j =? Z.to_nat c)%nat then None else children !!! j.
Proof.
  intros hd' children' Hok Hc Hpres.
  apply is_byte_spec in Hc.
  apply direct_ok_spec in Hok as (Lc & Hnc & Hnd & Hv).
  destruct params_inv as (_ & _ & HM).
  destruct (children !!! Z.to_nat c) as [x|] eqn:E; [|done].
  assert (Hl : children !! Z.to_nat c = Some (Some x))
    by (apply lookup_of_total; [lia | done]).
  pose proof (countb_insert occupied children (Z.to_nat c) (Some x)
                None Hl) as Hcnt. simpl in Hcnt.
  split; [|split].
  - apply direct_ok_spec. unfold children', hd'. simpl.
    split; [by rewrite length_insert|]. split; [|split].
    + unfold decr. rewrite Hnc, Zminus_mod_idemp_l. f_equal. lia.
    + intros i j y Hi Hj.
      apply list_lookup_insert_Some in Hi as [(_ & ? & _)|(Ni & Hi)]; [done|].
      apply list_lookup_insert_Some in Hj as [(_ & ? & _)|(Nj & Hj)]; [done|].
      by eapply Hnd.
    + intros y Hy. apply elem_of_insert_inv in Hy as [?|Hy]; [done|].
      by apply Hv.
  - unfold children'. lia.
  - intros j. unfold children'.
    destruct (Nat.eqb_spec j (Z.to_nat c)) as [->|Hne].
    + apply list_lookup_total_insert_eq. lia.
    + by apply list_lookup_total_insert_ne.
Qed.

(** ** Node48 *)

Lemma to_byte_small (z : Z) : 0 <= z < 256 -> to_byte z = z.
Proof. intros. unfold to_byte. by apply Z.mod_small. Qed.

Lemma childOf_Node48 (sz : nat) (hd : Header) (keys : list Z)
    (children : list ptr) (b : Z) :
  index_ok sz hd keys children = true -> is_byte b = true ->
  childOf (Node48 hd keys children) b = Ok (assoc (Node48 hd keys children) b).
Proof.
  intros Hok Hb. apply is_byte_spec in Hb.
  apply index_ok_spec in Hok as (Lk & Lc & Hr & _).
  unfold childOf, findChild, assoc.
  assert (Hl : keys !! Z.to_nat b = Some (keys !!! Z.to_nat b))
    by (apply list_lookup_lookup_total_lt; lia).
  rewrite (zget_Z keys b _ ltac:(lia) Hl), bind_Ok.
  specialize (Hr _ _ Hl). set (k := keys !!! Z.to_nat b) in *.
  destruct (Z.eqb_spec k 0); [done|]. cbn [negb].
  assert (Hc : children !! Z.to_nat (k - 1)
               = Some (children !!! Z.to_nat (k - 1)))
    by (apply list_lookup_lookup_total_lt; lia).
  rewrite (zget_Z children (k - 1) _ ltac:(lia) Hc), !bind_Ok.
  by apply zget_Some.
Qed.

Lemma free_slot (sz : nat) (hd : Header) (keys : list Z) (children : list ptr) :
  index_ok sz hd keys children = true -> numChildren hd < 48 ->
  let pos := scan_up (fun i => bool_decide (children !! i = Some None))
               0 (length children) in
  (pos < 48)%nat /\ children !! pos = Some None.
Proof.
  intros Hok Hnc pos.
  apply index_ok_spec in Hok as (Lk & Lc & _ & _ & _ & Hcnt & _).
  destruct (countb_free occupied children) as (i & x & Hi & Hx); [lia|].
  destruct x as [|]; [done|].
  destruct (scan_up_spec (fun i => bool_decide (children !! i = Some None))
              0 (length children)) as (H1 & H2 & H3). fold pos in H1, H2, H3.
  assert (Hlt : (i < length children)%nat) by (by eapply lookup_lt_Some).
  assert (pos <= i)%nat.
  { destruct (Nat.le_gt_cases pos i); [done|].
    specialize (H2 i ltac:(lia)). by rewrite bool_decide_eq_true_2 in H2. }
  split; [lia|]. specialize (H3 ltac:(lia)).
  by apply bool_decide_eq_true in H3.
Qed.

Lemma addChild48_ok (sz : nat) (st : state) (a : nat) (hd : Header)
    (keys : list Z) (children : list ptr) (c : Z) (child : nat) :
  let pos := scan_up (fun i => bool_decide (children !! i = Some None))
               0 (length children) in
  let hd' := mkHeader (partialLen hd) (incr (numChildren hd)) (partial hd) in
  let keys' := <[Z.to_nat c := Z.of_nat pos + 1]> keys in
  let children' := <[pos := Some child]> children in
  st_heap st !! a = Some (Node48 hd keys children) ->
  index_ok sz hd keys children = true -> numChildren hd < 48 ->
  is_byte c = true -> keys !!! Z.to_nat c = 0 ->
  Some child ∉ children -> (child < sz)%nat ->
  addChild48 st a c child = Ok (store st a (Node48 hd' keys' children'))
  /\ index_ok sz hd' keys' children' = true
  /\ numChildren hd' = numChildren hd + 1
  /\ forall b, is_byte b = true ->
       assoc (Node48 hd' keys' children') b
       = if b =? c then Some child else assoc (Node48 hd keys children) b.
Proof.
  intros pos hd' keys' children' Ha Hok Hnc Hc Habs Hfresh Hsz.
  destruct (free_slot _ _ _ _ Hok Hnc) as [Hpos Hfree]. fold pos in Hpos, Hfree.
  apply is_byte_spec in Hc.
  apply index_ok_spec in Hok
    as (Lk & Lc & Hr & Href & Hck & Hcc & Hinj & Hnd & Hv).
  assert (Hl : keys !! Z.to_nat c = Some 0)
    by (apply lookup_of_total; [lia | done]).
  assert (Hnc' : numChildren hd' = numChildren hd + 1).
  { unfold hd'. simpl. apply incr_small. lia. }
  assert (Hother : forall b k, keys !! b = Some k -> k <> 0 ->
            Z.to_nat (k - 1) <> pos).
  { intros b k Hb Hk E. specialize (Href b k Hb Hk). rewrite E in Href.
    apply Href. by apply list_lookup_total_correct. }
  split; [|split; [|split; [done|]]].
  - unfold addChild48. rewrite Ha.
    destruct (Z.ltb_spec (numChildren hd) 48); [|lia]. fold pos.
    rewrite (zget_Some children pos None Hfree), bind_Ok.
    rewrite (zset_Ok children) by lia. rewrite bind_Ok.
    rewrite (zset_Z keys) by lia. rewrite bind_Ok.
    by rewrite to_byte_small by lia.
  - apply index_ok_spec. unfold keys', children'. rewrite Hnc'.
    rewrite !length_insert.
    split; [done|]. split; [done|]. split; [|split; [|split; [|split; [|split; [|split]]]]].
    + intros b k Hb.
      apply list_lookup_insert_Some in Hb as [(_ & <- & _)|(_ & Hb)]; [lia|].
      by eapply Hr.
    + intros b k Hb Hk.
      apply list_lookup_insert_Some in Hb as [(_ & <- & _)|(_ & Hb)].
      * replace (Z.to_nat (Z.of_nat pos + 1 - 1)) with pos by lia.
        by rewrite list_lookup_total_insert_eq by lia.
      * rewrite list_lookup_total_insert_ne by (symmetry; by eapply Hother).
        by eapply Href.
    + pose proof (countb_insert nonzero keys (Z.to_nat c) 0
                    (Z.of_nat pos + 1) Hl) as Hcnt.
      replace (nonzero (Z.of_nat pos + 1)) with true in Hcnt
        by (symmetry; apply nonzero_spec; lia).
      simpl in Hcnt. lia.
    + pose proof (countb_insert occupied children pos None (Some child) Hfree)
        as Hcnt. simpl in Hcnt. lia.
    + intros b1 b2 k H1 H2 Hk.
      apply list_lookup_insert_Some in H1 as [(E1 & K1 & _)|(N1 & H1)];
        apply list_lookup_insert_Some in H2 as [(E2 & K2 & _)|(N2 & H2)].
      * congruence.
      * exfalso. apply (Hother b2 k H2 Hk). lia.
      * exfalso. apply (Hother b1 k H1 Hk). lia.
      * by eapply Hinj.
    + intros i j x Hi Hj.
      apply list_lookup_insert_Some in Hi as [(Ei & Ex & _)|(Ni & Hi)];
        apply list_lookup_insert_Some in Hj as [(Ej & Ey & _)|(Nj & Hj)].
      * congruence.
      * exfalso. apply Hfresh. injection Ex as ->.
        by eapply list_elem_of_lookup_2.
      * exfalso. apply Hfresh. injection Ey as ->.
        by eapply list_elem_of_lookup_2.
      * by eapply Hnd.
    + intros x Hx. apply elem_of_insert_inv in Hx as [[= ->]|Hx]; [done|].
      by apply Hv.
  - intros b Hb. apply is_byte_spec in Hb. unfold assoc, keys', children'.
    destruct (Z.eqb_spec b c) as [->|Hne].
    + rewrite list_lookup_total_insert_eq by lia.
      destruct (Z.eqb_spec (Z.of_nat pos + 1) 0); [lia|].
      replace (Z.to_nat (Z.of_nat pos + 1 - 1)) with pos by lia.
      by rewrite list_lookup_total_insert_eq by lia.
    + rewrite list_lookup_total_insert_ne by lia.
      destruct (Z.eqb_spec (keys !!! Z.to_nat b) 0) as [|Hk]; [done|].
      rewrite list_lookup_total_insert_ne; [done|]. symmetry.
      eapply (Hother (Z.to_nat b)); [|done].
      apply list_lookup_lookup_total_lt. lia.
Qed.

Lemma removeChild48_small (sz : nat) (hd : Header) (keys : list Z)
    (children : list ptr) (c : Z) :
  let pos := keys !!! Z.to_nat c in
  let hd' := mkHeader (partialLen hd) (decr (numChildren hd)) (partial hd) in
  let keys' := <[Z.to_nat c := 0]> keys in
  let children' := <[Z.to_nat (pos - 1) := None]> children in
  index_ok sz hd keys children = true -> is_byte c = true -> pos <> 0 ->
  index_ok sz hd' keys' children' = true
  /\ numChildren hd' = numChildren hd - 1
  /\ forall b, is_byte b = true ->
       assoc (Node48 hd' keys' children') b
       = if b =? c then None else assoc (Node48 hd keys children) b.
Proof.
  intros pos hd' keys' children' Hok Hc Hpos.
  apply is_byte_spec in Hc.
  apply index_ok_spec in Hok
    as (Lk & Lc & Hr & Href & Hck & Hcc & Hinj & Hnd & Hv).
  assert (Hl : keys !! Z.to_nat c = Some pos)
    by (apply lookup_of_total; [lia | done]).
  pose proof (Hr _ _ Hl) as Hrange.
  pose proof (Href _ _ Hl Hpos) as Hocc.
  destruct (children !!! Z.to_nat (pos - 1)) as [x|] eqn:Ex; [|done].
  assert (Hlc : children !! Z.to_nat (pos - 1) = Some (Some x))
    by (apply lookup_of_total; [lia | done]).
  pose proof (countb_insert nonzero keys (Z.to_nat c) pos 0 Hl) as Hcnt1.
  replace (nonzero pos) with true in Hcnt1
    by (symmetry; by apply nonzero_spec).
  pose proof (countb_insert occupied children (Z.to_nat (pos - 1)) (Some x)
                None Hlc) as Hcnt2.
  simpl in Hcnt1, Hcnt2.
  assert (Hnc' : numChildren hd' = numChildren hd - 1).
  { unfold hd'. simpl. apply decr_small.
    pose proof (countb_le nonzero keys). lia. }
  assert (Hother : forall b k, b <> Z.to_nat c -> keys !! b = Some k ->
            k <> 0 -> Z.to_nat (k - 1) <> Z.to_nat (pos - 1)).
  { intros b k Hb Hk K0 E. apply Hb.
    pose proof (Hr _ _ Hk). apply (Hinj b (Z.to_nat c) k Hk); [|done].
    replace k with pos by lia. done. }
  split; [|split; [done|]].
  - apply index_ok_spec. unfold keys', children'. rewrite Hnc'.
    rewrite !length_insert.
    split; [done|]. split; [done|]. split; [|split; [|split; [|split; [|split; [|split]]]]].
    + intros b k Hb.
      apply list_lookup_insert_Some in Hb as [(_ & <- & _)|(_ & Hb)]; [lia|].
      by eapply Hr.
    + intros b k Hb Hk.
      apply list_lookup_insert_Some in Hb as [(_ & <- & _)|(Nb & Hb)]; [done|].
      rewrite list_lookup_total_insert_ne
        by (symmetry; eapply Hother; eauto).
      by eapply Href.
    + lia.
    + lia.
    + intros b1 b2 k H1 H2 Hk.
      apply list_lookup_insert_Some in H1 as [(_ & ? & _)|(N1 & H1)]; [congruence|].
      apply list_lookup_insert_Some in H2 as [(_ & ? & _)|(N2 & H2)]; [congruence|].
      by eapply Hinj.
    + intros i j y Hi Hj.
      apply list_lookup_insert_Some in Hi as [(_ & ? & _)|(Ni & Hi)]; [done|].
      apply list_lookup_insert_Some in Hj as [(_ & ? & _)|(Nj & Hj)]; [done|].
      by eapply Hnd.
    + intros y Hy. apply elem_of_insert_inv in Hy as [?|Hy]; [done|].
      by apply Hv.
  - intros b Hb. apply is_byte_spec in Hb. unfold assoc, keys', children'.
    destruct (Z.eqb_spec b c) as [->|Hne].
    + by rewrite list_lookup_total_insert_eq by lia.
    + rewrite list_lookup_total_insert_ne by lia.
      destruct (Z.eqb_spec (keys !!! Z.to_nat b) 0) as [|Hk]; [done|].
      rewrite list_lookup_total_insert_ne; [done|]. symmetry.
      eapply (Hother (Z.to_nat b)); [lia| |done].
      apply list_lookup_lookup_total_lt. lia.
Qed.

(** ** Headers *)

Lemma getHeader_setHeader (n : Node) (hd : Header) :
  getHeader (setHeader n hd) = hd.
Proof. by destruct n. Qed.

Lemma copyHeader_Ok (dest src : Node) :
  let len := Z.to_nat (Z.min maxPrefixLen (getPartialLen src)) in
  0 <= getPartialLen src ->
  (len <= length (getPartial src))%nat ->
  (len <= length (getPartial dest))%nat ->
  copyHeader dest src
  = Ok (setHeader dest
          (mkHeader (getPartialLen src) (getNumChildren src)
             (take len (getPartial src) ++ drop len (getPartial dest)))).
Proof.
  intros len Hpl Hs Hd. destruct params_inv as (Hm & _).
  unfold copyHeader. rewrite go_min_spec.
  assert (Eg : getPartial (setPartialLen (setNumChildren dest
                 (getNumChildren src)) (getPartialLen src))
               = getPartial dest) by (by destruct dest).
  rewrite Eg.
  rewrite (slice_Z (getPartial src)) by lia. rewrite bind_Ok.
  rewrite (slice_Z (getPartial dest)) by lia. rewrite bind_Ok.
  fold len. change (Z.to_nat 0) with 0%nat.
  rewrite !drop_0. unfold splice. change (Z.to_nat 0) with 0%nat.
  cbn [take app].
  rewrite go_copy_short by (rewrite !length_take; lia).
  rewrite !length_take, !Nat.min_l by lia.
  rewrite (drop_ge (take len _)) by (rewrite length_take; lia).
  rewrite app_nil_r, length_take, Nat.min_l by lia. simpl.
  by destruct dest.
Qed.

Lemma header_ok_spec (hd : Header) :
  header_ok hd = true <->
  length (partial hd) = Z.to_nat maxPrefixLen /\ 0 <= partialLen hd.
Proof. unfold header_ok. rewrite andb_true_iff, Nat.eqb_eq, Z.leb_le. tauto. Qed.

(** The header a promoted or demoted node takes over from [src]. *)
Lemma copied_header_ok (hd : Header) (k : Z) :
  let len := Z.to_nat (Z.min maxPrefixLen (partialLen hd)) in
  header_ok hd = true ->
  header_ok (mkHeader (partialLen hd) k
               (take len (partial hd)
                  ++ drop len (replicate (Z.to_nat maxPrefixLen) 0))) = true.
Proof.
  intros len Hok. apply header_ok_spec in Hok as [Hl Hp].
  apply header_ok_spec. simpl. split; [|done].
  rewrite length_app, length_take, length_drop, length_replicate. lia.
Qed.

(** ** The store *)

Lemma sorted_ok_mono (cap sz sz' : nat) (hd : Header) (keys : list Z)
    (children : list ptr) :
  (sz <= sz')%nat -> sorted_ok cap sz hd keys children = true ->
  sorted_ok cap sz' hd keys children = true.
Proof.
  intros Hsz H. apply sorted_ok_spec in H. apply sorted_ok_spec.
  destruct H as (? & ? & ? & ? & ? & ? & ? & Hv).
  repeat split; try done; try lia.
  intros a Ha. specialize (Hv a Ha). lia.
Qed.

Lemma index_ok_mono (sz sz' : nat) (hd : Header) (keys : list Z)
    (children : list ptr) :
  (sz <= sz')%nat -> index_ok sz hd keys children = true ->
  index_ok sz' hd keys children = true.
Proof.
  intros Hsz. rewrite !index_ok_spec.
  intros (? & ? & ? & ? & ? & ? & ? & ? & Hv).
  split_and!; try done.
  intros a Ha. specialize (Hv a Ha). lia.
Qed.

Lemma direct_ok_mono (sz sz' : nat) (hd : Header) (children : list ptr) :
  (sz <= sz')%nat -> direct_ok sz hd children = true ->
  direct_ok sz' hd children = true.
Proof.
  intros Hsz. rewrite !direct_ok_spec.
  intros (? & ? & ? & Hv). split_and!; try done.
  intros a Ha. specialize (Hv a Ha). lia.
Qed.

Lemma node_ok_mono (sz sz' : nat) (n : Node) :
  (sz <= sz')%nat -> node_ok sz n = true -> node_ok sz' n = true.
Proof.
  intros Hsz. destruct n; simpl; [done| | | |];
    rewrite !andb_true_iff; intros [? ?]; split; try done;
    eauto using sorted_ok_mono, index_ok_mono, direct_ok_mono.
Qed.

Lemma heap_ok_lookup (h : list Node) (a : nat) (n : Node) :
  heap_ok h = true -> h !! a = Some n -> node_ok (length h) n = true.
Proof.
  unfold heap_ok. rewrite forallb_lookup. intros H Ha. by eapply H.
Qed.

Lemma heap_ok_insert (h : list Node) (a : nat) (n : Node) :
  heap_ok h = true -> node_ok (length h) n = true ->
  heap_ok (<[a := n]> h) = true.
Proof.
  unfold heap_ok. rewrite !forallb_lookup, length_insert. intros H Hn i x Hi.
  apply list_lookup_insert_Some in Hi as [(_ & <- & _)|(_ & Hi)]; [done|].
  by eapply H.
Qed.

Lemma heap_ok_snoc (h : list Node) (n : Node) :
  heap_ok h = true -> node_ok (S (length h)) n = true ->
  heap_ok (h ++ [n]) = true.
Proof.
  unfold heap_ok. rewrite !forallb_lookup, length_app. simpl.
  rewrite Nat.add_1_r. intros H Hn i x Hi.
  apply lookup_app_Some in Hi as [Hi|[_ Hi]].
  - eapply node_ok_mono; [|by eapply H]. lia.
  - apply list_lookup_singleton_Some in Hi as [_ <-]. done.
Qed.

(** ** Adding to a [Node4] or [Node16] *)

Lemma find_entry_inv (lk : list Z) (lc : list ptr) (b : Z) :
  length lk = length lc ->
  (find_entry lk lc b = None /\ b ∉ lk)
  \/ (exists i, lk !! i = Some b /\ lc !! i = Some (find_entry lk lc b)).
Proof.
  intros Hlen. unfold find_entry.
  destruct (scan_up_spec (fun i => lk !!! i =? b) 0 (length lk))
    as (H1 & H2 & H3).
  set (r := scan_up (fun i => lk !!! i =? b) 0 (length lk)) in *.
  destruct (Nat.ltb_spec r (length lk)) as [Hr|Hr].
  - right. exists r. specialize (H3 ltac:(lia)). apply Z.eqb_eq in H3.
    split.
    + rewrite <- H3. apply list_lookup_lookup_total_lt. lia.
    + apply list_lookup_lookup_total_lt. lia.
  - left. split; [done|]. intros Hin.
    apply list_elem_of_lookup in Hin as [j Hj].
    assert (Hlt : (j < length lk)%nat) by (by eapply lookup_lt_Some).
    specialize (H2 j ltac:(lia)). apply Z.eqb_neq in H2.
    apply H2. by apply list_lookup_total_correct.
Qed.

Lemma find_entry_None (lk : list Z) (lc : list ptr) (b : Z) :
  length lk = length lc -> (forall p, p ∈ lc -> p <> None) ->
  find_entry lk lc b = None -> b ∉ lk.
Proof.
  intros Hlen Hocc E. destruct (find_entry_inv lk lc b Hlen)
    as [[_ ?]|(i & _ & Hi)]; [done|].
  rewrite E in Hi. exfalso. apply (Hocc None); [|done].
  by eapply list_elem_of_lookup_2.
Qed.

Lemma same_added (n m n' : Node) (c : Z) (child : nat) :
  getPartialLen m = getPartialLen n -> explicit m = explicit n ->
  getNumChildren m = getNumChildren n ->
  (forall b, is_byte b = true -> assoc m b = assoc n b) ->
  added m n' c child -> added n n' c child.
Proof.
  intros E1 E2 E3 E4 (A1 & A2 & A3 & A4). unfold added.
  rewrite A1, A2, A3, E1, E2, E3. split_and!; try done.
  intros b Hb. rewrite A4 by done. by rewrite E4.
Qed.

Lemma same_removed (n m n' : Node) (c : Z) :
  getPartialLen n' = getPartialLen m -> explicit n' = explicit m ->
  getNumChildren n' = getNumChildren m ->
  (forall b, is_byte b = true -> assoc n' b = assoc m b) ->
  removed n m c -> removed n n' c.
Proof.
  intros E1 E2 E3 E4 (A1 & A2 & A3 & A4). unfold removed.
  rewrite E1, E2, E3. split_and!; try done.
  intros b Hb. rewrite E4 by done. by apply A4.
Qed.

Lemma install_store (st : state) (m n' : Node) :
  store (install st m).1 (length (st_heap st)) n' = (install st n').1.
Proof.
  unfold store, install. simpl. f_equal.
  rewrite insert_app_r_alt by lia. by rewrite Nat.sub_diag.
Qed.

Lemma addChild4_inplace (sz : nat) (st : state) (a : nat) (hd : Header)
    (keys : list Z) (children : list ptr) (c : Z) (child : nat) :
  let nc := Z.to_nat (numChildren hd) in
  st_heap st !! a = Some (Node4 hd keys children) ->
  header_ok hd = true -> sorted_ok 4 sz hd keys children = true ->
  numChildren hd < 4 -> is_byte c = true ->
  c ∉ take nc keys -> Some child ∉ take nc children -> (child < sz)%nat ->
  exists n', addChild4 st a c child = Ok (store st a n')
    /\ getArtNodeType n' = node4 /\ node_ok sz n' = true
    /\ added (Node4 hd keys children) n' c child.
Proof.
  intros nc Ha Hh Hok Hlt Hc Hfresh Hnew Hsz.
  pose proof Hok as Hok'.
  apply sorted_ok_spec in Hok' as (Lk & Lc & Hnc & _).
  eexists. split; [apply addChild4_small; (done || lia)|].
  destruct (sorted_insert_ok 4 sz hd keys children c child)
    as (S1 & S2 & S3); try done; try lia.
  split; [done|]. split.
  { simpl. rewrite S1, andb_true_r. done. }
  unfold added. split_and!; try done.
  intros b Hb. simpl.
  replace (Z.to_nat (incr (numChildren hd))) with (S nc)
    by (simpl in S2; rewrite S2; unfold nc; lia).
  apply S3.
Qed.

Lemma addChild16_inplace (sz : nat) (st : state) (a : nat) (hd : Header)
    (keys : list Z) (children : list ptr) (c : Z) (child : nat) :
  let nc := Z.to_nat (numChildren hd) in
  st_heap st !! a = Some (Node16 hd keys children) ->
  header_ok hd = true -> sorted_ok 16 sz hd keys children = true ->
  numChildren hd < 16 -> is_byte c = true ->
  c ∉ take nc keys -> Some child ∉ take nc children -> (child < sz)%nat ->
  exists n', addChild16 st a c child = Ok (store st a n')
    /\ getArtNodeType n' = node16 /\ node_ok sz n' = true
    /\ added (Node16 hd keys children) n' c child.
Proof.
  intros nc Ha Hh Hok Hlt Hc Hfresh Hnew Hsz.
  pose proof Hok as Hok'.
  apply sorted_ok_spec in Hok' as (Lk & Lc & Hnc & _).
  eexists. split; [apply addChild16_small; (done || lia)|].
  destruct (sorted_insert_ok 16 sz hd keys children c child)
    as (S1 & S2 & S3); try done; try lia.
  split; [done|]. split.
  { simpl. rewrite S1, andb_true_r. done. }
  unfold added. split_and!; try done.
  intros b Hb. simpl.
  replace (Z.to_nat (incr (numChildren hd))) with (S nc)
    by (simpl in S2; rewrite S2; unfold nc; lia).
  apply S3.
Qed.

(** [copyHeader] into a node that carries the header [allocNode] gives. *)
Lemma copyHeader_fresh (dest n : Node) :
  let len := Z.to_nat (Z.min maxPrefixLen (getPartialLen n)) in
  getPartial dest = replicate (Z.to_nat maxPrefixLen) 0 ->
  header_ok (getHeader n) = true ->
  copyHeader dest n
  = Ok (setHeader dest
          (mkHeader (getPartialLen n) (getNumChildren n)
             (take len (getPartial n)
                ++ drop len (replicate (Z.to_nat maxPrefixLen) 0)))).
Proof.
  intros len Ep Hh. apply header_ok_spec in Hh as [Hl Hp].
  destruct params_inv as (Hm & _).
  rewrite copyHeader_Ok.
  - by rewrite Ep.
  - done.
  - unfold getPartial. lia.
  - rewrite Ep, length_replicate. lia.
Qed.

Lemma addChild4_full (st : state) (a : nat) (hd : Header) (keys : list Z)
    (children : list ptr) (c : Z) (child : nat) :
  let len := Z.to_nat (Z.min maxPrefixLen (partialLen hd)) in
  let hd' := mkHeader (partialLen hd) (numChildren hd)
               (take len (partial hd)
                  ++ drop len (replicate (Z.to_nat maxPrefixLen) 0)) in
  st_heap st !! a = Some (Node4 hd keys children) ->
  length keys = 4%nat -> length children = 4%nat ->
  numChildren hd = 4 -> header_ok hd = true ->
  addChild4 st a c child
  = addChild16
      (install st (Node16 hd' (keys ++ replicate 12 0)
                     (children ++ replicate 12 None))).1
      (length (st_heap st)) c child.
Proof.
  intros len hd' Ha Lk Lc Hnc Hh. unfold addChild4. rewrite Ha, Hnc.
  change (4 <? 4) with false. cbv iota.
  rewrite (slice_Z children) by lia. rewrite bind_Ok.
  rewrite (slice_Z keys) by lia. rewrite bind_Ok.
  change (Z.to_nat 0) with 0%nat. change (Z.to_nat 4) with 4%nat.
  rewrite !drop_0, (take_ge keys), (take_ge children) by lia.
  assert (E : setKeys (setChildren (allocNode node16)
                (go_copy (getChildren (allocNode node16)) children))
                (go_copy (getKeys (setChildren (allocNode node16)
                   (go_copy (getChildren (allocNode node16)) children))) keys)
              = setChildren (setKeys (allocNode node16)
                  (keys ++ replicate 12 0)) (children ++ replicate 12 None)).
  { simpl. rewrite !go_copy_short by (simpl; lia). rewrite Lk, Lc. done. }
  rewrite E. clear E.
  rewrite copyHeader_fresh by done. rewrite bind_Ok. done.
Qed.

Lemma explicit_copied (m n : Node) (rest : list Z) :
  getPartialLen m = getPartialLen n ->
  getPartial m
  = take (Z.to_nat (Z.min maxPrefixLen (getPartialLen n))) (getPartial n)
      ++ rest ->
  header_ok (getHeader n) = true ->
  explicit m = explicit n.
Proof.
  intros E1 E2 Hh. unfold explicit. rewrite E1, E2.
  apply header_ok_spec in Hh as [Hl Hp]. destruct params_inv as (Hm & _).
  unfold getPartial, getPartialLen in *.
  rewrite take_app_le by (rewrite length_take; lia).
  rewrite take_take. f_equal. lia.
Qed.

Lemma sorted_ok_widen (sz : nat) (hd hd' : Header) (keys : list Z)
    (children : list ptr) :
  sorted_ok 4 sz hd keys children = true ->
  numChildren hd = 4 -> numChildren hd' = 4 ->
  sorted_ok 16 sz hd' (keys ++ replicate 12 0)
    (children ++ replicate 12 None) = true.
Proof.
  intros Hok Hnc Hnc'. apply sorted_ok_spec in Hok.
  destruct Hok as (Lk & Lc & _ & Hb & Hs & Ho & Hnd & Hv).
  apply sorted_ok_spec. rewrite Hnc in *. rewrite Hnc'.
  change (Z.to_nat 4) with 4%nat in *.
  rewrite !take_app_le, !(take_ge _ 4) in * by lia.
  rewrite !length_app, !length_replicate, Lk, Lc.
  split_and!; try done; try lia.
  intros k Hk. apply elem_of_app in Hk as [Hk|Hk]; [by apply Hb|].
  apply elem_of_replicate in Hk as [-> _]. done.
Qed.

Lemma addChild4_spec (st : state) (a : nat) (hd : Header) (keys : list Z)
    (children : list ptr) (c : Z) (child : nat) :
  let n := Node4 hd keys children in
  st_heap st !! a = Some n ->
  node_ok (length (st_heap st)) n = true ->
  is_byte c = true -> childOf n c = Ok None ->
  (child < length (st_heap st))%nat -> child ∉ live (entries n) ->
  exists st' n',
    addChild4 st a c child = Ok st'
    /\ added n n' c child
    /\ node_ok (length (st_heap st')) n' = true
    /\ if exhausted n
       then st' = (install st n').1 /\ getArtNodeType n' = node16
       else st' = store st a n' /\ getArtNodeType n' = node4.
Proof.
  intros n Ha Hok Hc Habs Hsz Hnew. unfold n in *. simpl in Hok.
  apply andb_true_iff in Hok as [Hh Hok]. pose proof Hok as Hok'.
  apply sorted_ok_spec in Hok' as (Lk & Lc & Hnc & _ & _ & Ho & _).
  rewrite childOf_Node4 in Habs by (done || lia).
  injection Habs as Habs.
  apply find_entry_None in Habs;
    [|rewrite !length_take; lia|done].
  simpl in Hnew. rewrite elem_of_live in Hnew.
  simpl. destruct (Z.eqb_spec (numChildren hd) 4) as [E|E].
  - rewrite (addChild4_full st a hd keys children) by done.
    match goal with
    | |- context [Node16 ?h ?k ?ch] => set (hd' := h); set (ks := k); set (cs := ch)
    end.
    set (N := Node16 hd' ks cs).
    destruct (addChild16_inplace (S (length (st_heap st))) (install st N).1
                (length (st_heap st)) hd' ks cs c child)
      as (n' & E1 & E2 & E3 & E4).
    + simpl. by rewrite lookup_app_r, Nat.sub_diag by lia.
    + by apply (copied_header_ok hd).
    + eapply sorted_ok_widen; [|done|done].
      eapply sorted_ok_mono; [|done]. lia.
    + simpl. lia.
    + done.
    + simpl. rewrite E in *. change (Z.to_nat 4) with 4%nat in *.
      unfold ks. rewrite take_app_le by lia. done.
    + simpl. rewrite E in *. change (Z.to_nat 4) with 4%nat in *.
      unfold cs. rewrite take_app_le by lia. done.
    + lia.
    + exists (install st n').1, n'. rewrite E1, install_store.
      split; [done|]. split.
      { eapply same_added; [| | | |exact E4]; try done.
        - by eapply explicit_copied.
        - intros b _. simpl. rewrite E. change (Z.to_nat 4) with 4%nat.
          unfold ks, cs. by rewrite !take_app_le by lia. }
      split; [|done]. simpl. rewrite length_app. simpl.
      by rewrite Nat.add_1_r.
  - destruct (addChild4_inplace (length (st_heap st)) st a hd keys children
                c child) as (n' & E1 & E2 & E3 & E4); try done; try lia.
    exists (store st a n'), n'. split; [done|]. split; [done|].
    split; [|done]. simpl. by rewrite length_insert.
Qed.

(** ** From a [Node16] to a [Node48] *)

(** The loop that builds the 256-entry index from the keys of a [Node16]. *)
Lemma index_of_keys (keys : list Z) (n : nat) :
  (n <= length keys)%nat -> (n < 256)%nat ->
  (forall k, k ∈ take n keys -> is_byte k = true) ->
  NoDup (take n keys) ->
  exists ks,
    for_range (fun i ks =>
                 k ← zget keys (Z.of_nat i);
                 zset ks k (to_byte (Z.of_nat i + 1)))
      0 n (replicate 256 0) = Ok ks
    /\ length ks = 256%nat
    /\ (forall j b, (j < n)%nat -> keys !! j = Some b ->
          ks !! Z.to_nat b = Some (Z.of_nat j + 1))
    /\ (forall b k, ks !! b = Some k -> k <> 0 ->
          exists j, (j < n)%nat /\ k = Z.of_nat j + 1
                    /\ keys !! j = Some (Z.of_nat b))
    /\ countb nonzero ks = n.
Proof.
  intros Hn Hn' Hb Hnd.
  assert (Hinj : forall i j b, (i < n)%nat -> (j < n)%nat ->
            keys !! i = Some b -> keys !! j = Some b -> i = j).
  { intros i j b Hi Hj Ei Ej.
    apply (NoDup_lookup (take n keys) i j b Hnd);
      by rewrite lookup_take_lt. }
  assert (Hbyte : forall j b, (j < n)%nat -> keys !! j = Some b ->
            0 <= b < 256).
  { intros j b Hj Eb. apply is_byte_spec, Hb.
    apply (list_elem_of_lookup_2 _ j). by rewrite lookup_take_lt. }
  pose (P := fun (i : nat) (ks : list Z) =>
    length ks = 256%nat
    /\ (forall j b, (j < i)%nat -> keys !! j = Some b ->
          ks !! Z.to_nat b = Some (Z.of_nat j + 1))
    /\ (forall b k, ks !! b = Some k -> k <> 0 ->
          exists j, (j < i)%nat /\ k = Z.of_nat j + 1
                    /\ keys !! j = Some (Z.of_nat b))
    /\ countb nonzero ks = i).
  destruct (for_range_inv
              (fun i ks => k ← zget keys (Z.of_nat i);
                           zset ks k (to_byte (Z.of_nat i + 1)))
              P 0 n (replicate 256 0)) as (ks & E & HP).
  - unfold P. split_and!.
    + by rewrite length_replicate.
    + intros; lia.
    + intros b k Hk Hne. apply lookup_replicate in Hk as [-> _]. done.
    + by apply countb_replicate_false.
  - intros j ks Hj (Lks & H1 & H2 & H3).
    destruct (lookup_lt_is_Some_2 keys j) as [b Eb]; [lia|].
    pose proof (Hbyte j b ltac:(lia) Eb) as Hbb.
    exists (<[Z.to_nat b := Z.of_nat j + 1]> ks). split.
    { rewrite (zget_Some keys j b Eb), bind_Ok.
      rewrite (zset_Z ks) by lia. by rewrite to_byte_small by lia. }
    unfold P. rewrite length_insert. split_and!.
    + done.
    + intros j' b' Hj' Eb'. destruct (decide (j' = j)) as [->|Hne].
      * assert (b' = b) by congruence. subst b'.
        apply list_lookup_insert_eq. lia.
      * assert (b' <> b).
        { intros ->. apply Hne. apply (Hinj j' j b); (done || lia). }
        pose proof (Hbyte j' b' ltac:(lia) Eb').
        rewrite list_lookup_insert_ne by lia. apply H1; [lia | done].
    + intros b0 k Hk Hne.
      apply list_lookup_insert_Some in Hk as [(Eb0 & Ek & _)|(Hb0 & Hk)].
      * exists j. split; [lia|]. split; [done|].
        rewrite <- Eb0, Z2Nat.id by lia. done.
      * destruct (H2 b0 k Hk Hne) as (j' & ? & ? & ?).
        exists j'. split; [lia | done].
    + destruct (lookup_lt_is_Some_2 ks (Z.to_nat b)) as [x Ex]; [lia|].
      assert (x = 0).
      { destruct (Z.eq_dec x 0) as [|Hx]; [done|].
        destruct (H2 _ _ Ex Hx) as (j' & Hj' & _ & Ej').
        rewrite Z2Nat.id in Ej' by lia.
        assert (j' = j) by (apply (Hinj j' j b); (done || lia)). lia. }
      subst x.
      pose proof (countb_insert nonzero ks (Z.to_nat b) 0 (Z.of_nat j + 1) Ex)
        as Hc.
      assert (nonzero (Z.of_nat j + 1) = true) by (apply nonzero_spec; lia).
      rewrite H in Hc. simpl in Hc. lia.
  - exists ks. split; [done|]. exact HP.
Qed.

Lemma addChild16_full (st : state) (a : nat) (hd : Header) (keys : list Z)
    (children : list ptr) (c : Z) (child : nat) (ks : list Z) :
  let len := Z.to_nat (Z.min maxPrefixLen (partialLen hd)) in
  let hd' := mkHeader (partialLen hd) (numChildren hd)
               (take len (partial hd)
                  ++ drop len (replicate (Z.to_nat maxPrefixLen) 0)) in
  st_heap st !! a = Some (Node16 hd keys children) ->
  length children = 16%nat ->
  numChildren hd = 16 -> header_ok hd = true ->
  for_range (fun i ks =>
               k ← zget keys (Z.of_nat i);
               zset ks k (to_byte (Z.of_nat i + 1)))
    0 16 (replicate 256 0) = Ok ks ->
  addChild16 st a c child
  = addChild48
      (install st (Node48 hd' ks (children ++ replicate 32 None))).1
      (length (st_heap st)) c child.
Proof.
  intros len hd' Ha Lc Hnc Hh Hks. unfold addChild16. rewrite Ha, Hnc.
  change (16 <? 16) with false. cbv iota.
  rewrite (slice_Z children) by lia. rewrite bind_Ok.
  change (Z.to_nat 0) with 0%nat. change (Z.to_nat 16) with 16%nat.
  rewrite drop_0, (take_ge children) by lia.
  change (getChildren (allocNode node48)) with (replicate 48 (@None nat)).
  rewrite go_copy_short by (rewrite length_replicate; lia).
  rewrite Lc, drop_replicate. change (48 - 16)%nat with 32%nat.
  change (getKeys (setChildren (allocNode node48)
            (children ++ replicate 32 None))) with (replicate 256 0).
  rewrite Hks, bind_Ok.
  rewrite copyHeader_fresh by done. rewrite bind_Ok. done.
Qed.

Lemma index_ok_of_sorted (sz : nat) (hd hd' : Header) (keys ks : list Z)
    (children : list ptr) :
  sorted_ok 16 sz hd keys children = true ->
  numChildren hd = 16 -> numChildren hd' = 16 ->
  length ks = 256%nat ->
  (forall j b, (j < 16)%nat -> keys !! j = Some b ->
     ks !! Z.to_nat b = Some (Z.of_nat j + 1)) ->
  (forall b k, ks !! b = Some k -> k <> 0 ->
     exists j, (j < 16)%nat /\ k = Z.of_nat j + 1
               /\ keys !! j = Some (Z.of_nat b)) ->
  countb nonzero ks = 16%nat ->
  index_ok sz hd' ks (children ++ replicate 32 None) = true
  /\ forall b, is_byte b = true ->
       assoc (Node48 hd' ks (children ++ replicate 32 None)) b
       = assoc (Node16 hd keys children) b.
Proof.
  intros Hok Hnc Hnc' Lks H1 H2 H3. apply sorted_ok_spec in Hok.
  destruct Hok as (Lk & Lc & _ & Hb & Hs & Ho & Hnd & Hv).
  rewrite Hnc in *. change (Z.to_nat 16) with 16%nat in *.
  rewrite !(take_ge _ 16) in * by lia.
  assert (Hcs : forall j, (j < 16)%nat ->
            (children ++ replicate 32 None) !!! j = children !!! j).
  { intros j Hj. apply lookup_total_app_l. lia. }
  assert (Hcl : forall i p, (children ++ replicate 32 None) !! i = Some (Some p)
            -> children !! i = Some (Some p)).
  { intros i p Hi. apply lookup_app_Some in Hi as [Hi|[_ Hi]]; [done|].
    apply lookup_replicate in Hi as [? _]. done. }
  split.
  - apply index_ok_spec. rewrite Hnc'. split_and!.
    + done.
    + rewrite length_app, length_replicate. lia.
    + intros b k Hk. destruct (Z.eq_dec k 0) as [->|Hne]; [lia|].
      destruct (H2 b k Hk Hne) as (j & ? & -> & _). lia.
    + intros b k Hk Hne. destruct (H2 b k Hk Hne) as (j & Hj & -> & Ej).
      replace (Z.to_nat (Z.of_nat j + 1 - 1)) with j by lia.
      rewrite Hcs by done. apply Ho.
      destruct (lookup_lt_is_Some_2 children j) as [x Ex]; [lia|].
      rewrite (list_lookup_total_correct _ _ _ Ex).
      by eapply list_elem_of_lookup_2.
    + rewrite H3. done.
    + rewrite countb_app, countb_replicate_false by done.
      rewrite countb_all by (intros x Hx; by apply occupied_spec, Ho). lia.
    + intros b1 b2 k E1 E2 Hne.
      destruct (H2 b1 k E1 Hne) as (j1 & ? & ? & Ej1).
      destruct (H2 b2 k E2 Hne) as (j2 & ? & ? & Ej2).
      assert (j1 = j2) by lia. subst j2.
      assert (Z.of_nat b1 = Z.of_nat b2) by congruence. lia.
    + intros i j p Hi Hj. apply Hcl in Hi. apply Hcl in Hj.
      by apply (NoDup_lookup children i j (Some p)).
    + intros p Hp. apply Hv. apply elem_of_app in Hp as [Hp|Hp]; [done|].
      apply elem_of_replicate in Hp as [? _]. done.
  - intros b Hbb. apply is_byte_spec in Hbb. simpl.
    rewrite Hnc. change (Z.to_nat 16) with 16%nat.
    rewrite !(take_ge _ 16) by lia.
    destruct (lookup_lt_is_Some_2 ks (Z.to_nat b)) as [k Ek]; [lia|].
    rewrite (list_lookup_total_correct _ _ _ Ek).
    destruct (find_entry_inv keys children b ltac:(lia))
      as [[E Hout]|(i & Ei & Ec)].
    + rewrite E. destruct (Z.eqb_spec k 0) as [|Hne]; [done|].
      destruct (H2 _ _ Ek Hne) as (j & _ & _ & Ej).
      rewrite Z2Nat.id in Ej by lia. exfalso. apply Hout.
      by eapply list_elem_of_lookup_2.
    + assert (Hi : (i < 16)%nat)
        by (apply lookup_lt_Some in Ei; lia).
      rewrite (H1 i b Hi Ei) in Ek. injection Ek as <-.
      destruct (Z.eqb_spec (Z.of_nat i + 1) 0); [lia|].
      replace (Z.to_nat (Z.of_nat i + 1 - 1)) with i by lia.
      rewrite Hcs by done. by apply list_lookup_total_correct.
Qed.

Lemma addChild48_inplace (sz : nat) (st : state) (a : nat) (hd : Header)
    (keys : list Z) (children : list ptr) (c : Z) (child : nat) :
  let n := Node48 hd keys children in
  st_heap st !! a = Some n ->
  header_ok hd = true -> index_ok sz hd keys children = true ->
  numChildren hd < 48 -> is_byte c = true ->
  assoc n c = None -> Some child ∉ children -> (child < sz)%nat ->
  exists n', addChild48 st a c child = Ok (store st a n')
    /\ getArtNodeType n' = node48 /\ node_ok sz n' = true
    /\ added n n' c child.
Proof.
  intros n Ha Hh Hok Hlt Hc Habs Hnew Hsz.
  assert (Hz : keys !!! Z.to_nat c = 0).
  { simpl in Habs. destruct (Z.eqb_spec (keys !!! Z.to_nat c) 0) as [|Hne];
      [done|]. exfalso.
    apply index_ok_spec in Hok as (Lk & _ & _ & Href & _).
    apply is_byte_spec in Hc.
    eapply (Href (Z.to_nat c)); [|exact Hne|exact Habs].
    apply list_lookup_lookup_total_lt. lia. }
  destruct (addChild48_ok sz st a hd keys children c child)
    as (E1 & E2 & E3 & E4); try done.
  eexists. split; [exact E1|]. split; [done|]. split.
  { simpl. by rewrite E2, andb_true_r. }
  unfold added. split_and!; try done.
Qed.

Lemma addChild16_spec (st : state) (a : nat) (hd : Header) (keys : list Z)
    (children : list ptr) (c : Z) (child : nat) :
  let n := Node16 hd keys children in
  st_heap st !! a = Some n ->
  node_ok (length (st_heap st)) n = true ->
  is_byte c = true -> childOf n c = Ok None ->
  (child < length (st_heap st))%nat -> child ∉ live (entries n) ->
  exists st' n',
    addChild16 st a c child = Ok st'
    /\ added n n' c child
    /\ node_ok (length (st_heap st')) n' = true
    /\ if exhausted n
       then st' = (install st n').1 /\ getArtNodeType n' = node48
       else st' = store st a n' /\ getArtNodeType n' = node16.
Proof.
  intros n Ha Hok Hc Habs Hsz Hnew. unfold n in *. simpl in Hok.
  apply andb_true_iff in Hok as [Hh Hok]. pose proof Hok as Hok'.
  apply sorted_ok_spec in Hok' as (Lk & Lc & Hnc & Hb & Hs & Ho & _).
  rewrite childOf_Node16 in Habs by (done || lia).
  injection Habs as Habs. pose proof Habs as Hfe.
  apply find_entry_None in Habs;
    [|rewrite !length_take; lia|done].
  simpl in Hnew. rewrite elem_of_live in Hnew.
  simpl. destruct (Z.eqb_spec (numChildren hd) 16) as [E|E].
  - rewrite E in *. change (Z.to_nat 16) with 16%nat in *.
    destruct (index_of_keys keys 16) as (ks & Eks & Lks & K1 & K2 & K3);
      [lia | lia | | |].
    { intros k Hk. apply Hb. by eapply subseteq_take. }
    { by apply StronglySorted_lt_NoDup. }
    rewrite (addChild16_full st a hd keys children c child ks) by done.
    match goal with
    | |- context [Node48 ?h _ _] => set (hd' := h)
    end.
    set (cs := children ++ replicate 32 None).
    set (N := Node48 hd' ks cs).
    destruct (index_ok_of_sorted (length (st_heap st)) hd hd' keys ks children)
      as [I1 I2]; try done.
    destruct (addChild48_inplace (S (length (st_heap st))) (install st N).1
                (length (st_heap st)) hd' ks cs c child)
      as (n' & E1 & E2 & E3 & E4).
    + simpl. by rewrite lookup_app_r, Nat.sub_diag by lia.
    + by apply (copied_header_ok hd).
    + eapply index_ok_mono; [|done]. lia.
    + simpl. lia.
    + done.
    + fold N. unfold N, cs. rewrite I2 by done. simpl. by rewrite E.
    + unfold cs. intros Hin. apply elem_of_app in Hin as [Hin|Hin].
      * apply Hnew. by rewrite take_ge by lia.
      * apply elem_of_replicate in Hin as [? _]. done.
    + lia.
    + exists (install st n').1, n'. rewrite E1, install_store.
      split; [done|]. split.
      { eapply same_added; [| | | |exact E4]; try done.
        by eapply explicit_copied. }
      split; [|done]. simpl. rewrite length_app. simpl.
      by rewrite Nat.add_1_r.
  - destruct (addChild16_inplace (length (st_heap st)) st a hd keys children
                c child) as (n' & E1 & E2 & E3 & E4); try done; try lia.
    exists (store st a n'), n'. split; [done|]. split; [done|].
    split; [|done]. simpl. by rewrite length_insert.
Qed.

(** ** From a [Node48] to a [Node256] *)

Lemma countb_pointwise {A B} (p : A -> bool) (q : B -> bool) (l1 : list A)
    (l2 : list B) :
  length l1 = length l2 ->
  (forall j x y, l1 !! j = Some x -> l2 !! j = Some y -> p x = q y) ->
  countb p l1 = countb q l2.
Proof.
  revert l2. induction l1 as [|x l1 IH]; intros [|y l2] Hlen H; simpl in *;
    try done.
  rewrite (H 0%nat x y) by done. f_equal. apply IH; [lia|].
  intros j x' y' Hx Hy. by apply (H (S j)).
Qed.

(** The loop that spreads the children of a [Node48] over the 256 direct
    slots. *)
Lemma direct_of_index (sz : nat) (hd : Header) (keys : list Z)
    (children : list ptr) :
  index_ok sz hd keys children = true ->
  exists cs,
    for_range (fun i cs =>
                 if negb (keys !!! i =? 0) then
                   p ← zget children (keys !!! i - 1);
                   zset cs (Z.of_nat i) p
                 else Ok cs) 0 256 (replicate 256 None) = Ok cs
    /\ length cs = 256%nat
    /\ forall j, (j < 256)%nat ->
         cs !!! j = if keys !!! j =? 0 then None
                    else children !!! Z.to_nat (keys !!! j - 1).
Proof.
  intros Hok. apply index_ok_spec in Hok as (Lk & Lc & Hr & _).
  pose (f := fun j : nat =>
               if keys !!! j =? 0 then None
               else children !!! Z.to_nat (keys !!! j - 1)).
  pose (P := fun (i : nat) (cs : list ptr) =>
    length cs = 256%nat
    /\ (forall j, (j < i)%nat -> cs !!! j = f j)
    /\ (forall j, (i <= j < 256)%nat -> cs !!! j = None)).
  destruct (for_range_inv
              (fun i cs =>
                 if negb (keys !!! i =? 0) then
                   p ← zget children (keys !!! i - 1);
                   zset cs (Z.of_nat i) p
                 else Ok cs) P 0 256 (replicate 256 None)) as (cs & E & HP).
  - unfold P. split_and!.
    + by rewrite length_replicate.
    + intros; lia.
    + intros j Hj. by rewrite lookup_total_replicate_2 by lia.
  - intros j cs Hj (Lcs & H1 & H2).
    assert (Ej : keys !! j = Some (keys !!! j))
      by (apply list_lookup_lookup_total_lt; lia).
    specialize (Hr _ _ Ej).
    destruct (Z.eqb_spec (keys !!! j) 0) as [Hz|Hnz]; cbn [negb].
    + exists cs. split; [done|]. unfold P. split_and!; [done| |].
      * intros j' Hj'. destruct (decide (j' = j)) as [->|].
        -- rewrite H2 by lia. unfold f.
           by destruct (Z.eqb_spec (keys !!! j) 0).
        -- apply H1. lia.
      * intros j' Hj'. apply H2. lia.
    + set (k := keys !!! j) in *.
      assert (Ec : children !! Z.to_nat (k - 1)
                   = Some (children !!! Z.to_nat (k - 1)))
        by (apply list_lookup_lookup_total_lt; lia).
      exists (<[j := children !!! Z.to_nat (k - 1)]> cs). split.
      { rewrite (zget_Z children (k - 1) _ ltac:(lia) Ec), bind_Ok.
        apply zset_Ok. lia. }
      unfold P. rewrite length_insert. split_and!; [done| |].
      * intros j' Hj'. destruct (decide (j' = j)) as [->|].
        -- rewrite list_lookup_total_insert_eq by lia. unfold f. fold k.
           by destruct (Z.eqb_spec k 0).
        -- rewrite list_lookup_total_insert_ne by done. apply H1. lia.
      * intros j' Hj'. rewrite list_lookup_total_insert_ne by lia.
        apply H2. lia.
  - destruct HP as (Lcs & H1 & _). exists cs. split; [done|].
    split; [done|]. intros j Hj. by apply H1.
Qed.

Lemma direct_ok_of_index (sz : nat) (hd hd' : Header) (keys : list Z)
    (children cs : list ptr) :
  index_ok sz hd keys children = true ->
  numChildren hd' = numChildren hd ->
  length cs = 256%nat ->
  (forall j, (j < 256)%nat ->
     cs !!! j = if keys !!! j =? 0 then None
                else children !!! Z.to_nat (keys !!! j - 1)) ->
  direct_ok sz hd' cs = true
  /\ forall b, is_byte b = true ->
       assoc (Node256 hd' cs) b = assoc (Node48 hd keys children) b.
Proof.
  intros Hok Hnc Lcs Hcs.
  apply index_ok_spec in Hok
    as (Lk & Lc & Hr & Href & Hck & Hcc & Hinj & Hnd & Hv).
  destruct params_inv as (_ & _ & HM).
  assert (Hl : forall j p, cs !! j = Some (Some p) ->
            (j < 256)%nat /\ keys !!! j <> 0
            /\ children !! Z.to_nat (keys !!! j - 1) = Some (Some p)).
  { intros j p Hj.
    assert (Hlt : (j < 256)%nat) by (apply lookup_lt_Some in Hj; lia).
    split; [done|]. apply list_lookup_total_correct in Hj.
    rewrite Hcs in Hj by done.
    destruct (Z.eqb_spec (keys !!! j) 0) as [|Hne]; [done|]. split; [done|].
    assert (Ej : keys !! j = Some (keys !!! j))
      by (apply list_lookup_lookup_total_lt; lia).
    specialize (Hr _ _ Ej).
    apply lookup_of_total; [lia | done]. }
  split.
  - apply direct_ok_spec. split_and!.
    + done.
    + rewrite Hnc, Hck.
      rewrite (countb_pointwise occupied nonzero cs keys).
      * rewrite Z.mod_small; [done|].
        pose proof (countb_le occupied children). lia.
      * lia.
      * intros j x y Ex Ey.
        assert (Hlt : (j < 256)%nat) by (apply lookup_lt_Some in Ex; lia).
        apply list_lookup_total_correct in Ex.
        rewrite Hcs in Ex by done.
        pose proof (list_lookup_total_correct _ _ _ Ey) as Ey'.
        rewrite Ey' in Ex. unfold nonzero.
        destruct (Z.eqb_spec y 0) as [|Hne]; [by subst x|].
        simpl. apply occupied_spec. rewrite <- Ex. by eapply Href.
    + intros i j p Hi Hj.
      destruct (Hl i p Hi) as (Hi1 & Hi2 & Hi3).
      destruct (Hl j p Hj) as (Hj1 & Hj2 & Hj3).
      assert (Ei : keys !! i = Some (keys !!! i))
        by (apply list_lookup_lookup_total_lt; lia).
      assert (Ej : keys !! j = Some (keys !!! j))
        by (apply list_lookup_lookup_total_lt; lia).
      pose proof (Hr _ _ Ei). pose proof (Hr _ _ Ej).
      pose proof (Hnd _ _ _ Hi3 Hj3) as Hk.
      assert (Hkk : keys !!! i = keys !!! j) by lia.
      rewrite Hkk in Ei. by apply (Hinj i j (keys !!! j)).
    + intros p Hp. apply list_elem_of_lookup in Hp as [j Hj].
      destruct (Hl j p Hj) as (_ & _ & H3). apply Hv.
      by eapply list_elem_of_lookup_2.
  - intros b Hb. apply is_byte_spec in Hb. simpl. apply Hcs. lia.
Qed.

Lemma addChild48_full (st : state) (a : nat) (hd : Header) (keys : list Z)
    (children : list ptr) (c : Z) (child : nat) (cs : list ptr) :
  let len := Z.to_nat (Z.min maxPrefixLen (partialLen hd)) in
  let hd' := mkHeader (partialLen hd) (numChildren hd)
               (take len (partial hd)
                  ++ drop len (replicate (Z.to_nat maxPrefixLen) 0)) in
  st_heap st !! a = Some (Node48 hd keys children) ->
  numChildren hd = 48 -> header_ok hd = true ->
  for_range (fun i cs =>
               if negb (keys !!! i =? 0) then
                 p ← zget children (keys !!! i - 1);
                 zset cs (Z.of_nat i) p
               else Ok cs) 0 256 (replicate 256 None) = Ok cs ->
  addChild48 st a c child
  = addChild256 (install st (Node256 hd' cs)).1 (length (st_heap st)) c child.
Proof.
  intros len hd' Ha Hnc Hh Hcs. unfold addChild48. rewrite Ha, Hnc.
  change (48 <? 48) with false. cbv iota.
  change (getChildren (allocNode node256)) with (replicate 256 (@None nat)).
  rewrite Hcs, bind_Ok.
  rewrite copyHeader_fresh by done. rewrite bind_Ok. done.
Qed.

Lemma addChild256_inplace (sz : nat) (st : state) (a : nat) (hd : Header)
    (children : list ptr) (c : Z) (child : nat) :
  let n := Node256 hd children in
  st_heap st !! a = Some n ->
  header_ok hd = true -> direct_ok sz hd children = true ->
  is_byte c = true ->
  assoc n c = None -> Some child ∉ children -> (child < sz)%nat ->
  exists n', addChild256 st a c child = Ok (store st a n')
    /\ getArtNodeType n' = node256 /\ node_ok sz n' = true
    /\ added n n' c child.
Proof.
  intros n Ha Hh Hok Hc Habs Hnew Hsz.
  destruct (addChild256_ok sz st a hd children c child)
    as (E1 & E2 & E3); try done.
  eexists. split; [exact E1|]. split; [done|]. split.
  { simpl. by rewrite E2, andb_true_r. }
  unfold added. split_and!; try done.
  intros b Hb. simpl. rewrite E3.
  apply is_byte_spec in Hb. apply is_byte_spec in Hc.
  destruct (Nat.eqb_spec (Z.to_nat b) (Z.to_nat c)) as [E|E];
    destruct (Z.eqb_spec b c); (done || lia).
Qed.

Lemma addChild48_spec (st : state) (a : nat) (hd : Header) (keys : list Z)
    (children : list ptr) (c : Z) (child : nat) :
  let n := Node48 hd keys children in
  st_heap st !! a = Some n ->
  node_ok (length (st_heap st)) n = true ->
  is_byte c = true -> childOf n c = Ok None ->
  (child < length (st_heap st))%nat -> child ∉ live (entries n) ->
  exists st' n',
    addChild48 st a c child = Ok st'
    /\ added n n' c child
    /\ node_ok (length (st_heap st')) n' = true
    /\ if exhausted n
       then st' = (install st n').1 /\ getArtNodeType n' = node256
       else st' = store st a n' /\ getArtNodeType n' = node48.
Proof.
  intros n Ha Hok Hc Habs Hsz Hnew. unfold n in *. simpl in Hok.
  apply andb_true_iff in Hok as [Hh Hok].
  rewrite (childOf_Node48 _ _ _ _ _ Hok Hc) in Habs. injection Habs as Habs.
  simpl in Hnew. rewrite elem_of_live in Hnew.
  assert (Hle : numChildren hd <= 48).
  { pose proof Hok as Hok'.
    apply index_ok_spec in Hok' as (_ & Lc & _ & _ & _ & Hcc & _).
    pose proof (countb_le occupied children). lia. }
  cbn [exhausted]. destruct (Z.eqb_spec (numChildren hd) 48) as [E|E].
  - destruct (direct_of_index _ _ _ _ Hok) as (cs & Ecs & Lcs & Hcs).
    rewrite (addChild48_full st a hd keys children c child cs) by done.
    match goal with
    | |- context [Node256 ?h _] => set (hd' := h)
    end.
    set (N := Node256 hd' cs).
    destruct (direct_ok_of_index (length (st_heap st)) hd hd' keys children cs)
      as [I1 I2]; try done.
    destruct (addChild256_inplace (S (length (st_heap st))) (install st N).1
                (length (st_heap st)) hd' cs c child)
      as (n' & E1 & E2 & E3 & E4).
    + simpl. by rewrite lookup_app_r, Nat.sub_diag by lia.
    + by apply (copied_header_ok hd).
    + eapply direct_ok_mono; [|done]. lia.
    + done.
    + fold N. unfold N. by rewrite I2.
    + intros Hin. apply list_elem_of_lookup in Hin as [j Hj].
      assert (Hlt : (j < 256)%nat) by (apply lookup_lt_Some in Hj; lia).
      apply list_lookup_total_correct in Hj. rewrite Hcs in Hj by done.
      destruct (keys !!! j =? 0); [done|]. apply Hnew. rewrite <- Hj.
      apply list_elem_of_lookup_total_2.
      apply index_ok_spec in Hok as (Lk & Lc & Hr & _).
      assert (Ej : keys !! j = Some (keys !!! j))
        by (apply list_lookup_lookup_total_lt; lia).
      specialize (Hr _ _ Ej). lia.
    + lia.
    + exists (install st n').1, n'. rewrite E1, install_store.
      split; [done|]. split.
      { eapply same_added; [| | | |exact E4]; try done.
        by eapply explicit_copied. }
      split; [|done]. simpl. rewrite length_app. simpl.
      by rewrite Nat.add_1_r.
  - destruct (addChild48_inplace (length (st_heap st)) st a hd keys children
                c child) as (n' & E1 & E2 & E3 & E4); try done; try lia.
    exists (store st a n'), n'. split; [done|]. split; [done|].
    split; [|done]. simpl. by rewrite length_insert.
Qed.

(** ** [addChild] on every variant *)

Lemma addChild_spec (st : state) (a : nat) (n : Node) (c : Z) (child : nat) :
  st_heap st !! a = Some n ->
  node_ok (length (st_heap st)) n = true ->
  isLeaf n = false -> is_byte c = true -> childOf n c = Ok None ->
  (child < length (st_heap st))%nat -> child ∉ live (entries n) ->
  exists st' n',
    addChild st a c child = Ok st'
    /\ added n n' c child
    /\ node_ok (length (st_heap st')) n' = true
    /\ if exhausted n
       then st' = (install st n').1
            /\ getArtNodeType n' = grow (getArtNodeType n)
       else st' = store st a n' /\ getArtNodeType n' = getArtNodeType n.
Proof.
  intros Ha Hok Hl Hc Habs Hsz Hnew. unfold addChild. rewrite Ha.
  destruct n as [hd v kl k|hd keys children|hd keys children|hd keys children
                 |hd children]; [done| | | |].
  - by apply addChild4_spec.
  - by apply addChild16_spec.
  - by apply addChild48_spec.
  - simpl in Hok. apply andb_true_iff in Hok as [Hh Hok].
    pose proof Hok as Hok'. apply direct_ok_spec in Hok' as (Lc & _).
    rewrite childOf_Node256 in Habs by done. injection Habs as Habs.
    simpl in Hnew. rewrite elem_of_live in Hnew.
    destruct (addChild256_inplace (length (st_heap st)) st a hd children
                c child) as (n' & E1 & E2 & E3 & E4); try done.
    exists (store st a n'), n'. split; [done|]. split; [done|].
    split; [|done]. simpl. by rewrite length_insert.
Qed.

(** ** Single-child collapse *)

Lemma collapse_Ok (st : state) (a ca : nat) (hd : Header) (keys : list Z)
    (children : list ptr) (child : Node) :
  let m := Z.to_nat maxPrefixLen in
  let X := take m (take (Z.to_nat (Z.min maxPrefixLen (partialLen hd)))
                     (partial hd)
                   ++ keys !!! 0%nat
                      :: take (Z.to_nat (Z.min maxPrefixLen
                                           (getPartialLen child)))
                           (getPartial child)) in
  children !!! 0%nat = Some ca ->
  st_heap st !! ca = Some child -> isLeaf child = false ->
  header_ok hd = true -> header_ok (getHeader child) = true ->
  collapse st a hd keys children
  = Ok (mkState
          (<[ca := setPartialLen
                     (setPartial child
                        (X ++ drop (length X) (getPartial child)))
                     ((getPartialLen child + partialLen hd + 1)
                        mod partialLenMod)]>
             (<[a := Node4 (mkHeader (partialLen hd) (numChildren hd)
                              (X ++ drop (length X) (partial hd)))
                       keys children]> (st_heap st)))
          (Some ca)).
Proof.
  intros m X Hc0 Hca Hleaf Hh Hhc. unfold collapse.
  rewrite Hc0, Hca, Hleaf. cbn [negb].
  apply header_ok_spec in Hh as [Lp HP].
  apply header_ok_spec in Hhc as [Lq HC].
  change (partial (getHeader child)) with (getPartial child) in Lq.
  change (partialLen (getHeader child)) with (getPartialLen child) in HC.
  destruct params_inv as (Hm & _). fold m in Lp, Lq.
  set (p := partial hd) in *. set (q := getPartial child) in *.
  set (P := partialLen hd) in *. set (C := getPartialLen child) in *.
  set (k := keys !!! 0%nat) in *.
  destruct (Z.ltb_spec P maxPrefixLen) as [HPm|HPm].
  - rewrite (zset_Z p) by lia. rewrite !bind_Ok. cbv beta iota.
    rewrite insert_take_drop by lia.
    set (Pn := Z.to_nat P).
    assert (EX : forall j, (Pn + 1 + j <= m)%nat ->
              j = Z.to_nat (Z.min (maxPrefixLen - (P + 1)) C) ->
              X = take Pn p ++ k :: take j q).
    { intros j Hj Ej. unfold X.
      replace (Z.to_nat (Z.min maxPrefixLen P)) with Pn by lia.
      rewrite take_app_ge by (rewrite length_take; lia).
      rewrite length_take, Nat.min_l by lia.
      replace (m - Pn)%nat with (S (m - Pn - 1)) by lia.
      rewrite firstn_cons, take_take. do 3 f_equal. lia. }
    destruct (Z.ltb_spec (P + 1) maxPrefixLen) as [HPm'|HPm'].
    + rewrite go_min_spec. rewrite (slice_Z q) by lia. rewrite bind_Ok.
      change (Z.to_nat 0) with 0%nat. rewrite drop_0.
      set (sub := Z.min C (maxPrefixLen - (P + 1))).
      set (j := Z.to_nat sub).
      unfold copy_into, slice_from.
      rewrite slice_Z
        by (rewrite ?length_app, ?length_take; simpl;
            rewrite ?length_drop; lia).
      rewrite !bind_Ok. cbv beta iota.
      rewrite go_min_spec, Nat2Z.id.
      rewrite firstn_all.
      replace (Z.to_nat (P + 1)) with (S Pn) by lia.
      assert (E1 : take (S Pn) (take Pn p ++ k :: drop (S Pn) p)
                   = take Pn p ++ [k]).
      { rewrite take_app_ge by (rewrite length_take; lia).
        rewrite length_take, Nat.min_l by lia.
        replace (S Pn - Pn)%nat with 1%nat by lia. done. }
      assert (E2 : drop (S Pn) (take Pn p ++ k :: drop (S Pn) p)
                   = drop (S Pn) p).
      { rewrite drop_app_ge by (rewrite length_take; lia).
        rewrite length_take, Nat.min_l by lia.
        replace (S Pn - Pn)%nat with 1%nat by lia. done. }
      rewrite E1, E2.
      rewrite go_copy_short by (rewrite length_take, length_drop; lia).
      rewrite length_take, Nat.min_l by lia. rewrite drop_drop.
      rewrite slice_Z;
        [|lia|rewrite !length_app, !length_take, length_drop; simpl; lia].
      rewrite bind_Ok. change (Z.to_nat 0) with 0%nat. rewrite drop_0.
      replace (Z.to_nat (Z.min (P + 1 + sub) maxPrefixLen))
        with (S Pn + j)%nat by lia.
      rewrite <- !app_assoc. simpl.
      rewrite (EX j) by lia.
      assert (LX : length (take Pn p ++ k :: take j q) = S (Pn + j)).
      { rewrite length_app, length_take. simpl. rewrite length_take. lia. }
      rewrite LX.
      assert (E3 : take (S (Pn + j))
                     (take Pn p ++ k :: take j q ++ drop (S (Pn + j)) p)
                   = take Pn p ++ k :: take j q).
      { rewrite (app_comm_cons _ _ k), app_assoc.
        rewrite take_app_le by lia. rewrite take_ge by lia. done. }
      rewrite E3.
      rewrite go_copy_short by lia. rewrite LX.
      rewrite <- !app_assoc. simpl. done.
    + rewrite bind_Ok. cbv beta iota. rewrite go_min_spec.
      rewrite slice_Z;
        [|lia|rewrite length_app, length_take, length_cons, length_drop; lia].
      rewrite bind_Ok. change (Z.to_nat 0) with 0%nat. rewrite drop_0.
      rewrite (EX 0%nat) by lia.
      assert (Ed : drop (S Pn) p = []) by (apply drop_ge; lia).
      rewrite Ed. rewrite take_0.
      assert (LX : length (take Pn p ++ [k]) = m).
      { rewrite length_app, length_take. simpl. lia. }
      rewrite take_ge by lia.
      rewrite go_copy_short by lia. rewrite LX.
      rewrite (drop_ge p) by lia. rewrite app_nil_r. done.
  - rewrite bind_Ok. cbv beta iota.
    destruct (Z.ltb_spec P maxPrefixLen) as [|_]; [lia|].
    rewrite bind_Ok. cbv beta iota. rewrite go_min_spec.
    rewrite (slice_Z p) by lia. rewrite bind_Ok.
    change (Z.to_nat 0) with 0%nat. rewrite drop_0.
    assert (EX : X = p).
    { unfold X. replace (Z.to_nat (Z.min maxPrefixLen P)) with m by lia.
      rewrite (take_ge p) by lia. rewrite take_app_le by lia.
      apply take_ge. lia. }
    rewrite EX. rewrite take_ge by lia.
    rewrite go_copy_short by lia.
    rewrite !drop_ge by lia. rewrite !app_nil_r.
    by destruct hd.
Qed.

(** ** Removing from a [Node4] or [Node16] *)

Lemma sorted_remove (cap sz : nat) (hd : Header) (keys : list Z)
    (children : list ptr) (c : Z) (l : nat) :
  let nc := Z.to_nat (numChildren hd) in
  sorted_ok cap sz hd keys children = true ->
  find_entry (take nc keys) (take nc children) c = Some l ->
  exists i, (i < nc)%nat /\ keys !! i = Some c
            /\ children !! i = Some (Some l)
            /\ find_pos children (Some l) = Z.of_nat i.
Proof.
  intros nc Hok Hfe. apply sorted_ok_spec in Hok.
  destruct Hok as (Lk & Lc & Hnc & Hb & Hs & Ho & Hnd & Hv). fold nc in Hnd.
  destruct (find_entry_inv (take nc keys) (take nc children) c)
    as [[E _]|(i & Ek & Ec)].
  - rewrite !length_take. lia.
  - congruence.
  - rewrite Hfe in Ec.
    apply lookup_take_Some in Ek as [Ek Hi].
    apply lookup_take_Some in Ec as [Ec _].
    exists i. split_and!; try done.
    apply (find_pos_spec children (Some l) i nc); (done || lia).
Qed.

Lemma removeChild4_eq (st : state) (a : nat) (hd : Header) (keys : list Z)
    (children : list ptr) (l : ptr) (i : nat) :
  let keys' := take i keys ++ drop (S i) keys ++ drop (length keys - 1) keys in
  let children' :=
    take i children ++ drop (S i) children
      ++ drop (length children - 1) children in
  let hd' := mkHeader (partialLen hd) (decr (numChildren hd)) (partial hd) in
  st_heap st !! a = Some (Node4 hd keys children) ->
  find_pos children l = Z.of_nat i ->
  (i < length keys)%nat -> (i < length children)%nat ->
  removeChild4 st a l
  = if numChildren hd' =? 1 then collapse st a hd' keys' children'
    else Ok (store st a (Node4 hd' keys' children')).
Proof.
  intros keys' children' hd' Ha Hpos Hk Hc. unfold removeChild4.
  rewrite Ha, Hpos.
  rewrite (shift_left_Ok keys) by done. rewrite bind_Ok.
  rewrite (shift_left_Ok children) by done. rewrite bind_Ok. done.
Qed.

Lemma sorted_ok_header (cap sz : nat) (hd hd' : Header) (keys : list Z)
    (children : list ptr) :
  numChildren hd' = numChildren hd ->
  sorted_ok cap sz hd' keys children = sorted_ok cap sz hd keys children.
Proof. intros E. unfold sorted_ok. by rewrite E. Qed.

Lemma index_ok_header (sz : nat) (hd hd' : Header) (keys : list Z)
    (children : list ptr) :
  numChildren hd' = numChildren hd ->
  index_ok sz hd' keys children = index_ok sz hd keys children.
Proof. intros E. unfold index_ok. by rewrite E. Qed.

Lemma direct_ok_header (sz : nat) (hd hd' : Header) (children : list ptr) :
  numChildren hd' = numChildren hd ->
  direct_ok sz hd' children = direct_ok sz hd children.
Proof. intros E. unfold direct_ok. by rewrite E. Qed.

Lemma node_ok_reheader (sz : nat) (n : Node) (pl : Z) (pt : list Z) :
  node_ok sz n = true ->
  length pt = Z.to_nat maxPrefixLen -> 0 <= pl ->
  node_ok sz (setPartialLen (setPartial n pt) pl) = true.
Proof.
  intros Hok Lp Hpl.
  assert (Hh : forall k, header_ok (mkHeader pl k pt) = true).
  { intros k. apply header_ok_spec. by split. }
  destruct n as [hd v kl k|hd keys children|hd keys children|hd keys children
                 |hd children]; simpl in *; [done| | | |];
    apply andb_true_iff in Hok as [_ Hok]; rewrite Hh; simpl.
  - by rewrite (sorted_ok_header 4 sz hd).
  - by rewrite (sorted_ok_header 16 sz hd).
  - by rewrite (index_ok_header sz hd).
  - by rewrite (direct_ok_header sz hd).
Qed.

Lemma node_ok_header (sz : nat) (n : Node) :
  node_ok sz n = true -> isLeaf n = false -> header_ok (getHeader n) = true.
Proof.
  destruct n; simpl; [done| | | |]; intros H _;
    by apply andb_true_iff in H as [? _].
Qed.

Lemma merged_length (p q : list Z) (k : Z) (n1 n2 : nat) :
  let X := take (Z.to_nat maxPrefixLen) (take n1 p ++ k :: take n2 q) in
  forall r, length r = Z.to_nat maxPrefixLen ->
  length (X ++ drop (length X) r) = Z.to_nat maxPrefixLen.
Proof.
  intros X r Lr. rewrite length_app, length_drop.
  assert (length X <= Z.to_nat maxPrefixLen)%nat
    by (unfold X; rewrite length_take; lia).
  lia.
Qed.

Lemma removeChild4_spec (st : state) (a : nat) (hd : Header) (keys : list Z)
    (children : list ptr) (c : Z) (l : nat) :
  let n := Node4 hd keys children in
  heap_ok (st_heap st) = true ->
  st_heap st !! a = Some n ->
  childOf n c = Ok (Some l) ->
  exists st', removeChild4 st a (Some l) = Ok st'
              /\ heap_ok (st_heap st') = true.
Proof.
  intros n Hheap Ha Hfe. unfold n in *.
  pose proof (heap_ok_lookup _ _ _ Hheap Ha) as Hok. simpl in Hok.
  apply andb_true_iff in Hok as [Hh Hok]. pose proof Hok as Hok'.
  apply sorted_ok_spec in Hok' as (Lk & Lc & Hnc & _).
  rewrite childOf_Node4 in Hfe by (done || lia). injection Hfe as Hfe.
  destruct (sorted_remove 4 _ hd keys children c l Hok Hfe)
    as (i & Hi & Ek & Ec & Hpos).
  rewrite (removeChild4_eq st a hd keys children (Some l) i) by (done || lia).
  destruct (sorted_delete_ok 4 (length (st_heap st)) hd keys children i)
    as (S1 & S2 & S3); [done | lia | done |].
  set (keys' := take i keys ++ _) in *.
  set (children' := take i children ++ _) in *.
  set (hd' := mkHeader _ _ _) in *.
  assert (Hh' : header_ok hd' = true) by done.
  assert (Hn1 : node_ok (length (st_heap st)) (Node4 hd' keys' children')
                = true).
  { simpl. by rewrite Hh', S1. }
  destruct (Z.eqb_spec (numChildren hd') 1) as [E1|E1].
  - pose proof S1 as S1'.
    apply sorted_ok_spec in S1' as (Lk' & Lc' & _ & _ & _ & Ho' & _ & Hv').
    rewrite E1 in Ho', Hv'. change (Z.to_nat 1) with 1%nat in *.
    destruct (lookup_lt_is_Some_2 children' 0) as [x Ex]; [lia|].
    assert (Hin : x ∈ take 1 children').
    { apply (list_elem_of_lookup_2 _ 0). by rewrite lookup_take_lt by lia. }
    destruct x as [ca|]; [|by specialize (Ho' _ Hin)].
    specialize (Hv' _ Hin).
    destruct (lookup_lt_is_Some_2 (st_heap st) ca) as [child Hca]; [done|].
    pose proof (list_lookup_total_correct _ _ _ Ex) as Ex'.
    destruct (isLeaf child) eqn:Hleaf.
    + unfold collapse. rewrite Ex', Hca, Hleaf. simpl.
      eexists. split; [done|]. simpl. by apply heap_ok_insert.
    + pose proof (heap_ok_lookup _ _ _ Hheap Hca) as Hcok.
      pose proof (node_ok_header _ _ Hcok Hleaf) as Hhc.
      rewrite (collapse_Ok st a ca hd' keys' children' child) by done.
      eexists. split; [done|]. simpl.
      pose proof Hhc as Hhc'. apply header_ok_spec in Hhc' as [Lq _].
      pose proof Hh' as Hh''. apply header_ok_spec in Hh'' as [Lp HP].
      destruct params_inv as (Hm & Hm' & _).
      apply heap_ok_insert.
      * apply heap_ok_insert; [done|]. simpl.
        rewrite (sorted_ok_header 4 _ hd') by done. rewrite S1, andb_true_r.
        apply header_ok_spec. simpl. split; [|done].
        by apply merged_length.
      * rewrite length_insert. apply node_ok_reheader; [done| |].
        -- by apply merged_length.
        -- apply Z.mod_pos_bound. lia.
  - eexists. split; [done|]. simpl. by apply heap_ok_insert.
Qed.

Lemma removeChild16_spec (st : state) (a : nat) (hd : Header)
    (keys : list Z) (children : list ptr) (c : Z) (l : nat) :
  let n := Node16 hd keys children in
  let sz := length (st_heap st) in
  st_heap st !! a = Some n -> node_ok sz n = true ->
  childOf n c = Ok (Some l) ->
  exists st' n1,
    removeChild16 st a (Some l) = Ok st'
    /\ removed n n1 c /\ getArtNodeType n1 = node16
    /\ node_ok sz n1 = true
    /\ if underflown n1
       then exists n', st' = (install (store st a n1) n').1
                       /\ getArtNodeType n' = node4
                       /\ node_ok (S sz) n' = true /\ removed n n' c
       else st' = store st a n1.
Proof.
  intros n sz Ha Hok Hfe. unfold n in *. simpl in Hok.
  apply andb_true_iff in Hok as [Hh Hok]. pose proof Hok as Hok'.
  apply sorted_ok_spec in Hok' as (Lk & Lc & Hnc & _).
  rewrite childOf_Node16 in Hfe by (done || lia). injection Hfe as Hfe.
  destruct (sorted_remove 16 _ hd keys children c l Hok Hfe)
    as (i & Hi & Ek & Ec & Hpos).
  destruct (sorted_delete_ok 16 sz hd keys children i)
    as (S1 & S2 & S3); [done | lia | done |].
  rewrite (list_lookup_total_correct _ _ _ Ek) in S3.
  unfold removeChild16. rewrite Ha, Hpos.
  rewrite (shift_left_Ok keys) by lia. rewrite bind_Ok.
  rewrite (shift_left_Ok children) by lia. rewrite bind_Ok.
  set (keys' := take i keys ++ _) in *.
  set (children' := take i children ++ _) in *.
  set (hd' := mkHeader _ _ _) in *.
  set (n1 := Node16 hd' keys' children').
  assert (Hh' : header_ok hd' = true) by done.
  assert (Hn1 : node_ok sz n1 = true) by (simpl; by rewrite Hh', S1).
  assert (Hrem : removed (Node16 hd keys children) n1 c).
  { unfold removed. split_and!; try done. intros b Hb. simpl.
    replace (Z.to_nat (decr (numChildren hd)))
      with (Z.to_nat (numChildren hd) - 1)%nat
      by (simpl in S2; rewrite S2; lia).
    apply S3. }
  change (decr (numChildren hd)) with (numChildren hd').
  destruct (Z.eqb_spec (numChildren hd') 3) as [E3|E3].
  - pose proof S1 as S1'. apply sorted_ok_spec in S1'.
    destruct S1' as (Lk' & Lc' & _ & Hb' & Hs' & Ho' & Hnd' & Hv').
    rewrite E3 in *. change (Z.to_nat 3) with 3%nat in *.
    rewrite (copyHeader_fresh (allocNode node4) n1) by done.
    rewrite bind_Ok.
    rewrite (slice_Z keys') by lia. rewrite bind_Ok.
    rewrite (slice_Z children') by lia. rewrite bind_Ok.
    change (Z.to_nat 0) with 0%nat. change (Z.to_nat 4) with 4%nat.
    rewrite !drop_0.
    set (hd4 := mkHeader (getPartialLen n1) (getNumChildren n1) _).
    set (N := Node4 hd4 (take 4 keys') (take 4 children')).
    exists (install (store st a n1) N).1, n1. split.
    { change (getKeys (setHeader (allocNode node4) hd4)) with (replicate 4 0).
      rewrite (go_copy_short (replicate 4 0))
        by (rewrite length_take, length_replicate; lia).
      change (getChildren (setKeys (setHeader (allocNode node4) hd4)
                (take 4 keys' ++ drop (length (take 4 keys')) (replicate 4 0))))
        with (replicate 4 (@None nat)).
      rewrite (go_copy_short (replicate 4 None))
        by (rewrite length_take, length_replicate; lia).
      rewrite !length_take, Lk', Lc'. simpl. by rewrite !app_nil_r. }
    split; [done|]. split; [done|]. split; [done|].
    assert (Hu : underflown n1 = true)
      by (unfold n1; cbn [underflown]; apply Z.eqb_eq; exact E3).
    rewrite Hu. exists N. split; [done|]. split; [done|].
    assert (Hnum : numChildren hd4 = 3) by done.
    split.
    + unfold N. cbn [node_ok]. apply andb_true_iff. split.
      { by apply (copied_header_ok hd'). }
      apply sorted_ok_spec. rewrite Hnum. change (Z.to_nat 3) with 3%nat.
      rewrite !take_take, !length_take, Lk', Lc'. simpl.
      split_and!; try done; try lia.
      * intros k Hk. apply Hb'. by eapply subseteq_take.
      * intros p Hp. apply Hv' in Hp. lia.
    + eapply same_removed; [| | | |exact Hrem]; try done.
      * by eapply explicit_copied.
      * intros b Hb. unfold N, n1. cbn [assoc]. rewrite Hnum, E3.
        change (Z.to_nat 3) with 3%nat. by rewrite !take_take.
  - exists (store st a n1), n1. split; [done|].
    split; [done|]. split; [done|]. split; [done|].
    assert (Hu : underflown n1 = false)
      by (unfold n1; cbn [underflown]; by apply Z.eqb_neq).
    by rewrite Hu.
Qed.

(** ** From a [Node48] to a [Node16] *)

Lemma countb_take_le {A} (p : A -> bool) (l : list A) (i : nat) :
  (countb p (take i l) <= countb p l)%nat.
Proof.
  rewrite <- (take_drop i l) at 2. rewrite countb_app. lia.
Qed.

Lemma take_S_insert {A} (l : list A) (n : nat) (x : A) :
  (n < length l)%nat -> take (S n) (<[n := x]> l) = take n l ++ [x].
Proof.
  intros H. rewrite (take_S_r _ n x) by (by apply list_lookup_insert_eq).
  by rewrite take_insert_ge by lia.
Qed.

(** The loop that rebuilds the key and child arrays of a [Node16] from the
    index of a [Node48], going through the key bytes in ascending order. *)
Lemma sorted_of_index (sz : nat) (hd : Header) (keys : list Z)
    (children : list ptr) :
  index_ok sz hd keys children = true -> numChildren hd <= 16 ->
  exists ks cs,
    for_range (fun i '(child, ks, cs) =>
                 let pos := keys !!! i in
                 if negb (pos =? 0) then
                   ks ← zset ks child (to_byte (Z.of_nat i));
                   p ← zget children (to_byte (pos - 1));
                   cs ← zset cs child p;
                   Ok (child + 1, ks, cs)
                 else Ok (child, ks, cs))
      0 256 (0, replicate 16 0, replicate 16 None)
    = Ok (numChildren hd, ks, cs)
    /\ forall hd', numChildren hd' = numChildren hd ->
         sorted_ok 16 sz hd' ks cs = true
         /\ forall b, is_byte b = true ->
              assoc (Node16 hd' ks cs) b = assoc (Node48 hd keys children) b.
Proof.
  intros Hok Hle. apply index_ok_spec in Hok.
  destruct Hok as (Lk & Lc & Hr & Href & Hck & Hcc & Hinj & Hnd & Hv).
  pose (f := fun b : nat => children !!! Z.to_nat (keys !!! b - 1)).
  pose (P := fun (i : nat) (s : Z * list Z * list ptr) =>
    let '(cnt, ks, cs) := s in
    cnt = Z.of_nat (countb nonzero (take i keys))
    /\ length ks = 16%nat /\ length cs = 16%nat
    /\ (forall k, k ∈ ks -> is_byte k = true)
    /\ StronglySorted Z.lt (take (Z.to_nat cnt) ks)
    /\ (forall j, (j < Z.to_nat cnt)%nat ->
          exists b, (b < i)%nat /\ ks !! j = Some (Z.of_nat b)
                    /\ keys !!! b <> 0 /\ cs !! j = Some (f b))
    /\ (forall b, (b < i)%nat -> keys !!! b <> 0 ->
          exists j, (j < Z.to_nat cnt)%nat /\ ks !! j = Some (Z.of_nat b))).
  destruct (for_range_inv
              (fun i '(child, ks, cs) =>
                 let pos := keys !!! i in
                 if negb (pos =? 0) then
                   ks ← zset ks child (to_byte (Z.of_nat i));
                   p ← zget children (to_byte (pos - 1));
                   cs ← zset cs child p;
                   Ok (child + 1, ks, cs)
                 else Ok (child, ks, cs))
              P 0 256 (0, replicate 16 0, replicate 16 None))
    as ([[cnt ks] cs] & E & HP).
  - unfold P. rewrite take_0. simpl. split_and!; try done.
    + intros k Hk. by repeat (apply elem_of_cons in Hk as [->|Hk]; [done|]);
        apply elem_of_nil in Hk.
    + constructor.
    + intros; lia.
    + intros; lia.
  - intros i [[cnt ks] cs] Hi (H0 & L1 & L2 & Hbytes & Hs & H2 & H3).
    assert (Ei : keys !! i = Some (keys !!! i))
      by (apply list_lookup_lookup_total_lt; lia).
    pose proof (countb_take_S nonzero keys i _ Ei) as HcS.
    pose proof (countb_take_le nonzero keys (S i)) as HcL.
    pose proof (Hr _ _ Ei) as Hrange.
    unfold nonzero at 3 in HcS. cbv zeta.
    destruct (Z.eqb_spec (keys !!! i) 0) as [Hz|Hnz]; cbn [negb] in *.
    + exists (cnt, ks, cs). split; [done|]. unfold P. split_and!; try done.
      * lia.
      * intros j Hj. destruct (H2 j Hj) as (b & ? & ?).
        exists b. split; [lia | done].
      * intros b Hb Hne. apply H3; [|done].
        destruct (decide (b = i)) as [->|]; [done | lia].
    + set (cn := Z.to_nat cnt).
      assert (Hcn : (cn < 16)%nat) by lia.
      assert (Ec : children !! Z.to_nat (keys !!! i - 1) = Some (f i))
        by (apply list_lookup_lookup_total_lt; lia).
      exists (cnt + 1, <[cn := Z.of_nat i]> ks, <[cn := f i]> cs). split.
      { rewrite (zset_Z ks) by lia. rewrite bind_Ok.
        rewrite !to_byte_small by lia.
        assert (Hge : 0 <= keys !!! i - 1) by lia.
        rewrite (zget_Z children (keys !!! i - 1) (f i) Hge Ec), bind_Ok.
        rewrite (zset_Z cs) by lia. done. }
      unfold P. rewrite !length_insert.
      replace (Z.to_nat (cnt + 1)) with (S cn) by lia.
      split_and!; try done.
      * lia.
      * intros k Hk. apply elem_of_insert_inv in Hk as [->|Hk];
          [apply is_byte_spec; lia | by apply Hbytes].
      * rewrite take_S_insert by lia. apply StronglySorted_app_2; [|done|].
        -- intros x1 x2 H1' H2'. apply list_elem_of_singleton in H2' as ->.
           apply list_elem_of_lookup in H1' as [j Hj].
           apply lookup_take_Some in Hj as [Hj Hjlt].
           destruct (H2 j Hjlt) as (b & Hb & Eb & _).
           assert (x1 = Z.of_nat b) by congruence. lia.
        -- repeat constructor.
      * intros j Hj. destruct (decide (j = cn)) as [->|Hne].
        -- exists i. rewrite !list_lookup_insert_eq by lia.
           split_and!; (done || lia).
        -- destruct (H2 j ltac:(lia)) as (b & ? & ? & ? & ?).
           exists b. rewrite !list_lookup_insert_ne by done.
           split_and!; (done || lia).
      * intros b Hb Hne. destruct (decide (b = i)) as [->|Hbi].
        -- exists cn. split; [lia|]. apply list_lookup_insert_eq. lia.
        -- destruct (H3 b ltac:(lia) Hne) as (j & ? & ?).
           exists j. split; [lia|]. rewrite list_lookup_insert_ne by lia. done.
  - destruct HP as (H0 & L1 & L2 & Hbytes & Hs & H2 & H3). simpl in H0.
    rewrite (take_ge keys) in H0 by lia.
    rewrite <- Hck in H0. subst cnt.
    exists ks, cs. split; [exact E|]. intros hd' Hnc.
    set (nc := Z.to_nat (numChildren hd)) in *.
    assert (Hnd' : NoDup (take nc ks)) by (by apply StronglySorted_lt_NoDup).
    assert (Hpt : forall j b, (j < nc)%nat -> ks !! j = Some (Z.of_nat b) ->
              (b < 256)%nat /\ keys !!! b <> 0 /\ cs !! j = Some (f b)).
    { intros j b Hj Eb. destruct (H2 j Hj) as (b' & ? & Eb' & ? & ?).
      assert (b' = b) by (rewrite Eb in Eb'; injection Eb'; lia). by subst. }
    assert (Hfb : forall b, (b < 256)%nat -> keys !!! b <> 0 ->
              f b <> None).
    { intros b Hb Hne. unfold f. apply (Href b); [|done].
      apply list_lookup_lookup_total_lt. lia. }
    split.
    + apply sorted_ok_spec. rewrite Hnc. fold nc.
      split_and!; try done; try lia.
      * intros p Hp. apply list_elem_of_lookup in Hp as [j Hj].
        apply lookup_take_Some in Hj as [Hj Hjlt].
        destruct (H2 j Hjlt) as (b & ? & ? & ? & Ecs).
        assert (p = f b) by congruence. subst p. by apply Hfb.
      * apply NoDup_alt. intros j1 j2 p Hj1 Hj2.
        apply lookup_take_Some in Hj1 as [Hj1 Hlt1].
        apply lookup_take_Some in Hj2 as [Hj2 Hlt2].
        destruct (H2 j1 Hlt1) as (b1 & Hb1 & Ek1 & Hn1 & Ec1).
        destruct (H2 j2 Hlt2) as (b2 & Hb2 & Ek2 & Hn2 & Ec2).
        assert (Ef1 : f b1 = p) by congruence.
        assert (Ef2 : f b2 = p) by congruence.
        destruct p as [x|]; [|by apply Hfb in Ef1].
        assert (E1 : keys !! b1 = Some (keys !!! b1))
          by (apply list_lookup_lookup_total_lt; lia).
        assert (E2 : keys !! b2 = Some (keys !!! b2))
          by (apply list_lookup_lookup_total_lt; lia).
        pose proof (Hr _ _ E1). pose proof (Hr _ _ E2).
        assert (Ec1' : children !! Z.to_nat (keys !!! b1 - 1) = Some (Some x))
          by (apply lookup_of_total; [lia | done]).
        assert (Ec2' : children !! Z.to_nat (keys !!! b2 - 1) = Some (Some x))
          by (apply lookup_of_total; [lia | done]).
        pose proof (Hnd _ _ _ Ec1' Ec2') as Hkk.
        assert (Hk : keys !!! b1 = keys !!! b2) by lia.
        rewrite Hk in E1. pose proof (Hinj _ _ _ E1 E2 Hn2). subst b2.
        apply (NoDup_lookup (take nc ks) j1 j2 (Z.of_nat b1) Hnd');
          by rewrite lookup_take_lt.
      * intros x Hx. apply list_elem_of_lookup in Hx as [j Hj].
        apply lookup_take_Some in Hj as [Hj Hjlt].
        destruct (H2 j Hjlt) as (b & Hb & _ & Hne & Ecs).
        assert (Ef : f b = Some x) by congruence.
        apply Hv. rewrite <- Ef. unfold f. apply list_elem_of_lookup_total_2.
        assert (E1 : keys !! b = Some (keys !!! b))
          by (apply list_lookup_lookup_total_lt; lia).
        pose proof (Hr _ _ E1). lia.
    + intros b Hb. apply is_byte_spec in Hb. cbn [assoc]. rewrite Hnc.
      fold nc.
      destruct (Z.eqb_spec (keys !!! Z.to_nat b) 0) as [Hz|Hnz].
      * apply find_entry_absent. intros Hin.
        apply list_elem_of_lookup in Hin as [j Hj].
        apply lookup_take_Some in Hj as [Hj Hjlt].
        destruct (H2 j Hjlt) as (b' & ? & Eb' & Hne & _).
        assert (b = Z.of_nat b') by congruence. subst b.
        rewrite Nat2Z.id in Hz. done.
      * destruct (H3 (Z.to_nat b) ltac:(lia) Hnz) as (j & Hj & Ej).
        rewrite Z2Nat.id in Ej by lia.
        rewrite (find_entry_at (take nc ks) (take nc cs) b j Hnd')
          by (by rewrite lookup_take_lt).
        rewrite <- (Z2Nat.id b) in Ej by lia.
        destruct (Hpt j _ Hj Ej) as (_ & _ & Ecs).
        apply list_lookup_total_correct. by rewrite lookup_take_lt.
Qed.

Lemma removeChild48_spec (st : state) (a : nat) (hd : Header)
    (keys : list Z) (children : list ptr) (c : Z) (l : nat) :
  let n := Node48 hd keys children in
  let sz := length (st_heap st) in
  st_heap st !! a = Some n -> node_ok sz n = true ->
  is_byte c = true -> childOf n c = Ok (Some l) ->
  exists st' n1,
    removeChild48 st a c = Ok st'
    /\ removed n n1 c /\ getArtNodeType n1 = node48
    /\ node_ok sz n1 = true
    /\ if underflown n1
       then exists n', st' = (install (store st a n1) n').1
                       /\ getArtNodeType n' = node16
                       /\ node_ok (S sz) n' = true /\ removed n n' c
       else st' = store st a n1.
Proof.
  intros n sz Ha Hok Hc Hfe. unfold n in *. simpl in Hok.
  apply andb_true_iff in Hok as [Hh Hok].
  rewrite (childOf_Node48 _ _ _ _ _ Hok Hc) in Hfe. injection Hfe as Hfe.
  pose proof Hc as Hc'. apply is_byte_spec in Hc'.
  set (pos := keys !!! Z.to_nat c).
  assert (Hpos : pos <> 0).
  { simpl in Hfe. fold pos in Hfe. by destruct (Z.eqb_spec pos 0). }
  destruct (removeChild48_small sz hd keys children c Hok Hc Hpos)
    as (S1 & S2 & S3). fold pos in S1, S3.
  pose proof Hok as Hok'.
  apply index_ok_spec in Hok' as (Lk & Lc & Hr & _).
  assert (Ek : keys !! Z.to_nat c = Some pos)
    by (apply list_lookup_lookup_total_lt; lia).
  pose proof (Hr _ _ Ek) as Hrange.
  unfold removeChild48. rewrite Ha.
  rewrite (zget_Z keys c pos ltac:(lia) Ek), bind_Ok.
  rewrite (zset_Z keys) by lia. rewrite bind_Ok.
  rewrite to_byte_small by lia.
  rewrite (zset_Z children) by lia. rewrite bind_Ok.
  set (keys' := <[Z.to_nat c := 0]> keys) in *.
  set (children' := <[Z.to_nat (pos - 1) := None]> children) in *.
  set (hd' := mkHeader _ _ _) in *.
  set (n1 := Node48 hd' keys' children').
  assert (Hh' : header_ok hd' = true) by done.
  assert (Hn1 : node_ok sz n1 = true) by (simpl; by rewrite Hh', S1).
  assert (Hrem : removed (Node48 hd keys children) n1 c).
  { unfold removed. split_and!; try done. }
  change (decr (numChildren hd)) with (numChildren hd').
  destruct (Z.eqb_spec (numChildren hd') 12) as [E12|E12].
  - rewrite (copyHeader_fresh (allocNode node16) n1) by done.
    rewrite bind_Ok.
    set (hd16 := mkHeader (getPartialLen n1) (getNumChildren n1) _).
    change (getKeys (setHeader (allocNode node16) hd16))
      with (replicate 16 0).
    change (getChildren (setHeader (allocNode node16) hd16))
      with (replicate 16 (@None nat)).
    destruct (sorted_of_index sz hd' keys' children' S1 ltac:(lia))
      as (ks & cs & Eloop & Hres).
    assert (Eloop' :
      for_range (fun i '(child, ks, cs) =>
                   if negb (keys' !!! i =? 0) then
                     ks ← zset ks child (to_byte (Z.of_nat i));
                     p ← zget children' (to_byte (keys' !!! i - 1));
                     cs ← zset cs child p;
                     Ok (child + 1, ks, cs)
                   else Ok (child, ks, cs))
        0 256 (0, replicate 16 0, replicate 16 None)
      = Ok (numChildren hd', ks, cs)) by exact Eloop.
    rewrite Eloop', bind_Ok. cbv beta iota.
    set (N := Node16 hd16 ks cs).
    destruct (Hres hd16 eq_refl) as [R1 R2].
    exists (install (store st a n1) N).1, n1. split; [done|].
    split; [done|]. split; [done|]. split; [done|].
    assert (Hu : underflown n1 = true)
      by (unfold n1; cbn [underflown]; apply Z.eqb_eq; exact E12).
    rewrite Hu. exists N. split; [done|]. split; [done|]. split.
    + unfold N. cbn [node_ok]. apply andb_true_iff. split.
      { by apply (copied_header_ok hd'). }
      eapply sorted_ok_mono; [|exact R1]. lia.
    + eapply same_removed; [| | | |exact Hrem]; try done.
      by eapply explicit_copied.
  - exists (store st a n1), n1. split; [done|].
    split; [done|]. split; [done|]. split; [done|].
    assert (Hu : underflown n1 = false)
      by (unfold n1; cbn [underflown]; by apply Z.eqb_neq).
    by rewrite Hu.
Qed.

(** ** From a [Node256] to a [Node48] *)

(** The loop that packs the children of a [Node256] into the slots of a
    [Node48] and builds its index. *)
Lemma index_of_direct (sz : nat) (hd : Header) (children : list ptr) :
  direct_ok sz hd children = true ->
  (countb occupied children <= 48)%nat ->
  exists ks cs,
    for_range (fun i '(pos, ks, cs) =>
                 if negb (is_nil (children !!! i)) then
                   cs ← zset cs pos (children !!! i);
                   ks ← zset ks (Z.of_nat i) (to_byte (pos + 1));
                   Ok (pos + 1, ks, cs)
                 else Ok (pos, ks, cs))
      0 256 (0, replicate 256 0, replicate 48 None)
    = Ok (Z.of_nat (countb occupied children), ks, cs)
    /\ forall hd', numChildren hd' = Z.of_nat (countb occupied children) ->
         index_ok sz hd' ks cs = true
         /\ forall b, is_byte b = true ->
              assoc (Node48 hd' ks cs) b = assoc (Node256 hd children) b.
Proof.
  intros Hok Hle. apply direct_ok_spec in Hok as (Lc & _ & Hnd & Hv).
  pose (Q := fun (i : nat) (s : Z * list Z * list ptr) =>
    let '(pos, ks, cs) := s in
    pos = Z.of_nat (countb occupied (take i children))
    /\ length ks = 256%nat /\ length cs = 48%nat
    /\ (forall b, (b < i)%nat -> children !!! b <> None ->
          exists k, ks !! b = Some k /\ 1 <= k <= pos
                    /\ cs !! Z.to_nat (k - 1) = Some (children !!! b))
    /\ (forall b, (b < 256)%nat -> (i <= b)%nat \/ children !!! b = None ->
          ks !! b = Some 0)
    /\ (forall j, (j < Z.to_nat pos)%nat ->
          exists b, (b < i)%nat /\ ks !! b = Some (Z.of_nat j + 1)
                    /\ children !!! b <> None)
    /\ (forall j, (Z.to_nat pos <= j < 48)%nat -> cs !! j = Some None)
    /\ (forall b1 b2 k, ks !! b1 = Some k -> ks !! b2 = Some k -> k <> 0 ->
          b1 = b2)
    /\ countb occupied cs = Z.to_nat pos).
  destruct (for_range_inv
              (fun i '(pos, ks, cs) =>
                 if negb (is_nil (children !!! i)) then
                   cs ← zset cs pos (children !!! i);
                   ks ← zset ks (Z.of_nat i) (to_byte (pos + 1));
                   Ok (pos + 1, ks, cs)
                 else Ok (pos, ks, cs))
              Q 0 256 (0, replicate 256 0, replicate 48 None))
    as ([[pos ks] cs] & E & HQ).
  - unfold Q. rewrite take_0. split_and!.
    + done.
    + by rewrite length_replicate.
    + by rewrite length_replicate.
    + intros; lia.
    + intros b Hb _. by apply lookup_replicate_2.
    + intros j Hj. simpl in Hj. lia.
    + intros j Hj. apply lookup_replicate_2. lia.
    + intros b1 b2 k Hk _ Hne. apply lookup_replicate in Hk as [-> _]. done.
    + by apply countb_replicate_false.
  - intros i [[pos ks] cs] Hi (H0 & L1 & L2 & J1 & J2 & J4 & J5 & J6 & J7).
    assert (Ei : children !! i = Some (children !!! i))
      by (apply list_lookup_lookup_total_lt; lia).
    pose proof (countb_take_S occupied children i _ Ei) as HcS.
    pose proof (countb_take_le occupied children (S i)) as HcL.
    assert (Hbound : forall b k, ks !! b = Some k -> 0 <= k <= pos).
    { intros b k Hk.
      assert (Hb : (b < 256)%nat) by (apply lookup_lt_Some in Hk; lia).
      destruct (decide ((i <= b)%nat \/ children !!! b = None)) as [Hd|Hd].
      - rewrite (J2 b Hb Hd) in Hk. injection Hk as <-. lia.
      - destruct (J1 b) as (k' & Ek' & ? & _); [lia|tauto|].
        assert (k = k') by congruence. lia. }
    destruct (children !!! i) as [x|] eqn:Ex; cbn [is_nil negb] in *;
      cbn [occupied is_nil negb] in HcS.
    + set (pn := Z.to_nat pos).
      assert (Hpn : (pn < 48)%nat) by lia.
      exists (pos + 1, <[i := pos + 1]> ks, <[pn := Some x]> cs). split.
      { rewrite (zset_Z cs) by lia. rewrite bind_Ok.
        rewrite to_byte_small by lia.
        rewrite (zset_Ok ks) by lia. done. }
      unfold Q. rewrite !length_insert.
      replace (Z.to_nat (pos + 1)) with (S pn) by lia.
      split_and!; try done.
      * lia.
      * intros b Hb Hne. destruct (decide (b = i)) as [->|Hbi].
        -- exists (pos + 1). rewrite list_lookup_insert_eq by lia.
           split; [done|]. split; [lia|].
           replace (Z.to_nat (pos + 1 - 1)) with pn by lia.
           rewrite Ex. apply list_lookup_insert_eq. lia.
        -- destruct (J1 b ltac:(lia) Hne) as (k & Ek & Hk & Ecs).
           exists k. rewrite list_lookup_insert_ne by done.
           split; [done|]. split; [lia|].
           rewrite list_lookup_insert_ne by lia. done.
      * intros b Hb Hd.
        assert (b <> i) by (intros ->; destruct Hd as [?|Hd]; [lia|];
                            by rewrite Ex in Hd).
        rewrite list_lookup_insert_ne by done. apply J2; [done|].
        destruct Hd; [left; lia | by right].
      * intros j Hj. destruct (decide (j = pn)) as [->|Hne].
        -- exists i. split; [lia|]. split; [|by rewrite Ex].
           rewrite list_lookup_insert_eq by lia. f_equal. lia.
        -- destruct (J4 j ltac:(lia)) as (b & ? & ? & ?).
           exists b. split; [lia|]. split; [|done].
           rewrite list_lookup_insert_ne by lia. done.
      * intros j Hj. rewrite list_lookup_insert_ne by lia. apply J5. lia.
      * intros b1 b2 k E1 E2 Hne.
        apply list_lookup_insert_Some in E1 as [(-> & <- & _)|(Hb1 & E1)];
          apply list_lookup_insert_Some in E2 as [(-> & E2 & _)|(Hb2 & E2)].
        -- done.
        -- apply Hbound in E2. lia.
        -- subst k. apply Hbound in E1. lia.
        -- by eapply J6.
      * pose proof (countb_insert occupied cs pn None (Some x)
                      (J5 pn ltac:(lia))) as Hc.
        simpl in Hc. lia.
    + exists (pos, ks, cs). split; [done|]. unfold Q. split_and!; try done.
      * lia.
      * intros b Hb Hne. apply J1; [|done].
        destruct (decide (b = i)) as [->|]; [by rewrite Ex in Hne | lia].
      * intros b Hb Hd. apply J2; [done|].
        destruct (decide (b = i)) as [->|]; [left; lia|].
        destruct Hd; [left; lia | by right].
      * intros j Hj. destruct (J4 j Hj) as (b & ? & ?).
        exists b. split; [lia | done].
  - destruct HQ as (H0 & L1 & L2 & J1 & J2 & J4 & J5 & J6 & J7).
    simpl in H0. rewrite (take_ge children) in H0 by lia. subst pos.
    rewrite Nat2Z.id in *.
    exists ks, cs. split; [exact E|]. intros hd' Hnc.
    assert (Hcase : forall b, (b < 256)%nat ->
              (children !!! b = None /\ ks !! b = Some 0)
              \/ (exists k, children !!! b <> None /\ ks !! b = Some k
                            /\ 1 <= k <= 48
                            /\ cs !! Z.to_nat (k - 1)
                               = Some (children !!! b))).
    { intros b Hb. destruct (children !!! b) as [x|] eqn:Ex.
      - right. destruct (J1 b ltac:(lia)) as (k & ? & ? & ?);
          [by rewrite Ex|].
        exists k. rewrite <- Ex. split_and!; try done; try lia.
        by rewrite Ex.
      - left. split; [done|]. apply J2; [done|]. right. done. }
    assert (Hslot : forall j x, cs !! j = Some (Some x) ->
              exists b, children !! b = Some (Some x)
                        /\ ks !! b = Some (Z.of_nat j + 1)).
    { intros j x Hj.
      assert (Hjlt : (j < 48)%nat) by (apply lookup_lt_Some in Hj; lia).
      destruct (Nat.lt_ge_cases j (countb occupied children)) as [Hlt|Hge].
      - destruct (J4 j Hlt) as (b & Hb & Ek & Hne).
        destruct (J1 b Hb Hne) as (k & Ek' & _ & Ecs).
        assert (k = Z.of_nat j + 1) by congruence. subst k.
        replace (Z.to_nat (Z.of_nat j + 1 - 1)) with j in Ecs by lia.
        exists b. split; [|done].
        apply lookup_of_total; [lia | congruence].
      - rewrite J5 in Hj by lia. done. }
    split.
    + apply index_ok_spec. rewrite Hnc. split_and!; try done.
      * intros b k Hk.
        assert (Hb : (b < 256)%nat) by (apply lookup_lt_Some in Hk; lia).
        destruct (Hcase b Hb) as [[_ E0]|(k' & _ & Ek' & ? & _)].
        -- assert (k = 0) by congruence. lia.
        -- assert (k = k') by congruence. lia.
      * intros b k Hk Hne.
        assert (Hb : (b < 256)%nat) by (apply lookup_lt_Some in Hk; lia).
        destruct (Hcase b Hb) as [[_ E0]|(k' & Hc & Ek' & ? & Ecs)].
        -- congruence.
        -- assert (k = k') by congruence. subst k'.
           by rewrite (list_lookup_total_correct _ _ _ Ecs).
      * f_equal. symmetry. apply countb_pointwise; [lia|].
        intros j k x Ek Ex.
        assert (Hj : (j < 256)%nat) by (apply lookup_lt_Some in Ek; lia).
        apply list_lookup_total_correct in Ex.
        destruct (Hcase j Hj) as [[E0 E1]|(k' & Hc & Ek' & ? & _)].
        -- assert (k = 0) by congruence. subst k. rewrite <- Ex, E0. done.
        -- assert (k = k') by congruence. subst k'.
           rewrite <- Ex.
           transitivity true; [apply nonzero_spec; lia|].
           symmetry. by apply occupied_spec.
      * lia.
      * intros j1 j2 x Hj1 Hj2.
        destruct (Hslot _ _ Hj1) as (b1 & Eb1 & Ek1).
        destruct (Hslot _ _ Hj2) as (b2 & Eb2 & Ek2).
        pose proof (Hnd _ _ _ Eb1 Eb2). subst b2.
        assert (Z.of_nat j1 + 1 = Z.of_nat j2 + 1) by congruence. lia.
      * intros x Hx. apply list_elem_of_lookup in Hx as [j Hj].
        destruct (Hslot _ _ Hj) as (b & Eb & _). apply Hv.
        by eapply list_elem_of_lookup_2.
    + intros b Hb. apply is_byte_spec in Hb. cbn [assoc].
      destruct (Hcase (Z.to_nat b) ltac:(lia))
        as [[E0 E1]|(k & Hc & Ek & ? & Ecs)].
      * rewrite (list_lookup_total_correct _ _ _ E1). by rewrite E0.
      * rewrite (list_lookup_total_correct _ _ _ Ek).
        destruct (Z.eqb_spec k 0); [lia|].
        by apply list_lookup_total_correct.
Qed.

Lemma removeChild256_spec (st : state) (a : nat) (hd : Header)
    (children : list ptr) (c : Z) (l : nat) :
  let n := Node256 hd children in
  let sz := length (st_heap st) in
  st_heap st !! a = Some n -> node_ok sz n = true ->
  is_byte c = true -> childOf n c = Ok (Some l) ->
  exists st' n1,
    removeChild256 st a c = Ok st'
    /\ removed n n1 c /\ getArtNodeType n1 = node256
    /\ node_ok sz n1 = true
    /\ if underflown n1
       then exists n', st' = (install (store st a n1) n').1
                       /\ getArtNodeType n' = node48
                       /\ node_ok (S sz) n' = true /\ removed n n' c
       else st' = store st a n1.
Proof.
  intros n sz Ha Hok Hc Hfe. unfold n in *. simpl in Hok.
  apply andb_true_iff in Hok as [Hh Hok].
  pose proof Hok as Hok'. apply direct_ok_spec in Hok' as (Lc & _).
  rewrite childOf_Node256 in Hfe by done. injection Hfe as Hfe.
  pose proof Hc as Hc'. apply is_byte_spec in Hc'.
  destruct (removeChild256_small sz st a hd children c Hok Hc)
    as (S1 & S2 & S3); [by rewrite Hfe|].
  unfold removeChild256. rewrite Ha.
  rewrite (zset_Z children) by lia. rewrite bind_Ok.
  set (children' := <[Z.to_nat c := None]> children) in *.
  set (hd' := mkHeader _ _ _) in *.
  set (n1 := Node256 hd' children').
  assert (Hh' : header_ok hd' = true) by done.
  assert (Hn1 : node_ok sz n1 = true) by (simpl; by rewrite Hh', S1).
  assert (Hrem : removed (Node256 hd children) n1 c).
  { unfold removed. split_and!; try done. intros b Hb.
    apply is_byte_spec in Hb. unfold n1. cbn [assoc]. rewrite S3.
    destruct (Nat.eqb_spec (Z.to_nat b) (Z.to_nat c));
      destruct (Z.eqb_spec b c); (done || lia). }
  change (decr (numChildren hd)) with (numChildren hd').
  destruct (Z.eqb_spec (numChildren hd') 37) as [E37|E37].
  - assert (Hcount : Z.of_nat (countb occupied children') = 37).
    { pose proof S1 as S1'. apply direct_ok_spec in S1' as (_ & Hm & _).
      pose proof (countb_le occupied children).
      destruct params_inv as (_ & _ & HM).
      rewrite Z.mod_small in Hm by lia. lia. }
    rewrite (copyHeader_fresh (allocNode node48) n1) by done.
    rewrite bind_Ok.
    set (hd48 := mkHeader (getPartialLen n1) (getNumChildren n1) _).
    change (getKeys (setHeader (allocNode node48) hd48))
      with (replicate 256 0).
    change (getChildren (setHeader (allocNode node48) hd48))
      with (replicate 48 (@None nat)).
    destruct (index_of_direct sz hd' children' S1 ltac:(lia))
      as (ks & cs & Eloop & Hres).
    rewrite Eloop, bind_Ok. cbv beta iota.
    set (N := Node48 hd48 ks cs).
    destruct (Hres hd48) as [R1 R2].
    { change (numChildren hd48) with (numChildren hd'). lia. }
    exists (install (store st a n1) N).1, n1. split; [done|].
    split; [done|]. split; [done|]. split; [done|].
    assert (Hu : underflown n1 = true)
      by (unfold n1; cbn [underflown]; apply Z.eqb_eq; exact E37).
    rewrite Hu. exists N. split; [done|]. split; [done|]. split.
    + unfold N. cbn [node_ok]. apply andb_true_iff. split.
      { by apply (copied_header_ok hd'). }
      eapply index_ok_mono; [|exact R1]. lia.
    + eapply same_removed; [| | | |exact Hrem]; try done.
      by eapply explicit_copied.
  - exists (store st a n1), n1. split; [done|].
    split; [done|]. split; [done|]. split; [done|].
    assert (Hu : underflown n1 = false)
      by (unfold n1; cbn [underflown]; by apply Z.eqb_neq).
    by rewrite Hu.
Qed.

(** ** [removeChild] on the variants that shrink *)

Lemma removeChild_spec (st : state) (a : nat) (n : Node) (c : Z) (l : nat) :
  let sz := length (st_heap st) in
  st_heap st !! a = Some n -> node_ok sz n = true ->
  isLeaf n = false -> getArtNodeType n <> node4 ->
  is_byte c = true -> childOf n c = Ok (Some l) ->
  exists st' n1,
    removeChild st a c (Some l) = Ok st'
    /\ removed n n1 c /\ getArtNodeType n1 = getArtNodeType n
    /\ node_ok sz n1 = true
    /\ if underflown n1
       then exists n', st' = (install (store st a n1) n').1
                       /\ getArtNodeType n' = shrink (getArtNodeType n)
                       /\ node_ok (S sz) n' = true /\ removed n n' c
       else st' = store st a n1.
Proof.
  intros sz Ha Hok Hl Hn4 Hc Hfe. unfold removeChild. rewrite Ha.
  destruct n as [hd v kl k|hd keys children|hd keys children|hd keys children
                 |hd children]; [done|done| | |].
  - by apply (removeChild16_spec st a hd keys children c l).
  - by apply (removeChild48_spec st a hd keys children c l).
  - by apply (removeChild256_spec st a hd children c l).
Qed.

(** ** Sequences of operations *)

Lemma heap_ok_install (st : state) (a : nat) (n1 n' : Node) :
  heap_ok (st_heap st) = true ->
  node_ok (length (st_heap st)) n1 = true ->
  node_ok (S (length (st_heap st))) n' = true ->
  heap_ok (st_heap (install (store st a n1) n').1) = true.
Proof.
  intros Hh H1 H2. simpl. apply heap_ok_snoc.
  - by apply heap_ok_insert.
  - by rewrite length_insert.
Qed.

Lemma exec_ok (st : state) (o : op) :
  heap_ok (st_heap st) = true -> op_ok st o = true ->
  exists st', exec st o = Ok st' /\ heap_ok (st_heap st') = true.
Proof.
  intros Hheap Hop. destruct o as [a c child|a c]; simpl in *.
  - destruct (st_heap st !! a) as [n|] eqn:Ha; [|done].
    repeat (apply andb_true_iff in Hop as [Hop ?]).
    destruct (childOf n c) as [[x|]| |] eqn:Hfe; try done.
    destruct (addChild_spec st a n c child) as (st' & n' & E & _ & Hn' & Hpl).
    + done.
    + by eapply heap_ok_lookup.
    + by destruct (isLeaf n).
    + done.
    + done.
    + by apply Nat.ltb_lt.
    + intros Hin. by rewrite bool_decide_eq_true_2 in H.
    + exists st'. split; [done|]. destruct (exhausted n).
      * destruct Hpl as [-> _]. simpl in *. apply heap_ok_snoc; [done|].
        rewrite length_app in Hn'. simpl in Hn'.
        by rewrite Nat.add_1_r in Hn'.
      * destruct Hpl as [-> _]. simpl in *. apply heap_ok_insert; [done|].
        by rewrite length_insert in Hn'.
  - destruct (st_heap st !! a) as [n|] eqn:Ha; [|done].
    repeat (apply andb_true_iff in Hop as [Hop ?]).
    destruct (childOf n c) as [[l|]| |] eqn:Hfe; try done.
    rewrite bind_Ok.
    pose proof (heap_ok_lookup _ _ _ Hheap Ha) as Hok.
    assert (E4 : (exists hd keys children, n = Node4 hd keys children)
                 \/ getArtNodeType n <> node4).
    { destruct n; try (by right). left. by eauto. }
    destruct E4 as [(hd & keys & children & ->)|E4].
    + unfold removeChild. rewrite Ha. cbn [getArtNodeType].
      by apply (removeChild4_spec st a hd keys children c l).
    + destruct (removeChild_spec st a n c l)
        as (st' & n1 & E & _ & _ & Hn1 & Hpl); try done.
      { by destruct (isLeaf n). }
      exists st'. split; [done|]. destruct (underflown n1).
      * destruct Hpl as (n' & -> & _ & Hn' & _). by apply heap_ok_install.
      * subst st'. simpl. by apply heap_ok_insert.
Qed.

Lemma run_ok (ops : list op) (st : state) :
  heap_ok (st_heap st) = true -> ops_ok st ops = true ->
  exists st', run st ops = Ok st' /\ heap_ok (st_heap st') = true.
Proof.
  revert st. induction ops as [|o ops IH]; intros st Hheap Hops; simpl in *.
  - by exists st.
  - apply andb_true_iff in Hops as [Hop Hops].
    destruct (exec_ok st o Hheap Hop) as (st1 & E1 & H1).
    rewrite E1 in *. rewrite bind_Ok. by apply IH.
Qed.

Lemma node_ok_count_region (sz : nat) (n : Node) :
  node_ok sz n = true -> count_region n = true.
Proof.
  destruct n as [hd v kl k|hd keys children|hd keys children|hd keys children
                 |hd children]; simpl; [done| | | |];
    intros H; apply andb_true_iff in H as [_ H].
  - apply sorted_ok_spec in H as (Lk & Lc & Hnc & _ & _ & Ho & _).
    rewrite !andb_true_iff, !Z.leb_le, forallb_elem_of. split_and!; try lia.
    intros p Hp. by apply occupied_spec, Ho.
  - apply sorted_ok_spec in H as (Lk & Lc & Hnc & _ & _ & Ho & _).
    rewrite !andb_true_iff, !Z.leb_le, forallb_elem_of. split_and!; try lia.
    intros p Hp. by apply occupied_spec, Ho.
  - apply index_ok_spec in H as (_ & _ & _ & _ & Hck & _). by apply Z.eqb_eq.
  - apply direct_ok_spec in H as (_ & Hc & _). by apply Z.eqb_eq.
Qed.

Lemma node_ok_keys_sorted (sz : nat) (n : Node) :
  node_ok sz n = true -> keys_sorted n = true.
Proof.
  destruct n as [hd v kl k|hd keys children|hd keys children|hd keys children
                 |hd children]; simpl; try done;
    intros H; apply andb_true_iff in H as [_ H];
    apply sorted_ok_spec in H as (_ & _ & _ & _ & Hs & _);
    by apply ascending_spec.
Qed.

(** ** The key codec: prefix freedom *)

Lemma getTreeKey_app (key : list Z) : getTreeKey key = key ++ [terminator].
Proof.
  unfold getTreeKey.
  rewrite go_copy_short by (rewrite length_replicate; lia).
  rewrite Nat.add_sub.
  rewrite insert_app_r_alt by lia. rewrite Nat.sub_diag.
  f_equal. rewrite drop_replicate.
  by replace (length key + 1 - length key)%nat with 1%nat by lia.
Qed.

Lemma strict_prefix_getTreeKey (k1 k2 : list Z) :
  strict_prefix (getTreeKey k1) (getTreeKey k2) <->
  (k1 ++ [terminator]) `prefix_of` k2.
Proof.
  rewrite !getTreeKey_app. unfold strict_prefix. split.
  - intros [[t Ht] Hne].
    destruct (decide (t = [])) as [->|Hnil].
    { rewrite app_nil_r in Ht. congruence. }
    destruct (exists_last Hnil) as (t' & z & ->).
    rewrite !app_assoc in Ht. apply app_inj_tail in Ht as [Ht _].
    exists t'. congruence.
  - intros [t ->]. split.
    + exists (t ++ [terminator]). by rewrite !app_assoc.
    + intros Heq. apply (f_equal length) in Heq.
      rewrite !length_app in Heq. simpl in Heq. lia.
Qed.

(** ** Prefix comparison *)

Lemma first_mismatch_le (a b : list Z) :
  (first_mismatch a b <= length a)%nat /\ (first_mismatch a b <= length b)%nat.
Proof.
  revert b. induction a as [|x a IH]; intros [|y b]; simpl; try lia.
  destruct (x =? y); simpl; [|lia]. destruct (IH b). lia.
Qed.

Lemma first_mismatch_take (n : nat) (a b : list Z) :
  first_mismatch (take n a) b = (n `min` first_mismatch a b)%nat.
Proof.
  revert a b. induction n as [|n IH]; intros [|x a] [|y b]; simpl; try done.
  destruct (x =? y); [|done]. by rewrite IH.
Qed.


Lemma cmp_loop_spec (x : list Z) (xoff : Z) (key : list Z) (koff idx : Z)
    (n : nat) :
  0 <= xoff -> 0 <= koff -> 0 <= idx ->
  xoff + idx + Z.of_nat n <= Z.of_nat (length x) ->
  koff + idx + Z.of_nat n <= Z.of_nat (length key) ->
  let f := first_mismatch (drop (Z.to_nat (xoff + idx)) x)
             (drop (Z.to_nat (koff + idx)) key) in
  cmp_loop x xoff key koff idx n
  = Ok (if (f <? n)%nat then (true, idx + Z.of_nat f)
        else (false, idx + Z.of_nat n)).
Proof.
  revert idx. induction n as [|n IH]; intros idx Hx Hk Hi Hlx Hlk f.
  - simpl. by rewrite Z.add_0_r.
  - cbn [cmp_loop].
    destruct (lookup_lt_is_Some_2 x (Z.to_nat (xoff + idx))) as [u Eu]; [lia|].
    destruct (lookup_lt_is_Some_2 key (Z.to_nat (koff + idx))) as [v Ev];
      [lia|].
    rewrite (zget_Z x (xoff + idx) u ltac:(lia) Eu), bind_Ok.
    rewrite (zget_Z key (koff + idx) v ltac:(lia) Ev), bind_Ok.
    unfold f. rewrite (drop_S x u _ Eu), (drop_S key v _ Ev). simpl.
    destruct (Z.eqb_spec u v) as [E|E]; simpl.
    + rewrite IH by lia. cbv zeta.
      replace (Z.to_nat (xoff + (idx + 1))) with (S (Z.to_nat (xoff + idx)))
        by lia.
      replace (Z.to_nat (koff + (idx + 1))) with (S (Z.to_nat (koff + idx)))
        by lia.
      set (g := first_mismatch _ _).
      change (S g <? S n)%nat with (g <? n)%nat.
      destruct (g <? n)%nat; do 2 f_equal; lia.
    + by rewrite Z.add_0_r.
Qed.

(** ** Counting *)



Lemma scan_down_out (children : list ptr) (n : nat) :
  (length children < n)%nat -> scan_down children n = Panic.
Proof.
  intros H. destruct n as [|n]; [lia|]. cbn [scan_down].
  by rewrite zget_out by lia.
Qed.

(** * Specification properties *)

(** C9.  [copyHeader(dest, src)] sets the [numChildren] and the [partialLen]
    of [dest] to those of [src], copies exactly the first
    [min(maxPrefixLen, src.partialLen)] bytes of the prefix buffer of [src]
    over those of [dest], and leaves the rest of that buffer and every other
    field of [dest] as they were.  Both buffers hold that many bytes, as the
    buffers made by [allocNode] do. *)
Theorem copyHeader_spec (dest src : Node) :
  let len := Z.to_nat (Z.min maxPrefixLen (getPartialLen src)) in
  0 <= getPartialLen src ->
  (len <= length (getPartial src))%nat ->
  (len <= length (getPartial dest))%nat ->
  exists dest',
    copyHeader dest src = Ok dest'
    /\ getNumChildren dest' = getNumChildren src
    /\ getPartialLen dest' = getPartialLen src
    /\ take len (getPartial dest') = take len (getPartial src)
    /\ drop len (getPartial dest') = drop len (getPartial dest)
    /\ setHeader dest' (getHeader dest) = dest.
Proof.
  intros len Hp Hs Hd. eexists. split; [by apply copyHeader_Ok|].
  fold len. unfold getNumChildren, getPartialLen, getPartial.
  rewrite !getHeader_setHeader. cbn [numChildren partialLen partial].
  split_and!; try done.
  - rewrite take_app_le by (rewrite length_take; unfold getPartial in *; lia).
    rewrite take_take. f_equal. lia.
  - rewrite drop_app_ge by (rewrite length_take; unfold getPartial in *; lia).
    rewrite length_take, Nat.min_l by (unfold getPartial in *; lia).
    by rewrite Nat.sub_diag.
  - by destruct dest.
Qed.


(** C7.  [maximum] on a [Node48] scans [node.children[idx]] downwards from
    [idx = 255], and the children array of a [Node48] has 48 slots: the
    first read is out of range and the call panics, whatever the node
    holds.  ([minimum] scans the 256-entry index instead.) *)
Theorem maximum_Node48_panics (fuel : nat) (h : heap) (a : nat) (hd : Header)
    (keys : list Z) (children : list ptr) :
  h !! a = Some (Node48 hd keys children) ->
  length children = 48%nat ->
  maximum (S fuel) h (Some a) = Panic.
Proof.
  intros Ha Lc. cbn [maximum]. rewrite Ha.
  by rewrite scan_down_out by lia.
Qed.

(** C5 (amended).  The codec-transformed key of [k1] is a strict prefix of
    that of [k2] exactly when [k1] followed by the terminator byte is a
    prefix of [k2]; so it is none when [k2] does not hold the terminator
    byte. *)
Theorem getTreeKey_strict_prefix (k1 k2 : list Z) :
  (strict_prefix (getTreeKey k1) (getTreeKey k2)
   <-> (k1 ++ [terminator]) `prefix_of` k2)
  /\ (terminator ∉ k2 ->
      ~ strict_prefix (getTreeKey k1) (getTreeKey k2)).
Proof.
  split; [apply strict_prefix_getTreeKey|].
  intros Hk2 H. apply strict_prefix_getTreeKey in H as [t ->].
  apply Hk2. rewrite !elem_of_app. left. right. by left.
Qed.


(** C3.  [addChild] of a key byte [c] that the node does not hold: it
    promotes exactly when the capacity is exhausted (a [Node4] with 4
    children, a [Node16] with 16, a [Node48] with 48), the replacement being
    a new object of the next variant whose address is stored in the caller's
    slot, and otherwise updates the node in place; either way the resulting
    node has the [partialLen] and the explicit prefix bytes of the old one,
    one child more, and maps every byte to its former child and [c] to the
    new child. *)
Theorem addChild_promotes (st : state) (a : nat) (n : Node) (c : Z)
    (child : nat) :
  heap_ok (st_heap st) = true ->
  st_heap st !! a = Some n -> isLeaf n = false ->
  is_byte c = true -> childOf n c = Ok None ->
  (child < length (st_heap st))%nat -> child ∉ live (entries n) ->
  exists st' n',
    addChild st a c child = Ok st'
    /\ added n n' c child
    /\ if exhausted n
       then st_heap st' = st_heap st ++ [n']
            /\ st_slot st' = Some (length (st_heap st))
            /\ getArtNodeType n' = grow (getArtNodeType n)
       else st' = store st a n' /\ getArtNodeType n' = getArtNodeType n.
Proof.
  intros Hheap Ha Hl Hc Habs Hsz Hnew.
  destruct (addChild_spec st a n c child) as (st' & n' & E & Hadd & _ & Hpl);
    try done.
  { by eapply heap_ok_lookup. }
  exists st', n'. split; [done|]. split; [done|].
  destruct (exhausted n); [|done]. by destruct Hpl as [-> ?].
Qed.

(** C2.  [removeChild] of a key byte [c] that a [Node16], [Node48] or
    [Node256] holds: the node is left with one child less and without the
    association of [c]; when that leaves a [Node16] with exactly 3
    children, a [Node48] with exactly 12 or a [Node256] with exactly 37, a
    new object of the next smaller variant replaces it in the caller's slot,
    which satisfies the representation invariant of its variant (so the keys
    of a [Node16] rebuilt from the index ascend) and maps exactly the same
    bytes to the same children. *)
Theorem removeChild_demotes (st : state) (a : nat) (n : Node) (c : Z)
    (l : nat) :
  heap_ok (st_heap st) = true ->
  st_heap st !! a = Some n ->
  isLeaf n = false -> getArtNodeType n <> node4 ->
  is_byte c = true -> childOf n c = Ok (Some l) ->
  exists st' n1,
    removeChild st a c (Some l) = Ok st'
    /\ removed n n1 c /\ getArtNodeType n1 = getArtNodeType n
    /\ if underflown n1
       then exists n',
              st_heap st' = <[a := n1]> (st_heap st) ++ [n']
              /\ st_slot st' = Some (length (st_heap st))
              /\ getArtNodeType n' = shrink (getArtNodeType n)
              /\ node_ok (length (st_heap st')) n' = true
              /\ keys_sorted n' = true
              /\ removed n n' c
       else st' = store st a n1.
Proof.
  intros Hheap Ha Hl Hn4 Hc Hfe.
  destruct (removeChild_spec st a n c l)
    as (st' & n1 & E & Hrem & Hty & _ & Hpl); try done.
  { by eapply heap_ok_lookup. }
  exists st', n1. split; [done|]. split; [done|]. split; [done|].
  destruct (underflown n1); [|done].
  destruct Hpl as (n' & -> & Hty' & Hok' & Hrem').
  exists n'. simpl. rewrite length_insert, length_app, length_insert. simpl.
  rewrite Nat.add_1_r. split_and!; try done.
  by eapply node_ok_keys_sorted.
Qed.

(** C1.  [removeChild4] on a [Node4] with two children, of which the one
    under the key byte [c] is removed and the one under the key byte [b]
    survives and is not a leaf: the explicit prefix bytes of the parent,
    the byte [b] and the explicit prefix bytes of the child, in that order
    and cut at [maxPrefixLen], become the explicit prefix bytes of the
    child; its [partialLen] becomes its former value plus that of the
    parent plus 1 (which the integer type of [partialLen] holds); nothing
    else of the child changes; and the child takes the place of the parent
    in the caller's slot. *)
Theorem removeChild4_collapse (st : state) (a : nat) (hd : Header)
    (keys : list Z) (children : list ptr) (c b : Z) (l ca : nat)
    (child : Node) :
  let n := Node4 hd keys children in
  heap_ok (st_heap st) = true ->
  st_heap st !! a = Some n -> numChildren hd = 2 ->
  childOf n c = Ok (Some l) ->
  b <> c -> assoc n b = Some ca -> ca <> a ->
  st_heap st !! ca = Some child -> isLeaf child = false ->
  getPartialLen child + getPartialLen n + 1 < partialLenMod ->
  exists st' child',
    removeChild4 st a (Some l) = Ok st'
    /\ st_slot st' = Some ca
    /\ st_heap st' !! ca = Some child'
    /\ explicit child'
       = take (Z.to_nat maxPrefixLen) (explicit n ++ b :: explicit child)
    /\ getPartialLen child'
       = getPartialLen child + getPartialLen n + 1
    /\ getNumChildren child' = getNumChildren child
    /\ setHeader child' (getHeader child) = child.
Proof.
  intros n Hheap Ha Hnc Hfe Hbc Hb Hne Hca Hleaf Hov. unfold n in *.
  pose proof (heap_ok_lookup _ _ _ Hheap Ha) as Hok. simpl in Hok.
  apply andb_true_iff in Hok as [Hh Hok]. pose proof Hok as Hok'.
  apply sorted_ok_spec in Hok' as (Lk & Lc & _).
  rewrite childOf_Node4 in Hfe by (done || lia). injection Hfe as Hfe.
  destruct (sorted_remove 4 _ hd keys children c l Hok Hfe)
    as (i & Hi & Ek & Ec & Hpos).
  rewrite (removeChild4_eq st a hd keys children (Some l) i) by (done || lia).
  destruct (sorted_delete_ok 4 (length (st_heap st)) hd keys children i)
    as (S1 & S2 & S3); [done | lia | done |].
  rewrite (list_lookup_total_correct _ _ _ Ek) in S3.
  set (keys' := take i keys ++ _) in *.
  set (children' := take i children ++ _) in *.
  set (hd' := mkHeader _ _ _) in *.
  assert (Hh' : header_ok hd' = true) by done.
  assert (E1 : numChildren hd' = 1) by lia.
  rewrite E1. change (1 =? 1) with true. cbv iota.
  (* the surviving entry is the first of the node *)
  specialize (S3 b). simpl in Hb. rewrite Hb in S3.
  destruct (Z.eqb_spec b c) as [|_]; [done|].
  rewrite Hnc in S3. change (Z.to_nat 2 - 1)%nat with 1%nat in S3.
  pose proof S1 as S1'. apply sorted_ok_spec in S1' as (Lk' & Lc' & _).
  destruct (find_entry_inv (take 1 keys') (take 1 children') b)
    as [[E0 _]|(j & Ej & Ecj)].
  { rewrite !length_take. lia. }
  { congruence. }
  rewrite S3 in Ecj.
  apply lookup_take_Some in Ej as [Ej Hj].
  apply lookup_take_Some in Ecj as [Ecj _].
  assert (j = 0%nat) by lia. subst j.
  pose proof (heap_ok_lookup _ _ _ Hheap Hca) as Hcok.
  pose proof (node_ok_header _ _ Hcok Hleaf) as Hhc.
  rewrite (collapse_Ok st a ca hd' keys' children' child); try done;
    [|by apply list_lookup_total_correct].
  rewrite (list_lookup_total_correct _ _ _ Ej).
  pose proof Hhc as Hhc'. apply header_ok_spec in Hhc' as [Lq HC].
  pose proof Hh as Hh''. apply header_ok_spec in Hh'' as [Lp HP].
  change (partial (getHeader child)) with (getPartial child) in Lq.
  change (partialLen (getHeader child)) with (getPartialLen child) in HC.
  destruct params_inv as (Hm & _).
  change (partialLen hd') with (partialLen hd).
  change (partial hd') with (partial hd).
  change (getPartialLen (Node4 hd keys children)) with (partialLen hd) in *.
  set (X := take (Z.to_nat maxPrefixLen) _).
  assert (LX : length X
               = Z.to_nat (Z.min maxPrefixLen
                             (getPartialLen child + partialLen hd + 1))).
  { unfold X. rewrite length_take, length_app, length_take. simpl.
    rewrite length_take. lia. }
  rewrite Z.mod_small by lia.
  eexists _, _. split; [done|]. cbn [st_slot st_heap].
  split; [done|]. split.
  { apply list_lookup_insert_eq. rewrite length_insert.
    by eapply lookup_lt_Some. }
  split_and!.
  - unfold explicit. fold X.
    replace (getPartialLen (setPartialLen _ _))
      with (getPartialLen child + partialLen hd + 1) by (by destruct child).
    replace (getPartial (setPartialLen (setPartial child
               (X ++ drop (length X) (getPartial child))) _))
      with (X ++ drop (length X) (getPartial child)) by (by destruct child).
    rewrite <- LX. rewrite take_app_le by done. by apply take_ge.
  - by destruct child.
  - by destruct child.
  - by destruct child as [[? ? ?] ? ? ?|[? ? ?] ? ?|[? ? ?] ? ?|[? ? ?] ? ?
                          |[? ? ?] ?].
Qed.

(** C4 (amended).  After any sequence of [addChild] and [removeChild]
    operations on a store whose nodes satisfy the representation invariant,
    at every node [numChildren] matches the storage of its variant: the
    first [numChildren] entries of the children array of a [Node4] or
    [Node16] are non-nil, [numChildren] is the number of non-zero index
    entries of a [Node48], and, in its integer type, the number of non-nil
    slots of a [Node256]. *)
Theorem numChildren_counts_region (st : state) (ops : list op) :
  heap_ok (st_heap st) = true -> ops_ok st ops = true ->
  exists st',
    run st ops = Ok st'
    /\ forall a n, st_heap st' !! a = Some n -> count_region n = true.
Proof.
  intros Hheap Hops. destruct (run_ok ops st Hheap Hops) as (st' & E & Hok).
  exists st'. split; [done|]. intros a n Ha.
  eapply node_ok_count_region. by eapply heap_ok_lookup.
Qed.


(** * Further properties *)

(** ** The key codec, leaves *)

Lemma getKey_snoc (key : list Z) (b : Z) : getKey (key ++ [b]) = key.
Proof.
  unfold getKey. rewrite length_app. simpl.
  replace (length key + 1)%nat with (S (length key)) by lia.
  rewrite go_copy_long by (rewrite length_replicate, length_app; simpl; lia).
  rewrite length_replicate. by rewrite take_app_length.
Qed.

(** X1.  [getKey] undoes [getTreeKey]: decoding the codec-transformed key
    gives the application key back, for every key (the empty one too). *)
Theorem getKey_getTreeKey (key : list Z) : getKey (getTreeKey key) = key.
Proof. rewrite getTreeKey_app. apply getKey_snoc. Qed.

(** X2.  [getKey] removes the last byte of its argument whatever that byte
    is (it does not test for the terminator), keeps the length otherwise,
    and returns the empty key on the empty key. *)
Theorem getKey_removes_last (key : list Z) :
  getKey key = take (length key - 1) key
  /\ length (getKey key) = (length key - 1)%nat
  /\ (forall b, getKey (key ++ [b]) = key).
Proof.
  assert (E : getKey key = take (length key - 1) key).
  { destruct (decide (key = [])) as [->|Hne]; [done|].
    destruct (exists_last Hne) as (k & b & ->).
    rewrite getKey_snoc, length_app. simpl.
    replace (length k + 1 - 1)%nat with (length k) by lia.
    by rewrite take_app_length. }
  split; [done|]. split; [|intros b; apply getKey_snoc].
  rewrite E, length_take. lia.
Qed.

Lemma bytes_Compare_zero (a b : list Z) : bytes_Compare a b = 0 <-> a = b.
Proof.
  revert b. induction a as [|x a IH]; intros [|y b]; simpl; try done.
  destruct (Z.ltb_spec x y); [split; [done | intros [= -> _]; lia]|].
  destruct (Z.ltb_spec y x); [split; [done | intros [= -> _]; lia]|].
  rewrite IH. split; [intros ->; f_equal; lia | by intros [= _ ->]].
Qed.

(** X3.  [leafMatches] returns [0] exactly when the given length is the
    leaf's key length and the given key is the leaf's key. *)
Theorem leafMatches_zero_iff (hd : Header) (v : T) (nkeyLen : Z)
    (nkey key : list Z) (keyLen : Z) :
  leafMatches (NodeLeaf hd v nkeyLen nkey) key keyLen = Ok 0
  <-> nkeyLen = keyLen /\ nkey = key.
Proof.
  unfold leafMatches. destruct (Z.eqb_spec nkeyLen keyLen) as [E|E]; simpl.
  - split.
    + intros [= H]. by apply bytes_Compare_zero in H.
    + intros [_ H]. f_equal. by apply bytes_Compare_zero.
  - split; [done | by intros [? _]].
Qed.

(** X4.  A leaf made by [makeLeaf] from a key shorter than [2^32] bytes
    holds the value, the key and its length, and [leafMatches] on it with
    that key returns [0]. *)
Theorem makeLeaf_leafMatches (key : list Z) (value : T) :
  Z.of_nat (length key) < 2 ^ 32 ->
  (exists hd,
     makeLeaf key value = NodeLeaf hd value (Z.of_nat (length key)) key)
  /\ leafMatches (makeLeaf key value) key (Z.of_nat (length key)) = Ok 0.
Proof.
  intros Hlen.
  assert (E : makeLeaf key value
              = NodeLeaf (getHeader (allocNode leafType)) value
                  (Z.of_nat (length key)) key).
  { unfold makeLeaf. cbn [allocNode zeroNode setPartial setPartialLen
      setHeader getHeader].
    rewrite Z.mod_small by lia. rewrite Nat2Z.id.
    rewrite go_copy_long by (by rewrite length_replicate).
    rewrite length_replicate. by rewrite firstn_all. }
  split; [by eexists|]. rewrite E. unfold leafMatches.
  rewrite Z.eqb_refl. cbn [negb]. f_equal. by apply bytes_Compare_zero.
Qed.

Lemma first_mismatch_comm (a b : list Z) :
  first_mismatch a b = first_mismatch b a.
Proof.
  revert b. induction a as [|x a IH]; intros [|y b]; simpl; try done.
  rewrite (Z.eqb_sym y x). destruct (x =? y); [by rewrite IH | done].
Qed.

(** The comparison loop run over the whole common length of two strings,
    from the offset [depth] of both. *)
Lemma cmp_loop_common (x key : list Z) (depth : Z) (n : nat) :
  0 <= depth ->
  n = (length (drop (Z.to_nat depth) x)
         `min` length (drop (Z.to_nat depth) key))%nat ->
  exists b,
    cmp_loop x depth key depth 0 n
    = Ok (b, Z.of_nat (first_mismatch (drop (Z.to_nat depth) x)
                         (drop (Z.to_nat depth) key))).
Proof.
  intros Hd Hn. rewrite !length_drop in Hn.
  destruct (first_mismatch_le (drop (Z.to_nat depth) x)
              (drop (Z.to_nat depth) key)) as [F1 F2].
  rewrite !length_drop in F1, F2.
  destruct n as [|n'] eqn:En.
  - exists false. simpl. do 2 f_equal. lia.
  - rewrite <- En in *. rewrite cmp_loop_spec by lia. cbv zeta.
    rewrite !Z.add_0_r.
    set (f := first_mismatch _ _) in *.
    destruct (Nat.ltb_spec f n); eexists; do 2 f_equal; lia.
Qed.

(** X5.  [longestCommonPrefix] of two leaves whose [keyLen] is the length
    of their key, at a depth that is not negative: the number of bytes on
    which the two keys agree from [depth] on, up to the end of the shorter
    key ([0] when [depth] is at or past that end); the order of the two
    leaves does not matter. *)
Theorem longestCommonPrefix_spec (hd1 hd2 : Header) (v1 v2 : T)
    (key1 key2 : list Z) (depth : Z) :
  let l1 := NodeLeaf hd1 v1 (Z.of_nat (length key1)) key1 in
  let l2 := NodeLeaf hd2 v2 (Z.of_nat (length key2)) key2 in
  0 <= depth ->
  longestCommonPrefix l1 l2 depth
  = Ok (Z.of_nat (first_mismatch (drop (Z.to_nat depth) key1)
                    (drop (Z.to_nat depth) key2)))
  /\ longestCommonPrefix l2 l1 depth = longestCommonPrefix l1 l2 depth.
Proof.
  intros l1 l2 Hd.
  assert (H : forall (h h' : Header) (u u' : T) (k k' : list Z),
            longestCommonPrefix (NodeLeaf h u (Z.of_nat (length k)) k)
              (NodeLeaf h' u' (Z.of_nat (length k')) k') depth
            = Ok (Z.of_nat (first_mismatch (drop (Z.to_nat depth) k)
                              (drop (Z.to_nat depth) k')))).
  { intros h h' u u' k k'. unfold longestCommonPrefix.
    destruct (cmp_loop_common k k' depth
                (Z.to_nat (if Z.of_nat (length k) <? Z.of_nat (length k')
                           then Z.of_nat (length k) - depth
                           else Z.of_nat (length k') - depth)) Hd)
      as [b E].
    { rewrite !length_drop.
      destruct (Z.ltb_spec (Z.of_nat (length k)) (Z.of_nat (length k'))); lia. }
    by rewrite E. }
  unfold l1, l2. rewrite !H. split; [done|].
  by rewrite first_mismatch_comm.
Qed.

(** X6.  [checkPrefix] on a node whose prefix buffer has [maxPrefixLen]
    bytes, at a depth that is not negative: the number of leading bytes of
    the node's explicit prefix that the key matches from [depth] on.  So
    the result is at most [min(partialLen, maxPrefixLen)] and at most the
    number of key bytes left. *)
Theorem checkPrefix_first_mismatch (n : Node) (key : list Z) (depth : Z) :
  let r := first_mismatch (explicit n) (drop (Z.to_nat depth) key) in
  header_ok (getHeader n) = true -> 0 <= depth ->
  checkPrefix n key (Z.of_nat (length key)) depth = Ok (Z.of_nat r)
  /\ Z.of_nat r <= Z.min (getPartialLen n) maxPrefixLen
  /\ (r <= length key - Z.to_nat depth)%nat.
Proof.
  intros r Hh Hd. apply header_ok_spec in Hh as [Lp HP].
  destruct params_inv as (Hm & _).
  change (partial (getHeader n)) with (getPartial n) in Lp.
  change (partialLen (getHeader n)) with (getPartialLen n) in HP.
  set (K := drop (Z.to_nat depth) key) in *.
  assert (LK : length K = (length key - Z.to_nat depth)%nat)
    by (unfold K; by rewrite length_drop).
  set (e := Z.to_nat (Z.min maxPrefixLen (getPartialLen n))).
  assert (Er : r = (e `min` first_mismatch (getPartial n) K)%nat)
    by (unfold r, explicit; by rewrite first_mismatch_take).
  destruct (first_mismatch_le (getPartial n) K) as [F1 F2].
  split; [|lia].
  unfold checkPrefix. rewrite !go_min_spec.
  set (c := Z.to_nat (Z.min (Z.min (getPartialLen n) maxPrefixLen)
                        (Z.of_nat (length key) - depth))).
  destruct c as [|c'] eqn:Ec.
  - simpl. do 2 f_equal. lia.
  - rewrite <- Ec in *. rewrite cmp_loop_spec by lia. cbv zeta.
    rewrite !Z.add_0_r, !Z.add_0_l. change (Z.to_nat 0) with 0%nat.
    rewrite drop_0. fold K.
    set (f := first_mismatch (getPartial n) K) in *.
    destruct (Nat.ltb_spec f c); rewrite bind_Ok; f_equal; lia.
Qed.

Lemma cmp_loop_bounds (x : list Z) (xoff : Z) (key : list Z) (koff : Z)
    (n : nat) (idx : Z) (b : bool) (i : Z) :
  cmp_loop x xoff key koff idx n = Ok (b, i) ->
  idx <= i <= idx + Z.of_nat n.
Proof.
  revert idx. induction n as [|n IH]; intros idx; cbn [cmp_loop].
  - intros [= _ <-]. lia.
  - intros H. apply bind_Ok_inv in H as (u & _ & H).
    apply bind_Ok_inv in H as (v & _ & H).
    destruct (negb (u =? v)).
    + injection H as _ <-. lia.
    + apply IH in H. lia.
Qed.

(** X7.  Whenever [prefixMismatch] returns, its result is not negative and
    at most the number of key bytes left after [depth]: the caller can add
    it to [depth] without passing the end of the key. *)
Theorem prefixMismatch_bounds (fuel : nat) (h : heap) (a : nat)
    (key : list Z) (keyLen depth r : Z) :
  prefixMismatch fuel h a key keyLen depth = Ok r ->
  0 <= r <= Z.max 0 (keyLen - depth).
Proof.
  unfold prefixMismatch. destruct (h !! a) as [n|]; [|done].
  rewrite !go_min_spec. intros H.
  apply bind_Ok_inv in H as ([b i] & E1 & H).
  apply cmp_loop_bounds in E1.
  assert (B1 : 0 <= i <= Z.max 0 (keyLen - depth)) by lia.
  destruct b; [by injection H as <-|].
  destruct (maxPrefixLen <? getPartialLen n); [|by injection H as <-].
  apply bind_Ok_inv in H as (l & _ & H).
  destruct l as [la|]; [|by injection H as <-].
  destruct (h !! la) as [[hd v lkeyLen lkey| | | |]|]; try done.
  rewrite go_min_spec in H.
  apply bind_Ok_inv in H as ([b' i'] & E2 & H).
  apply cmp_loop_bounds in E2. injection H as <-. lia.
Qed.

(** ** Lookup against growth and shrink *)

Lemma childOf_assoc (sz : nat) (n : Node) (b : Z) :
  node_ok sz n = true -> is_byte b = true -> childOf n b = Ok (assoc n b).
Proof.
  intros Hok Hb.
  destruct n as [hd v kl k|hd keys children|hd keys children|hd keys children
                 |hd children]; [done| | | |]; simpl in Hok;
    apply andb_true_iff in Hok as [_ Hok].
  - apply sorted_ok_spec in Hok as (Lk & Lc & Hnc & _).
    by apply childOf_Node4.
  - apply sorted_ok_spec in Hok as (Lk & Lc & Hnc & _).
    by apply childOf_Node16.
  - by eapply childOf_Node48.
  - apply direct_ok_spec in Hok as (Lc & _). by apply childOf_Node256.
Qed.

Lemma header_ok_alloc (k : Z) :
  header_ok (mkHeader maxPrefixLen k (replicate (Z.to_nat maxPrefixLen) 0))
  = true.
Proof.
  destruct params_inv as (Hm & _). apply header_ok_spec. simpl.
  by rewrite length_replicate.
Qed.

(** X8.  A node that [allocNode] has just made satisfies the representation
    invariant of its variant, and [findChild] finds no child in it under
    any key byte. *)
Theorem allocNode_empty (sz : nat) (t : nodeType) (b : Z) :
  is_byte b = true ->
  node_ok sz (allocNode t) = true
  /\ getNumChildren (allocNode t) = 0
  /\ findChild (allocNode t) b = Ok None.
Proof.
  intros Hb. pose proof Hb as Hb'. apply is_byte_spec in Hb'.
  assert (Hok : node_ok sz (allocNode t) = true).
  { destruct t; cbn [allocNode zeroNode setPartial setPartialLen setHeader
                       getNumChildren getPartialLen getPartial getHeader
                       numChildren partialLen partial node_ok]; [done| | | |];
      rewrite header_ok_alloc; cbn [andb].
    - by vm_compute.
    - by vm_compute.
    - apply index_ok_spec. cbn [numChildren]. split_and!.
      + by rewrite length_replicate.
      + by rewrite length_replicate.
      + intros i k Hk. apply lookup_replicate in Hk as [-> _]. lia.
      + intros i k Hk Hne. apply lookup_replicate in Hk as [-> _]. done.
      + by rewrite countb_replicate_false.
      + by rewrite countb_replicate_false.
      + intros i j k Hk _ Hne. apply lookup_replicate in Hk as [-> _]. done.
      + intros i j x Hi. apply lookup_replicate in Hi as [? _]. done.
      + intros x Hx. apply elem_of_replicate in Hx as [? _]. done.
    - apply direct_ok_spec. cbn [numChildren]. split_and!.
      + by rewrite length_replicate.
      + by rewrite countb_replicate_false.
      + intros i j x Hi. apply lookup_replicate in Hi as [? _]. done.
      + intros x Hx. apply elem_of_replicate in Hx as [? _]. done. }
  split; [done|]. split; [by destruct t|].
  destruct t; cbn [allocNode zeroNode setPartial setPartialLen setHeader
                     getNumChildren getPartialLen getPartial getHeader
                     numChildren partialLen partial findChild]; try done.
  - change ((Z.shiftl 1 0 - 1) mod 2 ^ 16) with 0. by rewrite Z.land_0_r.
  - rewrite (zget_Z (replicate 256 0) b 0) by
      (lia || (apply lookup_replicate_2; lia)).
    done.
  - rewrite (zget_Z (replicate 256 None) b None) by
      (lia || (apply lookup_replicate_2; lia)).
    done.
Qed.

(** What [addChild] leaves behind, for the compositions below. *)
Lemma addChild_state (st : state) (a : nat) (n : Node) (c : Z) (child : nat) :
  let a' := if exhausted n then length (st_heap st) else a in
  heap_ok (st_heap st) = true ->
  st_heap st !! a = Some n -> isLeaf n = false ->
  is_byte c = true -> childOf n c = Ok None ->
  (child < length (st_heap st))%nat -> child ∉ live (entries n) ->
  exists st' n',
    addChild st a c child = Ok st'
    /\ heap_ok (st_heap st') = true
    /\ st_heap st' !! a' = Some n'
    /\ node_ok (length (st_heap st')) n' = true
    /\ added n n' c child
    /\ getArtNodeType n'
       = (if exhausted n then grow (getArtNodeType n) else getArtNodeType n)
    /\ (length (st_heap st) <= length (st_heap st'))%nat
    /\ (forall x m, st_heap st !! x = Some m -> x <> a ->
          st_heap st' !! x = Some m).
Proof.
  intros a' Hheap Ha Hl Hc Habs Hsz Hnew.
  destruct (addChild_spec st a n c child) as (st' & n' & E & Hadd & Hn' & Hpl);
    try done.
  { by eapply heap_ok_lookup. }
  assert (Halt : (a < length (st_heap st))%nat) by (by eapply lookup_lt_Some).
  exists st', n'. split; [done|]. unfold a'.
  destruct (exhausted n); destruct Hpl as [-> Hty]; simpl in *.
  - rewrite length_app in *. simpl in *. rewrite Nat.add_1_r in Hn'.
    split_and!; try done; try lia.
    + by apply heap_ok_snoc.
    + by rewrite lookup_app_r, Nat.sub_diag by lia.
    + by rewrite Nat.add_1_r.
    + intros x m Hx _. by apply lookup_app_l_Some.
  - rewrite ?length_insert in *. split_and!; try done; try lia.
    + by apply heap_ok_insert.
    + by apply list_lookup_insert_eq.
    + intros x m Hx Hxa. by rewrite list_lookup_insert_ne.
Qed.

(** X9.  Insert, then look up: after [addChild] of the key byte [c],
    [findChild] on the resulting node (the node itself, or the larger node
    that replaces it) finds the new child under [c], and under every other
    key byte what it found before. *)
Theorem findChild_after_addChild (st : state) (a : nat) (n : Node) (c : Z)
    (child : nat) :
  let a' := if exhausted n then length (st_heap st) else a in
  heap_ok (st_heap st) = true ->
  st_heap st !! a = Some n -> isLeaf n = false ->
  is_byte c = true -> childOf n c = Ok None ->
  (child < length (st_heap st))%nat -> child ∉ live (entries n) ->
  exists st' n',
    addChild st a c child = Ok st'
    /\ st_heap st' !! a' = Some n'
    /\ childOf n' c = Ok (Some child)
    /\ forall b, is_byte b = true -> b <> c -> childOf n' b = childOf n b.
Proof.
  intros a' Hheap Ha Hl Hc Habs Hsz Hnew.
  destruct (addChild_state st a n c child)
    as (st' & n' & E & _ & Ha' & Hn' & (_ & _ & _ & Hassoc) & _); try done.
  pose proof (heap_ok_lookup _ _ _ Hheap Ha) as Hn.
  exists st', n'. split; [done|]. split; [done|]. split.
  - rewrite (childOf_assoc _ _ _ Hn' Hc), (Hassoc c Hc).
    by rewrite Z.eqb_refl.
  - intros b Hb Hbc.
    rewrite (childOf_assoc _ _ _ Hn' Hb), (childOf_assoc _ _ _ Hn Hb).
    rewrite (Hassoc b Hb). by destruct (Z.eqb_spec b c).
Qed.

(** [removeChild4], with what it stores. *)
Lemma removeChild4_shape (st : state) (a : nat) (hd : Header) (keys : list Z)
    (children : list ptr) (c : Z) (l : nat) :
  let n := Node4 hd keys children in
  let sz := length (st_heap st) in
  heap_ok (st_heap st) = true ->
  st_heap st !! a = Some n ->
  childOf n c = Ok (Some l) ->
  exists st' n1,
    removeChild4 st a (Some l) = Ok st'
    /\ getArtNodeType n1 = node4 /\ node_ok sz n1 = true
    /\ (forall b, assoc n1 b = if b =? c then None else assoc n b)
    /\ (st_heap st' = <[a := n1]> (st_heap st)
        \/ exists b ca child child',
             is_byte b = true /\ assoc n b = Some ca
             /\ st_heap st !! ca = Some child
             /\ isLeaf child = false /\ isLeaf child' = false
             /\ node_ok sz child' = true
             /\ st_heap st' = <[ca := child']> (<[a := n1]> (st_heap st))).
Proof.
  intros n sz Hheap Ha Hfe. unfold n, sz in *.
  pose proof (heap_ok_lookup _ _ _ Hheap Ha) as Hok. simpl in Hok.
  apply andb_true_iff in Hok as [Hh Hok]. pose proof Hok as Hok'.
  apply sorted_ok_spec in Hok' as (Lk & Lc & Hnc & _).
  rewrite childOf_Node4 in Hfe by (done || lia). injection Hfe as Hfe.
  destruct (sorted_remove 4 _ hd keys children c l Hok Hfe)
    as (i & Hi & Ek & Ec & Hpos).
  rewrite (removeChild4_eq st a hd keys children (Some l) i) by (done || lia).
  destruct (sorted_delete_ok 4 (length (st_heap st)) hd keys children i)
    as (S1 & S2 & S3); [done | lia | done |].
  rewrite (list_lookup_total_correct _ _ _ Ek) in S3.
  set (keys' := take i keys ++ _) in *.
  set (children' := take i children ++ _) in *.
  set (hd' := mkHeader _ _ _) in *.
  assert (Hh' : header_ok hd' = true) by done.
  assert (Hn1 : node_ok (length (st_heap st)) (Node4 hd' keys' children')
                = true).
  { simpl. by rewrite Hh', S1. }
  assert (Hassoc : forall p b,
            assoc (Node4 (mkHeader (partialLen hd') (numChildren hd') p)
                     keys' children') b
            = if b =? c then None else assoc (Node4 hd keys children) b).
  { intros p b. cbn [assoc numChildren].
    replace (Z.to_nat (numChildren hd'))
      with (Z.to_nat (numChildren hd) - 1)%nat by lia.
    apply S3. }
  assert (Hassoc' : forall b,
            assoc (Node4 hd' keys' children') b
            = if b =? c then None else assoc (Node4 hd keys children) b)
    by (intros b; apply (Hassoc (partial hd'))).
  destruct (Z.eqb_spec (numChildren hd') 1) as [E1|E1].
  - pose proof S1 as S1'.
    apply sorted_ok_spec in S1' as (Lk' & Lc' & _ & Hb' & _ & Ho' & _ & Hv').
    rewrite E1 in Ho', Hv'. change (Z.to_nat 1) with 1%nat in *.
    destruct (lookup_lt_is_Some_2 children' 0) as [x Ex]; [lia|].
    destruct (lookup_lt_is_Some_2 keys' 0) as [b Eb]; [lia|].
    assert (Hin : x ∈ take 1 children').
    { apply (list_elem_of_lookup_2 _ 0). by rewrite lookup_take_lt by lia. }
    destruct x as [ca|]; [|by specialize (Ho' _ Hin)].
    specialize (Hv' _ Hin).
    destruct (lookup_lt_is_Some_2 (st_heap st) ca) as [child Hca]; [done|].
    pose proof (list_lookup_total_correct _ _ _ Ex) as Ex'.
    destruct (isLeaf child) eqn:Hleaf.
    + unfold collapse. rewrite Ex', Hca, Hleaf. simpl.
      eexists _, (Node4 hd' keys' children'). split; [done|].
      split_and!; try done. by left.
    + pose proof (heap_ok_lookup _ _ _ Hheap Hca) as Hcok.
      pose proof (node_ok_header _ _ Hcok Hleaf) as Hhc.
      rewrite (collapse_Ok st a ca hd' keys' children' child) by done.
      pose proof Hhc as Hhc'. apply header_ok_spec in Hhc' as [Lq _].
      pose proof Hh' as Hh''. apply header_ok_spec in Hh'' as [Lp HP].
      destruct params_inv as (Hm & Hm' & _).
      eexists.
      match goal with
      | |- exists n1, Ok (mkState (<[_ := _]> (<[_ := ?m]> _)) _) = _ /\ _ =>
          exists m
      end.
      split; [done|]. cbn [st_heap].
      split; [done|]. split.
      { simpl. rewrite (sorted_ok_header 4 _ hd') by done.
        rewrite S1, andb_true_r.
        apply header_ok_spec. simpl. split; [|done]. by apply merged_length. }
      split; [apply Hassoc|]. right.
      exists b, ca, child.
      match goal with
      | |- context [<[ca := ?m]> _] => exists m
      end.
      split_and!; try done.
      * apply Hb'. by eapply list_elem_of_lookup_2.
      * (* the surviving entry is an entry of the node as it was *)
        pose proof (Hassoc' b) as Hb. cbn [assoc] in Hb. rewrite E1 in Hb.
        change (Z.to_nat 1) with 1%nat in Hb.
        rewrite (find_entry_at (take 1 keys') (take 1 children') b 0) in Hb.
        -- rewrite (list_lookup_total_correct _ _ (Some ca)) in Hb
             by (by rewrite lookup_take_lt by lia).
           destruct (b =? c); [done|]. by symmetry.
        -- apply NoDup_alt. intros j1 j2 y Hj1 Hj2.
           apply lookup_take_Some in Hj1 as [_ ?].
           apply lookup_take_Some in Hj2 as [_ ?]. lia.
        -- by rewrite lookup_take_lt by lia.
      * by destruct child.
      * apply node_ok_reheader; [done| |].
        -- by apply merged_length.
        -- apply Z.mod_pos_bound. lia.
  - eexists _, (Node4 hd' keys' children'). split; [done|].
    split_and!; try done. by left.
Qed.

(** What [removeChild] leaves behind: the node at [a] and the node that
    replaces it, if any, hold the associations of [n] but that of [c]. *)
Lemma removeChild_state (st : state) (a : nat) (n : Node) (c : Z) (l : nat) :
  let sz := length (st_heap st) in
  heap_ok (st_heap st) = true ->
  st_heap st !! a = Some n -> isLeaf n = false ->
  is_byte c = true -> childOf n c = Ok (Some l) ->
  (getArtNodeType n = node4 ->
   forall b, is_byte b = true -> assoc n b <> Some a) ->
  exists st',
    removeChild st a c (Some l) = Ok st'
    /\ heap_ok (st_heap st') = true
    /\ (sz <= length (st_heap st'))%nat
    /\ (exists n1, st_heap st' !! a = Some n1
                   /\ getArtNodeType n1 = getArtNodeType n)
    /\ (forall a' n', a' = a \/ (sz <= a')%nat ->
          st_heap st' !! a' = Some n' ->
          node_ok (length (st_heap st')) n' = true
          /\ forall b, is_byte b = true ->
               assoc n' b = if b =? c then None else assoc n b)
    /\ (forall x m, st_heap st !! x = Some m -> isLeaf m = true ->
          st_heap st' !! x = Some m).
Proof.
  intros sz Hheap Ha Hl Hc Hfe Hacyc. unfold sz.
  assert (Halt : (a < length (st_heap st))%nat) by (by eapply lookup_lt_Some).
  assert (E4 : (exists hd keys children, n = Node4 hd keys children)
               \/ getArtNodeType n <> node4).
  { destruct n; try (by right). left. by eauto. }
  destruct E4 as [(hd & keys & children & ->)|E4].
  - unfold removeChild. rewrite Ha. cbn [getArtNodeType].
    destruct (removeChild4_shape st a hd keys children c l)
      as (st' & n1 & E & Hty & Hn1 & Hassoc & Hshape); try done.
    exists st'. split; [done|].
    destruct Hshape as [Eh|(b & ca & child & child' & Hb & Hca & Hch & Hlf
                            & Hlf' & Hok' & Eh)]; rewrite Eh.
    + rewrite length_insert. split_and!.
      * by apply heap_ok_insert.
      * done.
      * exists n1. split; [|done]. by apply list_lookup_insert_eq.
      * intros a' n' [->|Hge] Hl'.
        -- rewrite list_lookup_insert_eq in Hl' by done.
           injection Hl' as <-. split; [done|]. intros; apply Hassoc.
        -- apply lookup_lt_Some in Hl'. rewrite length_insert in Hl'. lia.
      * intros x m Hx Hm. rewrite list_lookup_insert_ne; [done|].
        intros <-. rewrite Ha in Hx. by injection Hx as <-.
    + assert (Hne : ca <> a).
      { intros ->. by apply (Hacyc eq_refl b Hb). }
      rewrite !length_insert. split_and!.
      * apply heap_ok_insert; [by apply heap_ok_insert|].
        by rewrite length_insert.
      * done.
      * exists n1. split; [|done].
        rewrite list_lookup_insert_ne by done.
        by apply list_lookup_insert_eq.
      * intros a' n' [->|Hge] Hl'.
        -- rewrite list_lookup_insert_ne in Hl' by done.
           rewrite list_lookup_insert_eq in Hl' by done.
           injection Hl' as <-. split; [done|]. intros; apply Hassoc.
        -- apply lookup_lt_Some in Hl'. rewrite !length_insert in Hl'. lia.
      * intros x m Hx Hm. rewrite !list_lookup_insert_ne; [done| |].
        -- intros <-. rewrite Ha in Hx. by injection Hx as <-.
        -- intros <-. rewrite Hch in Hx. injection Hx as <-. congruence.
  - destruct (removeChild_spec st a n c l)
      as (st' & n1 & E & Hrem & Hty & Hn1 & Hpl); try done.
    { by eapply heap_ok_lookup. }
    exists st'. split; [done|].
    destruct Hrem as (_ & _ & _ & Hassoc).
    destruct (underflown n1).
    + destruct Hpl as (n' & -> & Hty' & Hn' & (_ & _ & _ & Hassoc')).
      cbn [install store st_heap fst]. rewrite length_app, length_insert.
      simpl. rewrite Nat.add_1_r. split_and!.
      * by apply (heap_ok_install st a n1 n').
      * lia.
      * exists n1. split; [|done].
        rewrite lookup_app_l by (by rewrite length_insert).
        by apply list_lookup_insert_eq.
      * intros a' m [->|Hge] Hl'.
        -- rewrite lookup_app_l in Hl' by (by rewrite length_insert).
           rewrite list_lookup_insert_eq in Hl' by done.
           injection Hl' as <-. split; [|done].
           eapply node_ok_mono; [|done]. lia.
        -- rewrite lookup_app_r in Hl' by (by rewrite length_insert).
           rewrite length_insert in Hl'.
           apply list_lookup_singleton_Some in Hl' as [_ <-]. done.
      * intros x m Hx Hm.
        rewrite lookup_app_l
          by (rewrite length_insert; by eapply lookup_lt_Some).
        rewrite list_lookup_insert_ne; [done|].
        intros <-. rewrite Ha in Hx. injection Hx as <-. congruence.
    + subst st'. cbn [store st_heap]. rewrite length_insert. split_and!.
      * by apply heap_ok_insert.
      * done.
      * exists n1. split; [|done]. by apply list_lookup_insert_eq.
      * intros a' m [->|Hge] Hl'.
        -- rewrite list_lookup_insert_eq in Hl' by done.
           injection Hl' as <-. done.
        -- apply lookup_lt_Some in Hl'. rewrite length_insert in Hl'. lia.
      * intros x m Hx Hm. rewrite list_lookup_insert_ne; [done|].
        intros <-. rewrite Ha in Hx. injection Hx as <-. congruence.
Qed.

(** X10.  Remove, then look up: after [removeChild] of a key byte [c] that
    the node holds, [findChild] on the node, and on the smaller node that
    replaces it when it is demoted, finds nothing under [c] and, under every
    other key byte, what it found before.  (For a [Node4], no key byte of
    which leads to the node itself.) *)
Theorem findChild_after_removeChild (st : state) (a : nat) (n : Node) (c : Z)
    (l : nat) :
  heap_ok (st_heap st) = true ->
  st_heap st !! a = Some n -> isLeaf n = false ->
  is_byte c = true -> childOf n c = Ok (Some l) ->
  (getArtNodeType n = node4 ->
   forall b, is_byte b = true -> assoc n b <> Some a) ->
  exists st',
    removeChild st a c (Some l) = Ok st'
    /\ is_Some (st_heap st' !! a)
    /\ forall a' n',
         a' = a \/ (length (st_heap st) <= a')%nat ->
         st_heap st' !! a' = Some n' ->
         childOf n' c = Ok None
         /\ forall b, is_byte b = true -> b <> c ->
              childOf n' b = childOf n b.
Proof.
  intros Hheap Ha Hl Hc Hfe Hacyc.
  destruct (removeChild_state st a n c l)
    as (st' & E & _ & _ & (n1 & Hn1 & _) & Hnodes & _); try done.
  pose proof (heap_ok_lookup _ _ _ Hheap Ha) as Hn.
  exists st'. split; [done|]. split; [by eexists|].
  intros a' n' Ha' Hl'. destruct (Hnodes a' n' Ha' Hl') as [Hok Hassoc].
  split.
  - rewrite (childOf_assoc _ _ _ Hok Hc), (Hassoc c Hc).
    by rewrite Z.eqb_refl.
  - intros b Hb Hbc.
    rewrite (childOf_assoc _ _ _ Hok Hb), (childOf_assoc _ _ _ Hn Hb).
    rewrite (Hassoc b Hb). by destruct (Z.eqb_spec b c).
Qed.

Lemma grow_not_leaf (n n' : Node) :
  isLeaf n = false ->
  getArtNodeType n'
  = (if exhausted n then grow (getArtNodeType n) else getArtNodeType n) ->
  isLeaf n' = false
  /\ (getArtNodeType n' = node4 ->
      exhausted n = false /\ getArtNodeType n = node4).
Proof.
  intros Hl Hty. destruct (exhausted n); split.
  - destruct n'; [|done..]. by destruct n.
  - intros E. rewrite E in Hty. by destruct n.
  - destruct n'; [|done..]. by destruct n.
  - intros E. by rewrite E in Hty.
Qed.

(** X11.  Insert, then remove: [removeChild] of the key byte that
    [addChild] has just added succeeds, and [findChild] on the node it
    leaves, and on the smaller node that replaces it when it is demoted,
    finds, under every key byte, what it found before the two calls.
    (The new child is not the node itself, and for a [Node4] no key byte
    leads to the node itself.) *)
Theorem removeChild_after_addChild (st : state) (a : nat) (n : Node) (c : Z)
    (child : nat) :
  let a' := if exhausted n then length (st_heap st) else a in
  heap_ok (st_heap st) = true ->
  st_heap st !! a = Some n -> isLeaf n = false ->
  is_byte c = true -> childOf n c = Ok None ->
  (child < length (st_heap st))%nat -> child ∉ live (entries n) ->
  child <> a ->
  (getArtNodeType n = node4 ->
   forall b, is_byte b = true -> assoc n b <> Some a) ->
  exists st1 st2,
    addChild st a c child = Ok st1
    /\ removeChild st1 a' c (Some child) = Ok st2
    /\ is_Some (st_heap st2 !! a')
    /\ forall a2 n2,
         a2 = a' \/ (length (st_heap st1) <= a2)%nat ->
         st_heap st2 !! a2 = Some n2 ->
         forall b, is_byte b = true -> childOf n2 b = childOf n b.
Proof.
  intros a' Hheap Ha Hl Hc Habs Hsz Hnew Hca Hacyc.
  destruct (addChild_state st a n c child)
    as (st1 & n' & E1 & Hheap1 & Ha' & Hn' & (_ & _ & _ & Hassoc) & Hty & _);
    try done.
  fold a' in Ha'.
  pose proof (heap_ok_lookup _ _ _ Hheap Ha) as Hn.
  destruct (grow_not_leaf n n' Hl Hty) as [Hl' H4].
  assert (Hc0 : assoc n c = None).
  { rewrite (childOf_assoc _ _ _ Hn Hc) in Habs. by injection Habs. }
  destruct (removeChild_state st1 a' n' c child)
    as (st2 & E2 & _ & _ & (n2 & Hn2 & _) & Hnodes & _); try done.
  { rewrite (childOf_assoc _ _ _ Hn' Hc), (Hassoc c Hc).
    by rewrite Z.eqb_refl. }
  { intros E4 b Hb. destruct (H4 E4) as [Hex E4']. unfold a'. rewrite Hex.
    rewrite (Hassoc b Hb). destruct (b =? c); [congruence|].
    by apply Hacyc. }
  exists st1, st2. split; [done|]. split; [done|]. split; [by eexists|].
  intros a2 m2 Ha2 Hm2 b Hb. destruct (Hnodes a2 m2 Ha2 Hm2) as [Hok2 Has2].
  rewrite (childOf_assoc _ _ _ Hok2 Hb), (childOf_assoc _ _ _ Hn Hb).
  rewrite (Has2 b Hb), (Hassoc b Hb).
  destruct (Z.eqb_spec b c) as [->|]; [by rewrite Hc0 | done].
Qed.

(** X12.  Hysteresis: the node that replaces a full node in a promoting
    [addChild] is not demoted by the next [removeChild] on it, whatever
    key byte it removes: the removal updates the new node in place, and it
    keeps the larger variant. *)
Theorem promotion_survives_removal (st : state) (a : nat) (n : Node) (c : Z)
    (child : nat) :
  let a' := length (st_heap st) in
  heap_ok (st_heap st) = true ->
  st_heap st !! a = Some n -> isLeaf n = false ->
  is_byte c = true -> childOf n c = Ok None ->
  (child < length (st_heap st))%nat -> child ∉ live (entries n) ->
  exhausted n = true ->
  exists st1 n',
    addChild st a c child = Ok st1
    /\ st_heap st1 !! a' = Some n'
    /\ forall c' l,
         is_byte c' = true -> childOf n' c' = Ok (Some l) ->
         exists n2,
           removeChild st1 a' c' (Some l) = Ok (store st1 a' n2)
           /\ getArtNodeType n2 = grow (getArtNodeType n)
           /\ getNumChildren n2 = getNumChildren n.
Proof.
  intros a' Hheap Ha Hl Hc Habs Hsz Hnew Hex.
  destruct (addChild_state st a n c child)
    as (st1 & n' & E1 & Hheap1 & Ha' & Hn' & (_ & _ & Hnum & _) & Hty & _);
    try done.
  rewrite Hex in Ha', Hty. fold a' in Ha'.
  exists st1, n'. split; [done|]. split; [done|].
  intros c' l Hc' Hfe.
  assert (Hcap : getNumChildren n = 4 \/ getNumChildren n = 16
                 \/ getNumChildren n = 48).
  { destruct n; try done; simpl in Hex; apply Z.eqb_eq in Hex;
      unfold getNumChildren; simpl; lia. }
  assert (Hgrow : getArtNodeType n' <> node4 /\ isLeaf n' = false).
  { rewrite Hty. destruct n; try done; by destruct n'. }
  destruct Hgrow as [Hn4 Hl'].
  destruct (removeChild_spec st1 a' n' c' l)
    as (st2 & n1 & E2 & (_ & _ & Hnum1 & _) & Hty1 & _ & Hpl); try done.
  assert (Hk : getNumChildren n1 = getNumChildren n).
  { rewrite Hnum1, Hnum. rewrite incr_small by lia.
    rewrite decr_small by lia. lia. }
  assert (Hu : underflown n1 = false).
  { rewrite Hty in Hty1.
    destruct n; try done; destruct n1; try done; simpl in *;
      unfold getNumChildren in *; simpl in *; apply Z.eqb_neq;
      apply Z.eqb_eq in Hex; lia. }
  rewrite Hu in Hpl. subst st2.
  exists n1. split; [done|]. split; [congruence | done].
Qed.

Lemma assoc_entries (sz : nat) (n : Node) (b : Z) (x : nat) :
  node_ok sz n = true -> getArtNodeType n = node4 ->
  assoc n b = Some x -> x ∈ live (entries n).
Proof.
  intros Hok Hty Hb. destruct n as [| hd keys children | | |]; try done.
  simpl in *. apply andb_true_iff in Hok as [_ Hok].
  apply sorted_ok_spec in Hok as (Lk & Lc & Hnc & _).
  apply elem_of_live.
  destruct (find_entry_inv (take (Z.to_nat (numChildren hd)) keys)
              (take (Z.to_nat (numChildren hd)) children) b)
    as [[E _]|(i & _ & Ei)].
  - rewrite !length_take. lia.
  - congruence.
  - rewrite Hb in Ei. by eapply list_elem_of_lookup_2.
Qed.

(** One operation: the invariant, the size of the store and its leaves. *)
Lemma exec_frame (st : state) (o : op) :
  heap_ok (st_heap st) = true -> op_ok st o = true ->
  exists st',
    exec st o = Ok st'
    /\ heap_ok (st_heap st') = true
    /\ (length (st_heap st) <= length (st_heap st'))%nat
    /\ (forall x m, st_heap st !! x = Some m -> isLeaf m = true ->
          st_heap st' !! x = Some m).
Proof.
  intros Hheap Hop. destruct o as [a c child|a c]; simpl in *.
  - destruct (st_heap st !! a) as [n|] eqn:Ha; [|done].
    repeat (apply andb_true_iff in Hop as [Hop ?]).
    destruct (childOf n c) as [[x|]| |] eqn:Hfe; try done.
    destruct (addChild_state st a n c child)
      as (st' & n' & E & Hheap' & _ & _ & _ & _ & Hlen & Hframe); try done.
    + by destruct (isLeaf n).
    + by apply Nat.ltb_lt.
    + intros Hin. by rewrite bool_decide_eq_true_2 in H.
    + exists st'. split_and!; try done.
      intros x m Hx Hm. apply Hframe; [done|].
      intros ->. rewrite Ha in Hx. injection Hx as <-.
      by rewrite Hm in Hop.
  - destruct (st_heap st !! a) as [n|] eqn:Ha; [|done].
    repeat (apply andb_true_iff in Hop as [Hop ?]).
    destruct (childOf n c) as [[l|]| |] eqn:Hfe; try done.
    rewrite bind_Ok.
    destruct (removeChild_state st a n c l)
      as (st' & E & Hheap' & Hlen & _ & _ & Hframe); try done.
    + by destruct (isLeaf n).
    + intros E4 b Hb Hab.
      apply (assoc_entries (length (st_heap st))) in Hab;
        [|by eapply heap_ok_lookup|done].
      by rewrite bool_decide_eq_true_2 in H.
    + by exists st'.
Qed.

Lemma run_frame (ops : list op) (st : state) :
  heap_ok (st_heap st) = true -> ops_ok st ops = true ->
  exists st',
    run st ops = Ok st'
    /\ heap_ok (st_heap st') = true
    /\ (length (st_heap st) <= length (st_heap st'))%nat
    /\ (forall x m, st_heap st !! x = Some m -> isLeaf m = true ->
          st_heap st' !! x = Some m).
Proof.
  revert st. induction ops as [|o ops IH]; intros st Hheap Hops; simpl in *.
  - by exists st.
  - apply andb_true_iff in Hops as [Hop Hops].
    destruct (exec_frame st o Hheap Hop) as (st1 & E1 & H1 & L1 & F1).
    rewrite E1 in *. rewrite bind_Ok.
    destruct (IH st1 H1 Hops) as (st' & E' & H' & L' & F').
    exists st'. split_and!; try done; [lia|].
    intros x m Hx Hm. apply F'; [by apply F1 | done].
Qed.

(** X13.  The representation invariant is kept: after any sequence of
    [addChild] and [removeChild] calls on a store whose nodes satisfy the
    invariant of their variant, every node of the store satisfies it
    ([numChildren] within the capacity, key bytes in use distinct, child
    pointers in use non-nil, distinct and inside the store, the index of a
    [Node48] naming occupied slots, no two bytes the same slot). *)
Theorem invariant_kept (st : state) (ops : list op) :
  heap_ok (st_heap st) = true -> ops_ok st ops = true ->
  exists st',
    run st ops = Ok st'
    /\ forall a n, st_heap st' !! a = Some n ->
         node_ok (length (st_heap st')) n = true.
Proof.
  intros Hheap Hops. destruct (run_frame ops st Hheap Hops)
    as (st' & E & Hok & _).
  exists st'. split; [done|]. intros a n Ha. by eapply heap_ok_lookup.
Qed.

(** X14.  The operations never drop an object of the store and never
    change a leaf: after any sequence of [addChild] and [removeChild]
    calls the store is at least as large, and every leaf is where it was,
    with the key and value it had. *)
Theorem leaves_untouched (st : state) (ops : list op) :
  heap_ok (st_heap st) = true -> ops_ok st ops = true ->
  exists st',
    run st ops = Ok st'
    /\ (length (st_heap st) <= length (st_heap st'))%nat
    /\ forall x m, st_heap st !! x = Some m -> isLeaf m = true ->
         st_heap st' !! x = Some m.
Proof.
  intros Hheap Hops. destruct (run_frame ops st Hheap Hops)
    as (st' & E & _ & Hlen & Hframe).
  by exists st'.
Qed.

(** ** The extremes *)

Lemma StronglySorted_lookup (l : list Z) (i j : nat) (x y : Z) :
  StronglySorted Z.lt l -> (i < j)%nat ->
  l !! i = Some x -> l !! j = Some y -> x < y.
Proof.
  intros Hs. revert i j.
  induction Hs as [|z l Hs IH Hall]; intros i j Hij Hi Hj; [by destruct i|].
  destruct i as [|i], j as [|j]; try lia; simpl in *.
  - injection Hi as <-. rewrite Forall_forall in Hall. apply Hall.
    by eapply list_elem_of_lookup_2.
  - eapply (IH i j); [lia | done | done].
Qed.

Lemma scan_down_spec (children : list ptr) (n r p : nat) :
  (r < n)%nat -> children !! r = Some (Some p) ->
  (forall j, (r < j < n)%nat -> children !! j = Some None) ->
  scan_down children n = Ok (Z.of_nat r).
Proof.
  induction n as [|n IH]; intros Hr Hp Hnil; [lia|]. cbn [scan_down].
  destruct (decide (r = n)) as [->|Hne].
  - by rewrite (zget_Some _ _ _ Hp), bind_Ok.
  - rewrite (zget_Some children n None) by (apply Hnil; lia).
    rewrite bind_Ok. cbn [is_nil]. apply IH; [lia | done |].
    intros j Hj. apply Hnil. lia.
Qed.

Lemma scan_down_none (children : list ptr) (n : nat) :
  (forall j, (j < n)%nat -> children !! j = Some None) ->
  scan_down children n = Ok (-1).
Proof.
  induction n as [|n IH]; intros Hnil; [done|]. cbn [scan_down].
  rewrite (zget_Some children n None) by (apply Hnil; lia).
  rewrite bind_Ok. cbn [is_nil]. apply IH. intros j Hj. apply Hnil. lia.
Qed.

(** In a sorted node, the entry under the smallest key byte that has one is
    the first entry, and the entry under the largest is the last in use. *)
Lemma sorted_extremes (cap sz : nat) (hd : Header) (keys : list Z)
    (children : list ptr) (b : Z) (p : nat) :
  let nc := Z.to_nat (numChildren hd) in
  let fe := find_entry (take nc keys) (take nc children) in
  sorted_ok cap sz hd keys children = true ->
  fe b = Some p ->
  1 <= numChildren hd <= Z.of_nat cap
  /\ ((forall b', 0 <= b' < b -> fe b' = None) ->
      children !! 0%nat = Some (Some p))
  /\ ((forall b', b < b' < 256 -> fe b' = None) ->
      children !! (nc - 1)%nat = Some (Some p)).
Proof.
  intros nc fe Hok Hb.
  apply sorted_ok_spec in Hok
    as (Lk & Lc & Hnc & Hbytes & Hsort & Hocc & Hnd & _). fold nc in Hsort, Hocc, Hnd.
  pose proof (StronglySorted_lt_NoDup _ Hsort) as Hndk.
  assert (Llk : length (take nc keys) = nc) by (rewrite length_take; lia).
  assert (Llc : length (take nc children) = nc) by (rewrite length_take; lia).
  destruct (find_entry_inv (take nc keys) (take nc children) b)
    as [[E _]|(i & Hki & Hci)]; [lia | unfold fe in Hb; congruence |].
  fold fe in Hci. rewrite Hb in Hci.
  assert (Hi : (i < nc)%nat) by (apply lookup_lt_Some in Hki; lia).
  assert (Hat : forall j, (j < nc)%nat ->
            exists kj q, take nc keys !! j = Some kj
              /\ take nc children !! j = Some (Some q)
              /\ 0 <= kj < 256 /\ fe kj = Some q).
  { intros j Hj.
    destruct (lookup_lt_is_Some_2 (take nc keys) j) as [kj Hkj]; [lia|].
    destruct (lookup_lt_is_Some_2 (take nc children) j) as [q Hq]; [lia|].
    assert (q <> None) by (apply Hocc; by eapply list_elem_of_lookup_2).
    destruct q as [q|]; [|done]. exists kj, q. split_and!; try done.
    - apply is_byte_spec, Hbytes.
      apply (list_elem_of_lookup_2 _ j). by apply lookup_take_Some in Hkj as [? _].
    - apply is_byte_spec, Hbytes.
      apply (list_elem_of_lookup_2 _ j). by apply lookup_take_Some in Hkj as [? _].
    - unfold fe. rewrite (find_entry_at _ _ kj j) by done.
      by apply list_lookup_total_correct. }
  split; [lia|]. split.
  - intros Hmin. destruct (Hat 0%nat ltac:(lia)) as (k0 & q & Hk0 & Hq & Hr & Hfe).
    assert (b <= k0).
    { destruct (Z.le_gt_cases b k0); [done|].
      rewrite Hmin in Hfe by lia. done. }
    assert (i = 0%nat) as ->.
    { destruct i as [|i]; [done|].
      pose proof (StronglySorted_lookup _ 0 (S i) k0 b Hsort ltac:(lia) Hk0 Hki).
      lia. }
    rewrite lookup_take_lt in Hci by lia. done.
  - intros Hmax.
    destruct (Hat (nc - 1)%nat ltac:(lia)) as (k1 & q & Hk1 & Hq & Hr & Hfe).
    assert (k1 <= b).
    { destruct (Z.le_gt_cases k1 b); [done|].
      rewrite Hmax in Hfe by lia. done. }
    assert (i = (nc - 1)%nat) as ->.
    { destruct (decide (i = (nc - 1)%nat)); [done|].
      pose proof (StronglySorted_lookup _ i (nc - 1) b k1 Hsort ltac:(lia)
                    Hki Hk1). lia. }
    rewrite lookup_take_lt in Hci by lia. done.
Qed.

(** X15.  One step of [minimum]: on an inner node that satisfies the
    representation invariant, [minimum] goes on into the child stored under
    the smallest key byte that has a child, whatever the variant of the
    node. *)
Theorem minimum_smallest_byte (fuel : nat) (h : heap) (a sz : nat) (n : Node)
    (b : Z) (p : nat) :
  h !! a = Some n -> node_ok sz n = true ->
  is_byte b = true -> assoc n b = Some p ->
  (forall b', 0 <= b' < b -> assoc n b' = None) ->
  minimum (S fuel) h (Some a) = minimum fuel h (Some p).
Proof.
  intros Ha Hok Hb Hp Hmin. apply is_byte_spec in Hb.
  cbn [minimum]. rewrite Ha.
  destruct n as [hd v kl k|hd keys children|hd keys children|hd keys children
                 |hd children]; [done| | | |]; simpl in Hok;
    apply andb_true_iff in Hok as [_ Hok].
  - destruct (sorted_extremes _ _ _ _ _ _ _ Hok Hp) as (_ & H0 & _).
    rewrite (zget_Z children 0 (Some p)); [done | lia | exact (H0 Hmin)].
  - destruct (sorted_extremes _ _ _ _ _ _ _ Hok Hp) as (_ & H0 & _).
    rewrite (zget_Z children 0 (Some p)); [done | lia | exact (H0 Hmin)].
  - apply index_ok_spec in Hok as (Lk & Lc & Hr & Href & _).
    cbn [assoc] in Hp, Hmin.
    set (k := keys !!! Z.to_nat b) in *.
    assert (Ek : keys !! Z.to_nat b = Some k)
      by (apply list_lookup_lookup_total_lt; lia).
    destruct (Z.eqb_spec k 0) as [|Hk]; [done|].
    pose proof (Hr _ _ Ek) as Hrange.
    assert (Eidx : scan_up (fun i => negb (keys !!! i =? 0)) 0 256
                   = Z.to_nat b).
    { apply scan_up_unique; [lia| |].
      - intros j Hj. specialize (Hmin (Z.of_nat j) ltac:(lia)).
        rewrite Nat2Z.id in Hmin.
        destruct (Z.eqb_spec (keys !!! j) 0) as [|Hne]; [done|].
        exfalso. apply (Href j (keys !!! j)); [|done..].
        apply list_lookup_lookup_total_lt. lia.
      - intros _. fold k. by destruct (Z.eqb_spec k 0). }
    rewrite Eidx, (zget_Some keys _ k Ek), bind_Ok.
    rewrite to_byte_small by lia.
    destruct (Z.ltb_spec (k - 1) 48); [|lia].
    rewrite (zget_Z children (k - 1) (Some p)); [done | lia |].
    apply lookup_of_total; [lia | done].
  - apply direct_ok_spec in Hok as (Lc & _). cbn [assoc] in Hp, Hmin.
    assert (Eidx : scan_up (fun i => negb (is_nil (children !!! i))) 0 256
                   = Z.to_nat b).
    { apply scan_up_unique; [lia| |].
      - intros j Hj. specialize (Hmin (Z.of_nat j) ltac:(lia)).
        rewrite Nat2Z.id in Hmin. by rewrite Hmin.
      - intros _. by rewrite Hp. }
    rewrite Eidx. destruct (Z.ltb_spec (Z.of_nat (Z.to_nat b)) 256); [|lia].
    rewrite (zget_Some children _ (Some p)); [done|].
    apply lookup_of_total; [lia | done].
Qed.

(** X16.  One step of [maximum]: on a [Node4], [Node16] or [Node256] that
    satisfies the representation invariant, [maximum] goes on into the
    child stored under the largest key byte that has a child. *)
Theorem maximum_largest_byte (fuel : nat) (h : heap) (a sz : nat) (n : Node)
    (b : Z) (p : nat) :
  h !! a = Some n -> node_ok sz n = true ->
  getArtNodeType n <> node48 ->
  is_byte b = true -> assoc n b = Some p ->
  (forall b', b < b' < 256 -> assoc n b' = None) ->
  maximum (S fuel) h (Some a) = maximum fuel h (Some p).
Proof.
  intros Ha Hok Hty Hb Hp Hmax. apply is_byte_spec in Hb.
  cbn [maximum]. rewrite Ha.
  destruct n as [hd v kl k|hd keys children|hd keys children|hd keys children
                 |hd children]; [done| | |done|]; simpl in Hok;
    apply andb_true_iff in Hok as [_ Hok].
  - destruct (sorted_extremes _ _ _ _ _ _ _ Hok Hp) as (Hnc & _ & H1).
    rewrite decr_small by (simpl in Hnc; lia).
    rewrite (zget_Z children _ (Some p)); [done | lia |].
    replace (Z.to_nat (numChildren hd - 1))
      with (Z.to_nat (numChildren hd) - 1)%nat by lia.
    by apply H1.
  - destruct (sorted_extremes _ _ _ _ _ _ _ Hok Hp) as (Hnc & _ & H1).
    rewrite decr_small by (simpl in Hnc; lia).
    rewrite (zget_Z children _ (Some p)); [done | lia |].
    replace (Z.to_nat (numChildren hd - 1))
      with (Z.to_nat (numChildren hd) - 1)%nat by lia.
    by apply H1.
  - apply direct_ok_spec in Hok as (Lc & _). cbn [assoc] in Hp, Hmax.
    assert (Ep : children !! Z.to_nat b = Some (Some p))
      by (apply lookup_of_total; [lia | done]).
    rewrite (scan_down_spec children 256 (Z.to_nat b) p); [|lia|done|].
    + rewrite bind_Ok. destruct (Z.leb_spec 0 (Z.of_nat (Z.to_nat b))); [|lia].
      by rewrite (zget_Some children _ (Some p)).
    + intros j Hj. apply lookup_of_total; [lia|].
      specialize (Hmax (Z.of_nat j) ltac:(lia)). by rewrite Nat2Z.id in Hmax.
Qed.

(** X17.  Nodes without children: [maximum] indexes the children of a
    [Node4] or [Node16] at [numChildren - 1], so on one whose [numChildren]
    is 0 the index is out of range and the call panics; on a [Node256]
    whose slots are all nil, [minimum] and [maximum] run their scans to the
    end and return nil. *)
Theorem extremes_without_children (fuel : nat) (h : heap) (a sz : nat)
    (n : Node) :
  h !! a = Some n -> node_ok sz n = true ->
  (getArtNodeType n = node4 \/ getArtNodeType n = node16 ->
   getNumChildren n = 0 ->
   maximum (S fuel) h (Some a) = Panic)
  /\ (getArtNodeType n = node256 ->
      (forall b, is_byte b = true -> assoc n b = None) ->
      minimum (S fuel) h (Some a) = Ok None
      /\ maximum (S fuel) h (Some a) = Ok None).
Proof.
  intros Ha Hok. destruct params_inv as (_ & _ & HM).
  assert (Hd : 255 <= decr 0).
  { unfold decr. change (0 - 1) with (-1).
    rewrite <- (Z.mod_add (-1) 1 numChildrenMod) by lia.
    rewrite Z.mod_small; lia. }
  split.
  - intros Hty Hz. cbn [maximum]. rewrite Ha.
    destruct n as [hd v kl k|hd keys children|hd keys children|hd keys children
                   |hd children]; try (by destruct Hty); simpl in Hok;
      apply andb_true_iff in Hok as [_ Hok];
      apply sorted_ok_spec in Hok as (_ & Lc & _);
      unfold getNumChildren in Hz; simpl in Hz; rewrite Hz;
      by rewrite zget_out by lia.
  - intros Hty Hnil.
    destruct n as [hd v kl k|hd keys children|hd keys children|hd keys children
                   |hd children]; try done. simpl in Hok.
    apply andb_true_iff in Hok as [_ Hok].
    apply direct_ok_spec in Hok as (Lc & _).
    assert (Hall : forall j, (j < 256)%nat -> children !! j = Some None).
    { intros j Hj. apply lookup_of_total; [lia|].
      specialize (Hnil (Z.of_nat j)). cbn [assoc] in Hnil.
      rewrite Nat2Z.id in Hnil. apply Hnil. apply is_byte_spec. lia. }
    cbn [minimum maximum]. rewrite Ha. split.
    + rewrite (scan_up_unique _ 256 256); [done | lia | | lia].
      intros j Hj. by rewrite (list_lookup_total_correct _ _ _ (Hall j Hj)).
    + by rewrite scan_down_none.
Qed.

(** X18.  [findChild] on a node that satisfies the representation
    invariant: it returns nil exactly when no child is stored under the key
    byte, and otherwise the address of the slot that holds that child; it
    never returns the address of an empty slot. *)
Theorem findChild_spec (sz : nat) (n : Node) (c : Z) :
  node_ok sz n = true -> is_byte c = true ->
  match assoc n c with
  | None => findChild n c = Ok None
  | Some p =>
      exists i, findChild n c = Ok (Some i)
                /\ getChildren n !! i = Some (Some p)
  end.
Proof.
  intros Hok Hc. pose proof (childOf_assoc sz n c Hok Hc) as Hco.
  unfold childOf in Hco.
  destruct (findChild n c) as [[i|]| |] eqn:Hf; try done; simpl in Hco.
  - change (zget (getChildren n) (Z.of_nat i) = Ok (assoc n c)) in Hco.
    apply zget_Ok_inv in Hco as [_ Hi]. rewrite Nat2Z.id in Hi.
    destruct (assoc n c) as [p|] eqn:Hp; [by exists i|].
    exfalso. apply is_byte_spec in Hc.
    destruct n as [hd v kl k|hd keys children|hd keys children|hd keys children
                   |hd children]; [done| | | |]; simpl in Hok, Hi;
      apply andb_true_iff in Hok as [_ Hok].
    + apply sorted_ok_spec in Hok as (Lk & Lc & Hnc & _ & _ & Hocc & _).
      cbn [findChild] in Hf.
      rewrite findChild4_loop_spec in Hf by (simpl; lia).
      cbn zeta in Hf. rewrite Nat.add_0_l in Hf.
      destruct (Nat.ltb_spec
                  (scan_up (fun j => keys !!! j =? c) 0
                     (Z.to_nat (numChildren hd)))
                  (Z.to_nat (numChildren hd))) as [Hr|Hr]; [|done].
      injection Hf as <-.
      apply (Hocc None); [|done].
      apply (list_elem_of_lookup_2 _
               (scan_up (fun j => keys !!! j =? c) 0
                  (Z.to_nat (numChildren hd)))).
      by rewrite lookup_take_lt.
    + apply sorted_ok_spec in Hok as (Lk & Lc & Hnc & _ & _ & Hocc & _).
      cbn [findChild] in Hf. cbv zeta in Hf.
      rewrite mask16_ones in Hf by done.
      pose proof (masked_trailingZeros (fun i => keys !!! i =? c)
                    (numChildren hd) 16 ltac:(lia) ltac:(lia)) as Hm.
      simpl in Hm.
      destruct (Nat.ltb_spec
                  (scan_up (fun j => keys !!! j =? c) 0
                     (Z.to_nat (numChildren hd)))
                  (Z.to_nat (numChildren hd))) as [Hr|Hr].
      * destruct Hm as [Hne Htz]. rewrite Htz in Hf.
        destruct (Z.eqb_spec (Z.land (bitfield16 (fun i => keys !!! i =? c))
                                (Z.ones (numChildren hd))) 0); [done|].
        cbn [negb] in Hf. injection Hf as <-.
        apply (Hocc None); [|done].
        apply (list_elem_of_lookup_2 _
                 (scan_up (fun j => keys !!! j =? c) 0
                    (Z.to_nat (numChildren hd)))).
        by rewrite lookup_take_lt.
      * rewrite Hm in Hf. done.
    + apply index_ok_spec in Hok as (Lk & Lc & Hr & Href & _).
      cbn [findChild] in Hf.
      assert (Hl : keys !! Z.to_nat c = Some (keys !!! Z.to_nat c))
        by (apply list_lookup_lookup_total_lt; lia).
      rewrite (zget_Z keys c _ ltac:(lia) Hl), bind_Ok in Hf.
      specialize (Hr _ _ Hl). specialize (Href _ _ Hl).
      set (k := keys !!! Z.to_nat c) in *.
      destruct (Z.eqb_spec k 0); [done|]. cbn [negb] in Hf.
      assert (Hcl : children !! Z.to_nat (k - 1)
                    = Some (children !!! Z.to_nat (k - 1)))
        by (apply list_lookup_lookup_total_lt; lia).
      rewrite (zget_Z children (k - 1) _ ltac:(lia) Hcl), bind_Ok in Hf.
      injection Hf as <-. rewrite Hcl in Hi. injection Hi as Hi.
      by apply Href.
    + apply direct_ok_spec in Hok as (Lc & _). cbn [findChild] in Hf.
      assert (Hl : children !! Z.to_nat c = Some (children !!! Z.to_nat c))
        by (apply list_lookup_lookup_total_lt; lia).
      rewrite (zget_Z children c _ ltac:(lia) Hl), bind_Ok in Hf.
      destruct (children !!! Z.to_nat c) as [x|] eqn:E; simpl in Hf; [|done].
      injection Hf as <-. rewrite Hl in Hi. done.
  - injection Hco as <-. done.
Qed.

End ART.

(** * Instances *)

(** C9 at a fresh [Node16] and a [Node4] with 3 prefix bytes. *)
Lemma copyHeader_spec_witness :
  let dest : @Node unit := allocNode tt 10 node16 in
  let src : @Node unit :=
    Node4 (mkHeader 3 2 [1; 2; 3; 4; 5; 6; 7; 8; 9; 10]) [1; 2; 0; 0]
      [Some 0%nat; Some 1%nat; None; None] in
  exists dest',
    copyHeader 10 dest src = Ok dest'
    /\ getNumChildren dest' = 2
    /\ getPartialLen dest' = 3
    /\ take 3 (getPartial dest') = [1; 2; 3]
    /\ drop 3 (getPartial dest') = replicate 7 0
    /\ setHeader dest' (getHeader dest) = dest.
Proof.
  intros dest src.
  apply (@copyHeader_spec unit 10 (2 ^ 32) 256 eq_refl dest src);
    [ by vm_compute | vm_compute; lia | vm_compute; lia ].
Defined.


(** C7 at a [Node48] with one child, under the key byte 65. *)
Lemma maximum_Node48_panics_witness :
  let keys := <[65%nat := 1]> (replicate 256 0) in
  let children := <[0%nat := Some 0%nat]> (replicate 48 (@None nat)) in
  let hd := mkHeader 0 1 (replicate 10 0) in
  let h : list (@Node unit) :=
    [NodeLeaf (mkHeader 0 0 []) tt 2 [65; 36]; Node48 hd keys children] in
  index_ok 2 hd keys children = true
  /\ maximum 256 1 h (Some 1%nat) = Panic.
Proof.
  intros keys children hd h. split; [by vm_compute|].
  apply (@maximum_Node48_panics unit 256 0 h 1 hd keys children);
    reflexivity.
Defined.

(** C5 (amended) at the keys [a] and [ab]. *)
Lemma getTreeKey_strict_prefix_witness :
  (terminator ∉ [97; 98])
  /\ ~ strict_prefix (getTreeKey [97]) (getTreeKey [97; 98]).
Proof.
  assert (H : terminator ∉ [97; 98]).
  { unfold terminator. intros H.
    apply elem_of_cons in H as [H|H]; [lia|].
    apply elem_of_cons in H as [H|H]; [lia|].
    by apply elem_of_nil in H. }
  split; [exact H|].
  exact (proj2 (getTreeKey_strict_prefix [97] [97; 98]) H).
Defined.

(** C5 as worded fails for the keys [a] and [a$b]: they are distinct, and
    the transformed key [a$] is a strict prefix of [a$b$]. *)
Lemma getTreeKey_prefix_free_counterexample :
  [97] <> [97; 36; 98]
  /\ strict_prefix (getTreeKey [97]) (getTreeKey [97; 36; 98]).
Proof.
  split; [discriminate|]. split; [|discriminate].
  by exists [98; 36].
Qed.

(** C4 as worded fails on a [Node4] filled with four children of which the
    third is then removed: the entries shift left and the last slot keeps
    its pointer, so the array holds four non-nil entries for three
    children. *)
Lemma numChildren_counts_slots_counterexample :
  let leaf : @Node unit := NodeLeaf (mkHeader 0 0 []) tt 2 [0; 36] in
  let st := mkState (replicate 5 leaf ++ [allocNode tt 10 node4])
              (Some 5%nat) in
  let ops := [OpAdd 5 0 0; OpAdd 5 1 1; OpAdd 5 2 2; OpAdd 5 3 3;
              OpRemove 5 2] in
  heap_ok 10 256 (st_heap st) = true
  /\ ops_ok tt 10 (2 ^ 32) 256 st ops = true
  /\ exists st' n,
       run tt 10 (2 ^ 32) 256 st ops = Ok st'
       /\ st_heap st' !! 5%nat = Some n
       /\ n = Node4 (mkHeader 10 3 (replicate 10 0)) [0; 1; 3; 3]
                [Some 0%nat; Some 1%nat; Some 3%nat; Some 3%nat]
       /\ count_slots n = false.
Proof.
  split; [by vm_compute|]. split; [by vm_compute|].
  eexists _, _. split; [by vm_compute|]. split; [by vm_compute|].
  split; [done|]. by vm_compute.
Qed.

(** C4 (amended) on that sequence of operations. *)
Lemma numChildren_counts_region_witness :
  let leaf : @Node unit := NodeLeaf (mkHeader 0 0 []) tt 2 [0; 36] in
  let st := mkState (replicate 5 leaf ++ [allocNode tt 10 node4])
              (Some 5%nat) in
  let ops := [OpAdd 5 0 0; OpAdd 5 1 1; OpAdd 5 2 2; OpAdd 5 3 3;
              OpRemove 5 2] in
  exists st',
    run tt 10 (2 ^ 32) 256 st ops = Ok st'
    /\ forall a n, st_heap st' !! a = Some n -> count_region 256 n = true.
Proof.
  intros leaf st ops.
  apply (@numChildren_counts_region unit tt 10 (2 ^ 32) 256 eq_refl st ops);
    by vm_compute.
Defined.


(** C3 at a full [Node4]: the fifth child promotes it to a [Node16]. *)
Lemma addChild_promotes_witness :
  let leaf : @Node unit := NodeLeaf (mkHeader 0 0 []) tt 2 [0; 36] in
  let n : @Node unit :=
    Node4 (mkHeader 0 4 (replicate 10 0)) [1; 2; 3; 4]
      [Some 0%nat; Some 1%nat; Some 2%nat; Some 3%nat] in
  let st := mkState (replicate 5 leaf ++ [n]) (Some 5%nat) in
  exists st' n',
    addChild tt 10 256 st 5 7 4 = Ok st'
    /\ added 10 256 n n' 7 4
    /\ st_heap st' = st_heap st ++ [n']
    /\ st_slot st' = Some 6%nat
    /\ getArtNodeType n' = node16.
Proof.
  intros leaf n st.
  apply (@addChild_promotes unit tt 10 (2 ^ 32) 256 eq_refl st 5 n 7 4);
    try (by vm_compute).
  - simpl. lia.
  - vm_compute. intros H.
    repeat (apply elem_of_cons in H as [H|H]; [discriminate|]).
    by apply elem_of_nil in H.
Defined.

(** C2 at a [Node16] with four children: the removal leaves three and
    demotes it to a [Node4]. *)
Lemma removeChild_demotes_witness :
  let leaf : @Node unit := NodeLeaf (mkHeader 0 0 []) tt 2 [0; 36] in
  let n : @Node unit :=
    Node16 (mkHeader 0 4 (replicate 10 0)) ([1; 2; 3; 4] ++ replicate 12 0)
      ([Some 0%nat; Some 1%nat; Some 2%nat; Some 3%nat]
         ++ replicate 12 None) in
  let st := mkState (replicate 4 leaf ++ [n]) (Some 4%nat) in
  exists st' n1,
    removeChild tt 10 (2 ^ 32) 256 st 4 2 (Some 1%nat) = Ok st'
    /\ removed 10 256 n n1 2 /\ getArtNodeType n1 = node16
    /\ if underflown n1
       then exists n',
              st_heap st' = <[4%nat := n1]> (st_heap st) ++ [n']
              /\ st_slot st' = Some 5%nat
              /\ getArtNodeType n' = node4
              /\ node_ok 10 256 (length (st_heap st')) n' = true
              /\ keys_sorted n' = true
              /\ removed 10 256 n n' 2
       else st' = store st 4 n1.
Proof.
  intros leaf n st.
  apply (@removeChild_demotes unit tt 10 (2 ^ 32) 256 eq_refl st 4 n 2 1);
    by vm_compute.
Defined.

(** C1 at a [Node4] with prefix [5] over a leaf (under 3) and a [Node4] with
    prefix [7 8] (under 4): removing the leaf gives the child the prefix
    [5 4 7 8]. *)
Lemma removeChild4_collapse_witness :
  let leaf : @Node unit := NodeLeaf (mkHeader 0 0 []) tt 2 [0; 36] in
  let child : @Node unit :=
    Node4 (mkHeader 2 1 ([7; 8] ++ replicate 8 0)) [1; 0; 0; 0]
      [Some 0%nat; None; None; None] in
  let hd := mkHeader 1 2 (5 :: replicate 9 0) in
  let n : @Node unit := Node4 hd [3; 4; 0; 0]
                          [Some 0%nat; Some 1%nat; None; None] in
  let st := mkState [leaf; child; n] (Some 2%nat) in
  exists st' child',
    removeChild4 10 (2 ^ 32) 256 st 2 (Some 0%nat) = Ok st'
    /\ st_slot st' = Some 1%nat
    /\ st_heap st' !! 1%nat = Some child'
    /\ explicit 10 child' = [5; 4; 7; 8]
    /\ getPartialLen child' = 4
    /\ getNumChildren child' = 1
    /\ setHeader child' (getHeader child) = child.
Proof.
  intros leaf child hd n st.
  apply (@removeChild4_collapse unit 10 (2 ^ 32) 256 eq_refl st 2 hd
           [3; 4; 0; 0] [Some 0%nat; Some 1%nat; None; None] 3 4 0 1 child);
    by vm_compute.
Defined.




(** X4 at the key [a$]. *)
Lemma makeLeaf_leafMatches_witness :
  (exists hd, makeLeaf tt 10 [97; 36] tt = NodeLeaf hd tt 2 [97; 36])
  /\ leafMatches (makeLeaf tt 10 [97; 36] tt) [97; 36] 2 = Ok 0.
Proof.
  apply (@makeLeaf_leafMatches unit tt 10 [97; 36] tt). by vm_compute.
Defined.

(** X5 at the leaves of [abc$] and [abd$], from depth 1. *)
Lemma longestCommonPrefix_spec_witness :
  let l1 : @Node unit := NodeLeaf (mkHeader 0 0 []) tt 4 [97; 98; 99; 36] in
  let l2 : @Node unit := NodeLeaf (mkHeader 0 0 []) tt 4 [97; 98; 100; 36] in
  longestCommonPrefix l1 l2 1 = Ok 1
  /\ longestCommonPrefix l2 l1 1 = longestCommonPrefix l1 l2 1.
Proof.
  intros l1 l2.
  apply (@longestCommonPrefix_spec unit (mkHeader 0 0 []) (mkHeader 0 0 [])
           tt tt [97; 98; 99; 36] [97; 98; 100; 36] 1).
  lia.
Defined.

(** X6 at a [Node4] with the prefix [1 2 3] and the key [9 1 2 7 $], from
    depth 1. *)
Lemma checkPrefix_first_mismatch_witness :
  let n : @Node unit :=
    Node4 (mkHeader 3 2 ([1; 2; 3] ++ replicate 7 0)) [1; 2; 0; 0]
      [Some 0%nat; Some 1%nat; None; None] in
  let key := [9; 1; 2; 7; 36] in
  checkPrefix 10 n key 5 1 = Ok 2
  /\ 2 <= Z.min (getPartialLen n) 10
  /\ (2 <= length key - 1)%nat.
Proof.
  intros n key.
  apply (@checkPrefix_first_mismatch unit 10 (2 ^ 32) 256 eq_refl n key 1);
    [by vm_compute | lia].
Defined.

(** X7 at that node and key. *)
Lemma prefixMismatch_bounds_witness :
  let n : @Node unit :=
    Node4 (mkHeader 3 2 ([1; 2; 3] ++ replicate 7 0)) [1; 2; 0; 0]
      [Some 0%nat; Some 1%nat; None; None] in
  let key := [9; 1; 2; 7; 36] in
  prefixMismatch 10 0 [n] 0 key 5 1 = Ok 2
  /\ 0 <= 2 <= Z.max 0 (5 - 1).
Proof.
  intros n key. split; [by vm_compute|].
  apply (@prefixMismatch_bounds unit 10 0%nat [n] 0%nat key 5 1 2).
  by vm_compute.
Defined.

(** X8 at a fresh [Node48] and the key byte 65. *)
Lemma allocNode_empty_witness :
  node_ok 10 256 0 (allocNode tt 10 node48) = true
  /\ getNumChildren (allocNode tt 10 node48) = 0
  /\ findChild (allocNode tt 10 node48) 65 = Ok None.
Proof.
  apply (@allocNode_empty unit tt 10 (2 ^ 32) 256 eq_refl 0%nat node48 65).
  by vm_compute.
Defined.

(** X9 at a full [Node4]: the fifth child is found in the [Node16] that
    replaces it. *)
Lemma findChild_after_addChild_witness :
  let leaf : @Node unit := NodeLeaf (mkHeader 0 0 []) tt 2 [0; 36] in
  let n : @Node unit :=
    Node4 (mkHeader 0 4 (replicate 10 0)) [1; 2; 3; 4]
      [Some 0%nat; Some 1%nat; Some 2%nat; Some 3%nat] in
  let st := mkState (replicate 5 leaf ++ [n]) (Some 5%nat) in
  exists st' n',
    addChild tt 10 256 st 5 7 4 = Ok st'
    /\ st_heap st' !! 6%nat = Some n'
    /\ childOf n' 7 = Ok (Some 4%nat)
    /\ forall b, is_byte b = true -> b <> 7 -> childOf n' b = childOf n b.
Proof.
  intros leaf n st.
  apply (@findChild_after_addChild unit tt 10 (2 ^ 32) 256 eq_refl st 5 n 7 4);
    try (by vm_compute).
  - simpl. lia.
  - vm_compute. intros H.
    repeat (apply elem_of_cons in H as [H|H]; [discriminate|]).
    by apply elem_of_nil in H.
Defined.

(** X10 at a [Node4] with three children, of which the second is removed. *)
Lemma findChild_after_removeChild_witness :
  let leaf : @Node unit := NodeLeaf (mkHeader 0 0 []) tt 2 [0; 36] in
  let n : @Node unit :=
    Node4 (mkHeader 0 3 (replicate 10 0)) [1; 2; 3; 0]
      [Some 0%nat; Some 1%nat; Some 2%nat; None] in
  let st := mkState (replicate 5 leaf ++ [n]) (Some 5%nat) in
  exists st',
    removeChild tt 10 (2 ^ 32) 256 st 5 2 (Some 1%nat) = Ok st'
    /\ is_Some (st_heap st' !! 5%nat)
    /\ forall a' n',
         a' = 5%nat \/ (6 <= a')%nat ->
         st_heap st' !! a' = Some n' ->
         childOf n' 2 = Ok None
         /\ forall b, is_byte b = true -> b <> 2 ->
              childOf n' b = childOf n b.
Proof.
  intros leaf n st.
  apply (@findChild_after_removeChild unit tt 10 (2 ^ 32) 256 eq_refl st 5 n
           2 1); try (by vm_compute).
  intros _ b _ Hb.
  apply (@assoc_entries unit 10 256 6 n b 5) in Hb;
    [|by vm_compute|reflexivity].
  vm_compute in Hb.
  repeat (apply elem_of_cons in Hb as [Hb|Hb]; [discriminate|]).
  by apply elem_of_nil in Hb.
Defined.

(** X11 at a [Node16] with three children: the fourth is added and removed
    again, which demotes the node to a [Node4]. *)
Lemma removeChild_after_addChild_witness :
  let leaf : @Node unit := NodeLeaf (mkHeader 0 0 []) tt 2 [0; 36] in
  let n : @Node unit :=
    Node16 (mkHeader 0 3 (replicate 10 0)) ([1; 2; 3] ++ replicate 13 0)
      ([Some 0%nat; Some 1%nat; Some 2%nat] ++ replicate 13 None) in
  let st := mkState (replicate 5 leaf ++ [n]) (Some 5%nat) in
  exists st1 st2,
    addChild tt 10 256 st 5 7 4 = Ok st1
    /\ removeChild tt 10 (2 ^ 32) 256 st1 5 7 (Some 4%nat) = Ok st2
    /\ is_Some (st_heap st2 !! 5%nat)
    /\ forall a2 n2,
         a2 = 5%nat \/ (length (st_heap st1) <= a2)%nat ->
         st_heap st2 !! a2 = Some n2 ->
         forall b, is_byte b = true -> childOf n2 b = childOf n b.
Proof.
  intros leaf n st.
  apply (@removeChild_after_addChild unit tt 10 (2 ^ 32) 256 eq_refl st 5 n
           7 4); try (by vm_compute).
  - simpl. lia.
  - vm_compute. intros H.
    repeat (apply elem_of_cons in H as [H|H]; [discriminate|]).
    by apply elem_of_nil in H.
Defined.

(** X12 at a full [Node4]: the [Node16] that replaces it stays a [Node16]
    when a child is removed. *)
Lemma promotion_survives_removal_witness :
  let leaf : @Node unit := NodeLeaf (mkHeader 0 0 []) tt 2 [0; 36] in
  let n : @Node unit :=
    Node4 (mkHeader 0 4 (replicate 10 0)) [1; 2; 3; 4]
      [Some 0%nat; Some 1%nat; Some 2%nat; Some 3%nat] in
  let st := mkState (replicate 5 leaf ++ [n]) (Some 5%nat) in
  exists st1 n',
    addChild tt 10 256 st 5 7 4 = Ok st1
    /\ st_heap st1 !! 6%nat = Some n'
    /\ forall c' l,
         is_byte c' = true -> childOf n' c' = Ok (Some l) ->
         exists n2,
           removeChild tt 10 (2 ^ 32) 256 st1 6 c' (Some l)
           = Ok (store st1 6 n2)
           /\ getArtNodeType n2 = node16
           /\ getNumChildren n2 = 4.
Proof.
  intros leaf n st.
  apply (@promotion_survives_removal unit tt 10 (2 ^ 32) 256 eq_refl st 5 n
           7 4); try (by vm_compute).
  - simpl. lia.
  - vm_compute. intros H.
    repeat (apply elem_of_cons in H as [H|H]; [discriminate|]).
    by apply elem_of_nil in H.
Defined.

(** X13 on a sequence that fills a [Node4], promotes it and shrinks the
    [Node16] back to a [Node4]. *)
Lemma invariant_kept_witness :
  let leaf : @Node unit := NodeLeaf (mkHeader 0 0 []) tt 2 [0; 36] in
  let st := mkState (replicate 6 leaf ++ [allocNode tt 10 node4])
              (Some 6%nat) in
  let ops := [OpAdd 6 9 0; OpAdd 6 7 1; OpAdd 6 8 2; OpAdd 6 3 3;
              OpAdd 6 5 4; OpRemove 7 8; OpRemove 7 3] in
  exists st',
    run tt 10 (2 ^ 32) 256 st ops = Ok st'
    /\ forall a n, st_heap st' !! a = Some n ->
         node_ok 10 256 (length (st_heap st')) n = true.
Proof.
  intros leaf st ops.
  apply (@invariant_kept unit tt 10 (2 ^ 32) 256 eq_refl st ops);
    by vm_compute.
Defined.

(** X14 on that sequence of operations. *)
Lemma leaves_untouched_witness :
  let leaf : @Node unit := NodeLeaf (mkHeader 0 0 []) tt 2 [0; 36] in
  let st := mkState (replicate 6 leaf ++ [allocNode tt 10 node4])
              (Some 6%nat) in
  let ops := [OpAdd 6 9 0; OpAdd 6 7 1; OpAdd 6 8 2; OpAdd 6 3 3;
              OpAdd 6 5 4; OpRemove 7 8; OpRemove 7 3] in
  exists st',
    run tt 10 (2 ^ 32) 256 st ops = Ok st'
    /\ (7 <= length (st_heap st'))%nat
    /\ forall x m, st_heap st !! x = Some m -> isLeaf m = true ->
         st_heap st' !! x = Some m.
Proof.
  intros leaf st ops.
  apply (@leaves_untouched unit tt 10 (2 ^ 32) 256 eq_refl st ops);
    by vm_compute.
Defined.

(** X15 at a [Node48] with the children 0 and 1 under the key bytes 66 and
    65: the descent goes on into the child 1. *)
Lemma minimum_smallest_byte_witness :
  let keys := <[65%nat := 2]> (<[66%nat := 1]> (replicate 256 0)) in
  let children :=
    <[1%nat := Some 1%nat]>
      (<[0%nat := Some 0%nat]> (replicate 48 (@None nat))) in
  let hd := mkHeader 0 2 (replicate 10 0) in
  let leaf : @Node unit := NodeLeaf (mkHeader 0 0 []) tt 2 [0; 36] in
  let h := [leaf; leaf; Node48 hd keys children] in
  minimum 2 h (Some 2%nat) = minimum 1 h (Some 1%nat).
Proof.
  intros keys children hd leaf h.
  apply (@minimum_smallest_byte unit 10 256 1 h 2 3 (Node48 hd keys children)
           65 1); try (by vm_compute).
  intros b' Hb'. cbn [assoc].
  assert (E : keys !!! Z.to_nat b' = 0); [|by rewrite E].
  unfold keys. rewrite !list_lookup_total_insert_ne by lia.
  apply lookup_total_replicate_2. lia.
Defined.

(** X16 at a [Node4] with the children 0, 1 and 2 under the key bytes 1, 2
    and 3: the descent goes on into the child 2. *)
Lemma maximum_largest_byte_witness :
  let leaf : @Node unit := NodeLeaf (mkHeader 0 0 []) tt 2 [0; 36] in
  let n : @Node unit :=
    Node4 (mkHeader 0 3 (replicate 10 0)) [1; 2; 3; 0]
      [Some 0%nat; Some 1%nat; Some 2%nat; None] in
  let h := [leaf; leaf; leaf; n] in
  maximum 256 2 h (Some 3%nat) = maximum 256 1 h (Some 2%nat).
Proof.
  intros leaf n h.
  apply (@maximum_largest_byte unit 10 (2 ^ 32) 256 eq_refl 1 h 3 4 n 3 2);
    try (by vm_compute).
  intros b' Hb'. cbn [assoc]. apply find_entry_absent.
  vm_compute. intros H.
  repeat (apply elem_of_cons in H as [H|H]; [lia|]).
  by apply elem_of_nil in H.
Defined.

(** X17 at a fresh [Node4]. *)
Lemma extremes_without_children_witness :
  let h : list (@Node unit) := [allocNode tt 10 node4] in
  node_ok 10 256 1 (allocNode tt 10 node4) = true
  /\ maximum 256 1 h (Some 0%nat) = Panic.
Proof.
  intros h. split; [by vm_compute|].
  destruct (@extremes_without_children unit 10 (2 ^ 32) 256 eq_refl 0 h 0 1
              (allocNode tt 10 node4) eq_refl eq_refl) as [H _].
  apply H; [by left | reflexivity].
Defined.

(** X18 at a [Node16] with three children and the key byte 2. *)
Lemma findChild_spec_witness :
  let n : @Node unit :=
    Node16 (mkHeader 0 3 (replicate 10 0)) ([1; 2; 3] ++ replicate 13 0)
      ([Some 0%nat; Some 1%nat; Some 2%nat] ++ replicate 13 None) in
  exists i, findChild n 2 = Ok (Some i)
            /\ getChildren n !! i = Some (Some 1%nat).
Proof.
  intros n.
  apply (@findChild_spec unit 10 256 3 n 2); by vm_compute.
Defined.
